(** * jsonml: node factory (index.js) and in-place reconciler (render.js)

    A shallow embedding of the JsonML node factory and of the patch engine
    that reconciles a live DOM subtree against a JsonML description.

    Layout of the development:
    - [Js]      : the JavaScript values a description is made of;
    - [Dom]     : the part of the DOM the code touches (nodes with identity,
                  sibling lists, TreeWalker, the mutation journal);
    - [Index]   : src/index.js;
    - [Index1]  : src/unnamed/part_001, the revision of index.js that exports
                  [isDocumentFragment] and [JsonMLSymbol], which render.js imports;
    - [Render]  : src/render.js;
    - [Matcher], [Shape], [Namespaces], [Attributes], [Delimiters],
      [Revisions], [Survivors] : what the theorems are stated with;
    - theorems. *)

From Stdlib Require Import String Ascii List ZArith Bool Arith Lia DecimalString.
Import ListNotations.
Set Warnings "-register-all".
Local Open Scope string_scope.
Local Open Scope list_scope.

(** ** JavaScript values *)
Module Js.

(** [JsonMLText]: string | number | bigint | boolean | null | undefined.
    Numbers are the integral ones that [String(n)] prints in plain decimal
    digits. *)
Inductive prim :=
| PString (s : string)
| PNumber (n : Z)
| PBigInt (n : Z)
| PBoolean (b : bool)
| PNull
| PUndefined.

(** A value stored in an attribute map: a primitive, or anything else
    (function, object, symbol), known only by a handle. *)
Inductive value :=
| VPrim (p : prim)
| VOther (handle : nat).

(** Own keys of an attribute map: strings, or symbols with their description. *)
Inductive key :=
| KString (s : string)
| KSymbol (description : option string).

(** [JsonMLNamedNodeMap], its entries listed in [Reflect.ownKeys] order. *)
Definition namedNodeMap := list (key * value).

(** A description is a non-array primitive or an array
    [[head, attrs?, ...items]]; the code dispatches on [Array.isArray]
    and on [jsonml[0]]. *)
Inductive jsonml :=
| JPrim (v : prim)
| JArray (head : string) (attrs : option namedNodeMap) (items : list jsonml).

(** What [jsonml[1]] can hold. *)
Inductive slot :=
| SlotNode (j : jsonml)
| SlotMap (m : namedNodeMap)
| SlotUndefined.

Definition at1 (attrs : option namedNodeMap) (items : list jsonml) : slot :=
  match attrs with
  | Some m => SlotMap m
  | None => match items with
            | j :: _ => SlotNode j
            | [] => SlotUndefined
            end
  end.

(** [String(v)] on number, bigint and boolean. *)
Definition String_of_Z (n : Z) : string := NilZero.string_of_int (Z.to_int n).

(** Case mapping of ASCII letters. The DOM upper-cases the tag names of
    HTML elements and lower-cases their attribute names in ASCII only,
    so [toUpperCase] and the lower-casing in [attr_name] are the DOM's
    on every string. [String.prototype.toLowerCase] follows Unicode;
    [toLowerCase] is this function on names written in ASCII
    ([Matcher.ascii_only]), and what is stated of the comparison of
    names up to case is stated for such names. *)
Definition lower_ascii (c : ascii) : ascii :=
  let n := nat_of_ascii c in
  if ((65 <=? n) && (n <=? 90))%nat then ascii_of_nat (n + 32) else c.

Definition upper_ascii (c : ascii) : ascii :=
  let n := nat_of_ascii c in
  if ((97 <=? n) && (n <=? 122))%nat then ascii_of_nat (n - 32) else c.

Fixpoint toLowerCase (s : string) : string :=
  match s with
  | EmptyString => EmptyString
  | String c s' => String (lower_ascii c) (toLowerCase s')
  end.

Fixpoint toUpperCase (s : string) : string :=
  match s with
  | EmptyString => EmptyString
  | String c s' => String (upper_ascii c) (toUpperCase s')
  end.

(** The optional [xmlns] argument and the [namespaceURI] property:
    absent, [null], or a string. *)
Inductive nsval :=
| Undefined
| Null
| Uri (s : string).

Definition nsval_eqb (a b : nsval) : bool :=
  match a, b with
  | Undefined, Undefined => true
  | Null, Null => true
  | Uri s, Uri t => String.eqb s t
  | _, _ => false
  end.

End Js.
Import Js.

(** ** The DOM, as far as the code uses it *)
Module Dom.

Definition htmlns := "http://www.w3.org/1999/xhtml".
Definition svgns := "http://www.w3.org/2000/svg".

(** Live nodes. Every node carries its identity [id]; an element has a
    namespace ([None] is [null]), the qualified name it was created with,
    its attributes, the property assignments made on it and its
    children. A comment built by [new JsonMLDelimiter()] carries the
    [JsonMLSymbol] field. *)
Inductive node :=
| Element (id : nat) (ns : option string) (qname : string)
          (attributes : list (string * string))
          (properties : list (string * value))
          (childNodes : list node)
| Text (id : nat) (data : string)
| Comment (id : nat) (data : string) (hasJsonMLSymbol : bool).

Definition node_id (n : node) : nat :=
  match n with
  | Element id _ _ _ _ _ => id
  | Text id _ => id
  | Comment id _ _ => id
  end.

(** [node.nodeName], in an HTML document: the tag name of an element of
    the HTML namespace is upper-cased. *)
Definition nodeName (n : node) : string :=
  match n with
  | Element _ ns q _ _ _ =>
      match ns with
      | Some u => if String.eqb u htmlns then toUpperCase q else q
      | None => q
      end
  | Text _ _ => "#text"
  | Comment _ _ _ => "#comment"
  end.

(** [node.namespaceURI]: only elements have the property. *)
Definition namespaceURI (n : node) : nsval :=
  match n with
  | Element _ (Some u) _ _ _ _ => Uri u
  | Element _ None _ _ _ _ => Null
  | _ => Undefined
  end.

(** [node.nodeValue]: [null] on elements. *)
Definition nodeValue (n : node) : option string :=
  match n with
  | Element _ _ _ _ _ _ => None
  | Text _ s => Some s
  | Comment _ s _ => Some s
  end.

(** [node.nodeValue = s]: no effect on elements. *)
Definition set_nodeValue (s : string) (n : node) : node :=
  match n with
  | Element _ _ _ _ _ _ => n
  | Text id _ => Text id s
  | Comment id _ m => Comment id s m
  end.

Definition childNodes (n : node) : list node :=
  match n with
  | Element _ _ _ _ _ kids => kids
  | _ => []
  end.

Definition set_childNodes (kids : list node) (n : node) : node :=
  match n with
  | Element id ns q a p _ => Element id ns q a p kids
  | _ => n
  end.

(** [instance instanceof Comment && JsonMLSymbol in instance]. *)
Definition isDelimiter (n : node) : bool :=
  match n with
  | Comment _ _ m => m
  | _ => false
  end.

(** What a factory call returns: one node, or a [DocumentFragment], whose
    children are spliced in where it is appended or inserted. *)
Inductive created :=
| Single (n : node)
| Fragment (nodes : list node).

Definition nodes_of (c : created) : list node :=
  match c with
  | Single n => [n]
  | Fragment l => l
  end.

(** The journal of what happened to live nodes. *)
Inductive mutation :=
| Created (id : nat)
| Appended (parent : nat) (ids : list nat)
| Replaced (old : nat) (ids : list nat)
| Removed (parent : nat) (child : nat)
| ValueWritten (id : nat) (data : string).

(** The document: the next unused identity and the journal. *)
Record dom := mkDom { next_id : nat; journal : list mutation }.

Definition record (m : mutation) (d : dom) : dom :=
  mkDom (next_id d) (journal d ++ [m]).

(** Allocation of the identity of a node under construction. *)
Definition fresh (d : dom) : nat * dom :=
  (next_id d, mkDom (S (next_id d)) (journal d ++ [Created (next_id d)])).

(** The namespace [createElementNS(xmlns, _)] gives the element:
    [null] and the empty string are no namespace. *)
Definition element_ns (x : nsval) : option string :=
  match x with
  | Uri s => if String.eqb s "" then None else Some s
  | _ => None
  end.

(** Attribute names are lower-cased on elements of the HTML namespace. *)
Definition attr_name (ns : option string) (k : string) : string :=
  match ns with
  | Some u => if String.eqb u htmlns then toLowerCase k else k
  | None => k
  end.

Fixpoint set_assoc {A} (k : string) (v : A) (l : list (string * A)) : list (string * A) :=
  match l with
  | [] => [(k, v)]
  | (k', v') :: l' => if String.eqb k' k then (k, v) :: l' else (k', v') :: set_assoc k v l'
  end.

Fixpoint has_assoc {A} (k : string) (l : list (string * A)) : bool :=
  match l with
  | [] => false
  | (k', _) :: l' => String.eqb k' k || has_assoc k l'
  end.

Fixpoint remove_assoc {A} (k : string) (l : list (string * A)) : list (string * A) :=
  match l with
  | [] => []
  | (k', v') :: l' => if String.eqb k' k then remove_assoc k l' else (k', v') :: remove_assoc k l'
  end.

Definition setAttribute (k v : string) (n : node) : node :=
  match n with
  | Element id ns q a p kids => Element id ns q (set_assoc (attr_name ns k) v a) p kids
  | _ => n
  end.

Definition toggleAttribute (k : string) (force : bool) (n : node) : node :=
  match n with
  | Element id ns q a p kids =>
      let k' := attr_name ns k in
      if force then
        if has_assoc k' a then n else Element id ns q (a ++ [(k', "")]) p kids
      else Element id ns q (remove_assoc k' a) p kids
  | _ => n
  end.

(** [element[name] = v]. The assignment is recorded, after the earlier
    ones. What a setter of the element makes of it (an attribute for
    [id], a coerced value for [tabIndex], new children for
    [textContent]) is the platform's and is not modelled: the attributes
    and children of an element are those the code gave it by
    [setAttribute], [toggleAttribute] and [append]. *)
Definition setProperty (k : string) (v : value) (n : node) : node :=
  match n with
  | Element id ns q a p kids => Element id ns q a (p ++ [(k, v)]) kids
  | _ => n
  end.

(** *** Sibling lists, addressed by node identity *)

Fixpoint find_node (id : nat) (l : list node) : option node :=
  match l with
  | [] => None
  | n :: l' => if Nat.eqb (node_id n) id then Some n else find_node id l'
  end.

(** [node.nextSibling]; [null] for the last child and for a node that is
    not in the list (a detached node has no siblings). *)
Fixpoint nextSiblingOf (id : nat) (l : list node) : option nat :=
  match l with
  | [] => None
  | n :: l' =>
      if Nat.eqb (node_id n) id then
        match l' with
        | m :: _ => Some (node_id m)
        | [] => None
        end
      else nextSiblingOf id l'
  end.

(** [node.replaceWith(...new)] seen from the parent's child list; nothing
    happens when the node is not in it. *)
Fixpoint replace_node (id : nat) (new : list node) (l : list node) : list node :=
  match l with
  | [] => []
  | n :: l' => if Nat.eqb (node_id n) id then new ++ l' else n :: replace_node id new l'
  end.

Fixpoint remove_node (id : nat) (l : list node) : list node :=
  match l with
  | [] => []
  | n :: l' => if Nat.eqb (node_id n) id then l' else n :: remove_node id l'
  end.

(** *** TreeWalker

    [document.createTreeWalker(root, SHOW_ELEMENT | SHOW_TEXT | SHOW_COMMENT)].
    The live children are elements, texts and comments, all of which the
    filter accepts, so the walker moves over the children of its root and
    never below them. [siblings] is the live child list of [root]. *)
Record treeWalker := mkWalker {
  root_id : nat;
  root_ns : nsval;
  siblings : list node;
  currentNode : nat
}.

Definition set_siblings (l : list node) (w : treeWalker) : treeWalker :=
  mkWalker (root_id w) (root_ns w) l (currentNode w).

(** [treeWalker.nextSibling()]: moves to the next sibling and returns it,
    or returns [null] and stays. *)
Definition walker_nextSibling (w : treeWalker) : option nat * treeWalker :=
  match nextSiblingOf (currentNode w) (siblings w) with
  | Some s => (Some s, mkWalker (root_id w) (root_ns w) (siblings w) s)
  | None => (None, w)
  end.

(** [root.appendChild(node)] on the walker's root. Appending a fragment
    without children changes nothing and leaves no record. *)
Definition appendChild (c : created) (w : treeWalker) (d : dom) : treeWalker * dom :=
  (set_siblings (siblings w ++ nodes_of c) w,
   match nodes_of c with
   | [] => d
   | _ :: _ => record (Appended (root_id w) (map node_id (nodes_of c))) d
   end).

End Dom.
Import Dom.

(** ** src/index.js *)
Module Index.

Definition dollar_fragment := "#document-fragment".
Definition dollar_comment := "#comment".
Definition dollar_text := "#text".

(** [isNamedNodeMap]: a non-null object that is not an array. *)
Definition isNamedNodeMap (x : slot) : bool :=
  match x with
  | SlotMap _ => true
  | _ => false
  end.

Definition nodeNameOf (j : jsonml) : string :=
  match j with
  | JArray head _ _ => head
  | JPrim _ => dollar_text
  end.

(** [nodeValueOf]: the switch on [typeof]; arrays, objects, [null] and
    [undefined] fall to the default. *)
Definition nodeValueOf (x : slot) : string :=
  match x with
  | SlotNode (JPrim (PString s)) => s
  | SlotNode (JPrim (PNumber n)) => String_of_Z n
  | SlotNode (JPrim (PBigInt n)) => String_of_Z n
  | SlotNode (JPrim (PBoolean b)) => if b then "true" else "false"
  | _ => ""
  end.

(** [attrs.xmlns]. *)
Fixpoint get_xmlns (m : namedNodeMap) : option value :=
  match m with
  | [] => None
  | (KString k, v) :: m' => if String.eqb k "xmlns" then Some v else get_xmlns m'
  | _ :: m' => get_xmlns m'
  end.

(** [if (typeof attrs.xmlns === 'string' || attrs.xmlns === null) xmlns = attrs.xmlns]. *)
Definition override_xmlns (attrs : option namedNodeMap) (xmlns : nsval) : nsval :=
  match attrs with
  | Some m =>
      match get_xmlns m with
      | Some (VPrim (PString s)) => Uri s
      | Some (VPrim PNull) => Null
      | _ => xmlns
      end
  | None => xmlns
  end.

(** One turn of [for (const key of Reflect.ownKeys(attrs))]. *)
Definition setEntry (e : node) (kv : key * value) : node :=
  match kv with
  | (KString k, VPrim (PString s)) => setAttribute k s e
  | (KString k, VPrim (PNumber n)) => setAttribute k (String_of_Z n) e
  | (KString k, VPrim (PBigInt n)) => setAttribute k (String_of_Z n) e
  | (KString k, VPrim (PBoolean b)) => toggleAttribute k b e
  | (KString _, _) => e
  | (KSymbol (Some description), v) => setProperty description v e
  | (KSymbol None, _) => e
  end.

Definition setEntries (attrs : option namedNodeMap) (e : node) : node :=
  match attrs with
  | Some m => fold_left setEntry m e
  | None => e
  end.

(** [document.createTextNode(nodeValueOf(jsonml))]. *)
Definition createTextNode (x : slot) (d : dom) : node * dom :=
  let '(id, d1) := fresh d in (Text id (nodeValueOf x), d1).

(** [document.createComment(nodeValueOf(jsonml[1]))]. *)
Definition createComment (attrs : option namedNodeMap) (items : list jsonml) (d : dom) : node * dom :=
  let '(id, d1) := fresh d in (Comment id (nodeValueOf (at1 attrs items)) false, d1).

(** [for (; i < jsonml.length;) parent.append(create(jsonml[i++]))]:
    the nodes appended, fragments spliced. *)
Definition createEach (create : jsonml -> dom -> created * dom)
  : list jsonml -> dom -> list node * dom :=
  fix each (l : list jsonml) (d : dom) {struct l} : list node * dom :=
    match l with
    | [] => ([], d)
    | c :: l' =>
        let '(r, d1) := create c d in
        let '(rs, d2) := each l' d1 in
        (nodes_of r ++ rs, d2)
    end.

(** The body of [createElement], over the [createNode] it calls back.
    [attrs] is [jsonml[1]] when [isNamedNodeMap] holds of it, and [items]
    are the entries from index [i] on. *)
Definition createElement_body (createNode : jsonml -> nsval -> dom -> created * dom)
  (head : string) (attrs : option namedNodeMap) (items : list jsonml)
  (xmlns : nsval) (d : dom) : node * dom :=
  let xmlns := match xmlns with Undefined => Uri htmlns | _ => xmlns end in
  let xmlns := override_xmlns attrs xmlns in
  let '(id, d1) := fresh d in
  let element := setEntries attrs (Element id (element_ns xmlns) head [] [] []) in
  let '(kids, d2) := createEach (fun c => createNode c xmlns) items d1 in
  (set_childNodes (childNodes element ++ kids) element, d2).

(** The body of [createDocumentFragment(jsonml)]: the loop starts at
    index 1, so an attribute map found there is given to [createNode] as
    well, which makes a text node of it. No namespace is handed on. *)
Definition createDocumentFragment_body (createNode : jsonml -> nsval -> dom -> created * dom)
  (attrs : option namedNodeMap) (items : list jsonml) (d : dom) : list node * dom :=
  match attrs with
  | Some m =>
      let '(t, d1) := createTextNode (SlotMap m) d in
      let '(kids, d2) := createEach (fun c => createNode c Undefined) items d1 in
      (t :: kids, d2)
  | None => createEach (fun c => createNode c Undefined) items d
  end.

Fixpoint createNode (j : jsonml) (xmlns : nsval) (d : dom) {struct j} : created * dom :=
  match j with
  | JArray head attrs items =>
      if String.eqb head dollar_fragment then
        let '(l, d1) := createDocumentFragment_body createNode attrs items d in
        (Fragment l, d1)
      else if String.eqb head dollar_comment then
        let '(c, d1) := createComment attrs items d in (Single c, d1)
      else
        let '(e, d1) := createElement_body createNode head attrs items xmlns d in
        (Single e, d1)
  | JPrim _ =>
      let '(t, d1) := createTextNode (SlotNode j) d in (Single t, d1)
  end.

Definition createElement := createElement_body createNode.
Definition createDocumentFragment := createDocumentFragment_body createNode.

End Index.

(** ** src/unnamed/part_001: index.js as render.js imports it

    [nodeNameOf], [nodeValueOf], [isNamedNodeMap], [createTextNode],
    [createComment] and the attribute loop read as in src/index.js
    ([setAttribute(key, String(value))] stores what [setAttribute(key, value)]
    stores). [createNode] and [createDocumentFragment] take and hand on
    [xmlns]. *)
Module Index1.

Definition dollar_fragment := Index.dollar_fragment.
Definition dollar_comment := Index.dollar_comment.
Definition dollar_text := Index.dollar_text.
Definition isNamedNodeMap := Index.isNamedNodeMap.
Definition nodeNameOf := Index.nodeNameOf.
Definition nodeValueOf := Index.nodeValueOf.
Definition createTextNode := Index.createTextNode.
Definition createComment := Index.createComment.
Definition createEach := Index.createEach.
Definition createElement_body := Index.createElement_body.

(** [Array.isArray(jsonml) && jsonml[0] === $fragment]. *)
Definition isDocumentFragment (j : jsonml) : bool :=
  match j with
  | JArray head _ _ => String.eqb head dollar_fragment
  | JPrim _ => false
  end.

(** The body of [createDocumentFragment(jsonml, xmlns)]. *)
Definition createDocumentFragment_body (createNode : jsonml -> nsval -> dom -> created * dom)
  (attrs : option namedNodeMap) (items : list jsonml) (xmlns : nsval) (d : dom)
  : list node * dom :=
  match attrs with
  | Some m =>
      let '(t, d1) := createTextNode (SlotMap m) d in
      let '(kids, d2) := createEach (fun c => createNode c xmlns) items d1 in
      (t :: kids, d2)
  | None => createEach (fun c => createNode c xmlns) items d
  end.

Fixpoint createNode (j : jsonml) (xmlns : nsval) (d : dom) {struct j} : created * dom :=
  match j with
  | JArray head attrs items =>
      if String.eqb head dollar_fragment then
        let '(l, d1) := createDocumentFragment_body createNode attrs items xmlns d in
        (Fragment l, d1)
      else if String.eqb head dollar_comment then
        let '(c, d1) := createComment attrs items d in (Single c, d1)
      else
        let '(e, d1) := createElement_body createNode head attrs items xmlns d in
        (Single e, d1)
  | JPrim _ =>
      let '(t, d1) := createTextNode (SlotNode j) d in (Single t, d1)
  end.

Definition createElement := createElement_body createNode.
Definition createDocumentFragment := createDocumentFragment_body createNode.

End Index1.

(** ** src/render.js *)
Module Render.
Import Index1.

(** [sameNodeName(jsonml, node)], over the [toLowerCase] method of
    strings, which is the platform's. *)
Definition sameNodeNameWith (lower : string -> string) (j : jsonml) (n : node) : bool :=
  if nsval_eqb (namespaceURI n) (Uri svgns) then
    String.eqb (nodeName n) (nodeNameOf j)
  else
    String.eqb (lower (nodeName n)) (lower (nodeNameOf j)).

(** [sameNodeName] on the names of the model, where the method is
    [toLowerCase]. *)
Definition sameNodeName (j : jsonml) (n : node) : bool :=
  sameNodeNameWith toLowerCase j n.

(** [new JsonMLDelimiter()]: a comment without data that carries [JsonMLSymbol]. *)
Definition newDelimiter (d : dom) : node * dom :=
  let '(id, d1) := fresh d in (Comment id "" true, d1).

(** [createDelimitedDocumentFragment(jsonml, xmlns)]; its loop starts at
    index 1 like the one of [createDocumentFragment]. *)
Definition createDelimitedDocumentFragment (attrs : option namedNodeMap)
  (items : list jsonml) (xmlns : nsval) (d : dom) : list node * dom :=
  let '(delimiter, d1) := newDelimiter d in
  match attrs with
  | Some m =>
      let '(t, d2) := createTextNode (SlotMap m) d1 in
      let '(kids, d3) := createEach (fun c => createNode c xmlns) items d2 in
      (delimiter :: t :: kids, d3)
  | None =>
      let '(kids, d2) := createEach (fun c => createNode c xmlns) items d1 in
      (delimiter :: kids, d2)
  end.

Definition createDelimitedNode (j : jsonml) (xmlns : nsval) (d : dom) : created * dom :=
  match j with
  | JArray head attrs items =>
      if isDocumentFragment j then
        let '(l, d1) := createDelimitedDocumentFragment attrs items xmlns d in
        (Fragment l, d1)
      else createNode j xmlns d
  | JPrim _ => createNode j xmlns d
  end.

(** [patchNode(jsonml, node)]: the nodes that stand where [node] stood.
    [nodeValueOf] is applied to the description itself. *)
Definition patchNode (j : jsonml) (n : node) (d : dom) : list node * dom :=
  if sameNodeName j n then
    let v := nodeValueOf (SlotNode j) in
    match nodeValue n with
    | Some s =>
        if String.eqb s v then ([n], d)
        else ([set_nodeValue v n], record (ValueWritten (node_id n) v) d)
    | None => ([set_nodeValue v n], record (ValueWritten (node_id n) v) d)
    end
  else
    let '(c, d1) := createDelimitedNode j (namespaceURI n) d in
    (nodes_of c, record (Replaced (node_id n) (map node_id (nodes_of c))) d1).

(** A patch applied to the child [id] of the walker's root. The code only
    patches nodes that are children of the root; on any other identity
    the child list stays as it is. *)
Definition patchAt (patch : node -> dom -> list node * dom) (id : nat)
  (w : treeWalker) (d : dom) : treeWalker * dom :=
  match find_node id (siblings w) with
  | Some n =>
      let '(r, d1) := patch n d in
      (set_siblings (replace_node id r (siblings w)) w, d1)
  | None => (w, d)
  end.

(** The body of [if (currentNode) { ... }], the same text in [patchElement]
    and in [patchDocumentFragment]: the value of [nextSibling] it ends with. *)
Definition patchChild
  (patchElement : jsonml -> node -> dom -> list node * dom)
  (patchDocumentFragment : jsonml -> nat -> treeWalker -> dom -> treeWalker * dom)
  (currentJsonML : jsonml) (cur : nat) (w : treeWalker) (d : dom)
  : option nat * treeWalker * dom :=
  let '(nextSibling, w1) := walker_nextSibling w in
  match currentJsonML with
  | JArray head _ _ =>
      if String.eqb head dollar_fragment then
        let '(w2, d2) := patchDocumentFragment currentJsonML cur w1 d in
        match nextSiblingOf (currentNode w2) (siblings w2) with
        | Some _ => (Some (currentNode w2), w2, d2)
        | None => (None, w2, d2)
        end
      else if String.eqb head dollar_comment then
        let '(w2, d2) := patchAt (patchNode currentJsonML) cur w1 d in
        (nextSibling, w2, d2)
      else
        let '(w2, d2) := patchAt (patchElement currentJsonML) cur w1 d in
        (nextSibling, w2, d2)
  | JPrim _ =>
      let '(w2, d2) := patchAt (patchNode currentJsonML) cur w1 d in
      (nextSibling, w2, d2)
  end.

(** The [for] loop of [patchElement] over the description's children. *)
Definition patchElementChildren
  (patchElement : jsonml -> node -> dom -> list node * dom)
  (patchDocumentFragment : jsonml -> nat -> treeWalker -> dom -> treeWalker * dom)
  : list jsonml -> option nat -> treeWalker -> dom -> option nat * treeWalker * dom :=
  fix loop (items : list jsonml) (cur : option nat) (w : treeWalker) (d : dom) {struct items} :=
    match items with
    | [] => (cur, w, d)
    | currentJsonML :: rest =>
        match cur with
        | Some c =>
            let '(next, w1, d1) :=
              patchChild patchElement patchDocumentFragment currentJsonML c w d in
            loop rest next w1 d1
        | None =>
            let '(n, d1) := createDelimitedNode currentJsonML (root_ns w) d in
            let '(w1, d2) := appendChild n w d1 in
            loop rest None w1 d2
        end
    end.

(** The [for] loop of [patchDocumentFragment]. When the live side is
    exhausted the node is created without a namespace argument, appended
    to the walker's root, and the walker is advanced ([nextnext] is
    written and never read). *)
Definition patchFragmentChildren
  (patchElement : jsonml -> node -> dom -> list node * dom)
  (patchDocumentFragment : jsonml -> nat -> treeWalker -> dom -> treeWalker * dom)
  : list jsonml -> option nat -> treeWalker -> dom -> option nat * treeWalker * dom :=
  fix loop (items : list jsonml) (cur : option nat) (w : treeWalker) (d : dom) {struct items} :=
    match items with
    | [] => (cur, w, d)
    | currentJsonML :: rest =>
        match cur with
        | Some c =>
            let '(next, w1, d1) :=
              patchChild patchElement patchDocumentFragment currentJsonML c w d in
            loop rest next w1 d1
        | None =>
            let '(n, d1) := createDelimitedNode currentJsonML Undefined d in
            let '(w1, d2) := appendChild n w d1 in
            let '(_, w2) := walker_nextSibling w1 in
            loop rest None w2 d2
        end
    end.

(** [while (currentNode) { ...; root.removeChild(currentNode); ... }].
    Each turn removes one child, so the number of children bounds the turns. *)
Fixpoint removeSiblings (turns : nat) (cur : option nat) (w : treeWalker) (d : dom)
  : treeWalker * dom :=
  match turns, cur with
  | S turns', Some c =>
      let nextSibling := nextSiblingOf c (siblings w) in
      removeSiblings turns' nextSibling
        (set_siblings (remove_node c (siblings w)) w)
        (record (Removed (root_id w) c) d)
  | _, _ => (w, d)
  end.

(** [patchElement(jsonml, root)] returns the nodes that stand where [root]
    stood: [root] itself with its children patched, or the element that
    replaced it. [patchDocumentFragment(jsonml, delimiter, treeWalker)]
    works on the walker it is given. A description that is not an array
    is no [JsonMLElement] and no [JsonMLDocumentFragment]; the callers in
    this file never pass one. A live text or comment node has no children
    and takes none ([appendChild] throws on it); its name matches no
    element name. *)
Fixpoint patchElement (j : jsonml) (root : node) (d : dom) {struct j} : list node * dom :=
  match j with
  | JArray head attrs items =>
      if sameNodeName j root then
        let w := mkWalker (node_id root) (namespaceURI root) (childNodes root) (node_id root) in
        match childNodes root with
        | first :: _ =>
            let w0 := mkWalker (root_id w) (root_ns w) (siblings w) (node_id first) in
            let '(cur, w1, d1) :=
              patchElementChildren patchElement patchDocumentFragment
                items (Some (node_id first)) w0 d in
            let '(w2, d2) := removeSiblings (length (siblings w1)) cur w1 d1 in
            ([set_childNodes (siblings w2) root], d2)
        | [] =>
            let '(l, d1) := createDocumentFragment attrs items (namespaceURI root) d in
            let '(w1, d2) := appendChild (Fragment l) w d1 in
            ([set_childNodes (siblings w1) root], d2)
        end
      else
        let '(e, d1) := createElement head attrs items Undefined d in
        ([e], record (Replaced (node_id root) [node_id e]) d1)
  | JPrim _ => ([root], d)
  end
with patchDocumentFragment (j : jsonml) (delimiter : nat) (w : treeWalker) (d : dom)
  {struct j} : treeWalker * dom :=
  match j with
  | JArray head attrs items =>
      match find_node delimiter (siblings w) with
      | Some n =>
          if isDelimiter n then
            let '(_, w1, d1) :=
              patchFragmentChildren patchElement patchDocumentFragment
                items (Some (currentNode w)) w d in
            (w1, d1)
          else
            let '(l, d1) := createDelimitedDocumentFragment attrs items Undefined d in
            (set_siblings (replace_node delimiter l (siblings w)) w,
             record (Replaced delimiter (map node_id l)) d1)
      | None => (w, d)
      end
  | JPrim _ => (w, d)
  end.

(** [render(jsonml, root)]: [patchElement([root.nodeName, jsonml], root)].
    The result is [root] after the call. *)
Definition render (j : jsonml) (root : node) (d : dom) : node * dom :=
  let '(r, d1) := patchElement (JArray (nodeName root) None [j]) root d in
  (hd root r, d1).

End Render.

(** ** The matcher's comparison, as the specification words it *)
Module Matcher.

(** Two characters are the same up to case when they are equal or one is
    the upper-case form of the other. *)
Definition same_letter (a b : ascii) : bool :=
  Ascii.eqb a b || Ascii.eqb (upper_ascii a) b || Ascii.eqb a (upper_ascii b).

Fixpoint equal_ignoring_case (s t : string) : bool :=
  match s, t with
  | EmptyString, EmptyString => true
  | String a s', String b t' => same_letter a b && equal_ignoring_case s' t'
  | _, _ => false
  end.

(** The name of a description: the first entry of an array, and the
    name of text nodes for anything else. *)
Definition description_name (j : jsonml) : string :=
  match j with
  | JArray head _ _ => head
  | JPrim _ => "#text"
  end.

(** The rule of the specification: exact comparison when the live node is
    in the SVG namespace, and otherwise the comparison [up_to_case],
    which is to tell whether two names are equal up to case. *)
Definition names_compare_equal (up_to_case : string -> string -> bool)
  (j : jsonml) (n : node) : bool :=
  match namespaceURI n with
  | Uri u =>
      if String.eqb u "http://www.w3.org/2000/svg" then
        String.eqb (nodeName n) (description_name j)
      else up_to_case (nodeName n) (description_name j)
  | _ => up_to_case (nodeName n) (description_name j)
  end.

(** A name written in ASCII: every character is below 128. On such
    names [String.prototype.toLowerCase] is [toLowerCase]. *)
Fixpoint ascii_only (s : string) : bool :=
  match s with
  | EmptyString => true
  | String c s' => (nat_of_ascii c <? 128)%nat && ascii_only s'
  end.

(** Where the rule is stated: the live node is in the SVG namespace, where
    names are compared as they are, or both names are written in ASCII. *)
Definition exact_or_ascii (j : jsonml) (n : node) : bool :=
  nsval_eqb (namespaceURI n) (Uri "http://www.w3.org/2000/svg")
  || (ascii_only (nodeName n) && ascii_only (description_name j)).

Definition all_ascii : list ascii := map ascii_of_nat (seq 0 256).

End Matcher.

(** ** Shapes, plain descriptions and well-formed live trees *)
Module Shape.

(** What is left of a live tree when identities, attributes, properties,
    namespaces and the delimiter mark are forgotten and names are taken
    up to case: node kinds, names, values and the child structure. *)
Inductive shape :=
| SText (data : string)
| SComment (data : string)
| SElement (name : string) (kids : list shape).

Fixpoint shape_of (n : node) : shape :=
  match n with
  | Text _ s => SText s
  | Comment _ s _ => SComment s
  | Element _ _ _ _ _ kids => SElement (toLowerCase (nodeName n)) (map shape_of kids)
  end.

(** Names of text, comment and fragment nodes begin with [#]; names of
    elements do not ([createElementNS] refuses them). *)
Definition starts_with_hash (s : string) : bool :=
  match s with
  | String c _ => Ascii.eqb c "#"
  | EmptyString => false
  end.

(** A plain description: texts, comments without data, and elements
    without an attribute map whose children are plain. No fragment. *)
Fixpoint plain (j : jsonml) : bool :=
  match j with
  | JPrim _ => true
  | JArray head attrs items =>
      if String.eqb head Index1.dollar_fragment then false
      else if String.eqb head Index1.dollar_comment then
        String.eqb (Index1.nodeValueOf (at1 attrs items)) ""
      else
        negb (starts_with_hash head)
        && match attrs with None => true | Some _ => false end
        && forallb plain items
  end.

(** The shape a plain description stands for. *)
Fixpoint shape_of_description (j : jsonml) : shape :=
  match j with
  | JPrim _ => SText (Index1.nodeValueOf (SlotNode j))
  | JArray head attrs items =>
      if String.eqb head Index1.dollar_comment then
        SComment (Index1.nodeValueOf (at1 attrs items))
      else SElement (toLowerCase head) (map shape_of_description items)
  end.

Fixpoint nodupb (l : list nat) : bool :=
  match l with
  | [] => true
  | x :: l' => negb (existsb (Nat.eqb x) l') && nodupb l'
  end.

(** A live tree of a document whose identities are below [bound]:
    siblings are distinct nodes and element names are element names. *)
Fixpoint well_formed (bound : nat) (n : node) : bool :=
  (node_id n <? bound)%nat
  && match n with
     | Element _ _ q _ _ kids =>
         negb (starts_with_hash q)
         && nodupb (map node_id kids)
         && forallb (well_formed bound) kids
     | _ => true
     end.

Definition ids (l : list node) : list nat := map node_id l.

Definition head_id (l : list node) : option nat :=
  match l with
  | [] => None
  | n :: _ => Some (node_id n)
  end.

(** The patch [patchChild] applies to a live child for a description
    that is not a fragment. *)
Definition patchOne (j : jsonml) : node -> dom -> list node * dom :=
  match j with
  | JArray head _ _ =>
      if String.eqb head Index1.dollar_comment then Render.patchNode j
      else Render.patchElement j
  | JPrim _ => Render.patchNode j
  end.

(** [f] holds of the two lists position by position, and they are
    equally long. *)
Definition all2 {A B : Type} (f : A -> B -> bool) : list A -> list B -> bool :=
  fix all2 (l : list A) (k : list B) {struct l} : bool :=
    match l, k with
    | [], [] => true
    | a :: l', b :: k' => f a b && all2 l' k'
    | _, _ => false
    end.

(** A live node is settled for a plain description when [patchNode] or
    [patchElement] finds nothing to do on it: a text with the stringified
    value, a comment without data, or an element of a matching name whose
    children are settled for the description's children, one for one. *)
Fixpoint settled (j : jsonml) (n : node) {struct j} : bool :=
  match j with
  | JPrim _ =>
      match n with
      | Text _ s => String.eqb s (Index1.nodeValueOf (SlotNode j))
      | _ => false
      end
  | JArray head attrs items =>
      if String.eqb head Index1.dollar_comment then
        match n with
        | Comment _ s _ => String.eqb s ""
        | _ => false
        end
      else
        match n with
        | Element _ _ _ _ _ kids => Render.sameNodeName j n && all2 settled items kids
        | _ => false
        end
  end.

(** What the factory gives for a plain description: one node, made now,
    well formed and settled for the description. *)
Definition built (j : jsonml) : Prop :=
  forall x d, exists n d',
    Index1.createNode j x d = (Single n, d')
    /\ node_id n = next_id d
    /\ next_id d < next_id d'
    /\ settled j n = true
    /\ well_formed (next_id d') n = true.

(** What the patch for a plain description leaves where a live child
    stood: one node, the child itself or a node made meanwhile, well
    formed and settled for the description. *)
Definition patched (j : jsonml) : Prop :=
  forall b n d,
    well_formed b n = true ->
    b <= next_id d ->
    exists n' d',
      patchOne j n d = ([n'], d')
      /\ (node_id n' = node_id n \/ next_id d <= node_id n')
      /\ next_id d <= next_id d'
      /\ settled j n' = true
      /\ well_formed (next_id d') n' = true.

(** The patch for a description finds nothing to do on a settled node. *)
Definition at_rest (j : jsonml) : Prop :=
  forall b n d,
    settled j n = true ->
    well_formed b n = true ->
    patchOne j n d = ([n], d).

(** Both patch functions leave the document's next identity where it
    was or further on. *)
Definition grows (j : jsonml) : Prop :=
  (forall n d, next_id d <= next_id (snd (Render.patchElement j n d)))
  /\ (forall id w d, next_id d <= next_id (snd (Render.patchDocumentFragment j id w d))).

(** A node that stands where [old] stood after a patch begun in document
    [d]: [old] itself, patched in place, or a node made since. *)
Definition same_or_new (d : dom) (old new : node) : Prop :=
  node_id new = node_id old \/ next_id d <= node_id new.

End Shape.
Import Shape.

(** ** Namespaces of the elements the factory builds *)
Module Namespaces.


(** The namespace argument once the default of [createElement] has been
    applied. *)
Definition given (x : nsval) : nsval :=
  match x with
  | Undefined => Uri htmlns
  | _ => x
  end.

(** No attribute map in the description has an [xmlns] entry that is a
    string or [null]. *)
Fixpoint inherits (j : jsonml) : bool :=
  match j with
  | JPrim _ => true
  | JArray _ attrs items =>
      match attrs with
      | Some m =>
          match Index.get_xmlns m with
          | Some (VPrim (PString _)) => false
          | Some (VPrim PNull) => false
          | _ => true
          end
      | None => true
      end
      && forallb inherits items
  end.

End Namespaces.
Import Namespaces.

(** The reserved heads, as the strings they are. *)
Ltac heads :=
  unfold Index1.isDocumentFragment, Index1.dollar_fragment, Index1.dollar_comment,
    Index.dollar_fragment, Index.dollar_comment in *.


(** ** Attributes and properties of the elements the factory builds

    The keys of an attribute map are taken to be names that
    [setAttribute] and [toggleAttribute] accept. What is said of the
    attributes and children of a built element is said for maps that ask
    for no property assignment, since a setter may change either. *)
Module Attributes.

Definition attributes_of (n : node) : list (string * string) :=
  match n with
  | Element _ _ _ a _ _ => a
  | _ => []
  end.

Definition properties_of (n : node) : list (string * value) :=
  match n with
  | Element _ _ _ _ p _ => p
  | _ => []
  end.

Definition namespace_of (n : node) : option string :=
  match n with
  | Element _ ns _ _ _ _ => ns
  | _ => None
  end.

(** The first entry stored under a name. *)
Fixpoint lookup {A} (k : string) (l : list (string * A)) : option A :=
  match l with
  | [] => None
  | (k', v) :: l' => if String.eqb k' k then Some v else lookup k l'
  end.

(** An element as it would be without its attributes. *)
Definition without_attributes (n : node) : node :=
  match n with
  | Element id ns q _ p kids => Element id ns q [] p kids
  | _ => n
  end.

(** [element.getAttribute(name)]: the name is lower-cased on an element
    of the HTML namespace. *)
Definition getAttribute (name : string) (n : node) : option string :=
  lookup (attr_name (namespace_of n) name) (attributes_of n).

(** The attribute a value of the map stands for: strings as they are,
    numbers and bigints stringified, [true] as the empty string, nothing
    for [false], [null], [undefined] and values of other types. *)
Definition attribute_value (v : value) : option string :=
  match v with
  | VPrim (PString s) => Some s
  | VPrim (PNumber n) => Some (String_of_Z n)
  | VPrim (PBigInt n) => Some (String_of_Z n)
  | VPrim (PBoolean true) => Some ""
  | _ => None
  end.

(** The attribute names the string keys of a map address on an element
    of namespace [ns], in key order. *)
Fixpoint attribute_names (ns : option string) (m : namedNodeMap) : list string :=
  match m with
  | [] => []
  | (KString k, _) :: m' => attr_name ns k :: attribute_names ns m'
  | (KSymbol _, _) :: m' => attribute_names ns m'
  end.

Fixpoint distinct (l : list string) : bool :=
  match l with
  | [] => true
  | x :: l' => negb (existsb (String.eqb x) l') && distinct l'
  end.

(** One attribute seen on its own: what a turn of the loop over the map
    does to the attribute [name] of an element of namespace [ns], whose
    value before the turn is [cur]. *)
Definition turn (ns : option string) (name : string) (cur : option string)
  (kv : key * value) : option string :=
  match kv with
  | (KString k, VPrim p) =>
      if String.eqb (attr_name ns k) name then
        match p with
        | PString s => Some s
        | PNumber n => Some (String_of_Z n)
        | PBigInt n => Some (String_of_Z n)
        | PBoolean true => Some (match cur with Some v => v | None => "" end)
        | PBoolean false => None
        | PNull => cur
        | PUndefined => cur
        end
      else cur
  | _ => cur
  end.

(** The property assignments a map asks for: one for each key that is
    a symbol with a description, under this description, in key order. *)
Fixpoint assignments (m : namedNodeMap) : list (string * value) :=
  match m with
  | [] => []
  | (KSymbol (Some s), v) :: m' => (s, v) :: assignments m'
  | _ :: m' => assignments m'
  end.

Definition assignments_of (attrs : option namedNodeMap) : list (string * value) :=
  match attrs with
  | Some m => assignments m
  | None => []
  end.

End Attributes.
Import Attributes.

(** ** Delimiters in a tree *)
Module Delimiters.

(** The identities of the [JsonMLDelimiter] comments of a tree, in
    document order. *)
Fixpoint delimiters (n : node) : list nat :=
  match n with
  | Comment id _ true => [id]
  | Comment _ _ false => []
  | Text _ _ => []
  | Element _ _ _ _ _ kids => flat_map delimiters kids
  end.

End Delimiters.
Import Delimiters.

(** ** Descriptions on which the two revisions of index.js can be compared *)
Module Revisions.

(** No fragment anywhere in the description. *)
Fixpoint fragment_free (j : jsonml) : bool :=
  match j with
  | JPrim _ => true
  | JArray head _ items =>
      negb (String.eqb head Index.dollar_fragment) && forallb fragment_free items
  end.

(** The namespace argument is absent or is the HTML namespace. *)
Definition html_default (x : nsval) : bool := nsval_eqb (given x) (Uri htmlns).

End Revisions.
Import Revisions.

(** ** Elements that outlive a patch *)
Module Survivors.

(** What an element is, its children apart: identity, namespace, name
    as created, attributes and properties. *)
Definition label : Type :=
  nat * option string * string * list (string * string) * list (string * value).

Definition label_id (e : label) : nat :=
  let '(id, _, _, _, _) := e in id.

(** The elements of a tree, in document order. *)
Fixpoint elements (n : node) : list label :=
  match n with
  | Element id ns q a p kids => (id, ns, q, a, p) :: flat_map elements kids
  | _ => []
  end.

(** Every element among [l] was made when the document was [d] or later. *)
Definition made_since (d : dom) (l : list node) : Prop :=
  Forall (fun e => next_id d <= label_id e) (flat_map elements l).

(** Every element among [after] is an element among [before] with the
    namespace, name, attributes and properties it had there, or was made
    when the document was [d] or later. *)
Definition kept_or_new (d : dom) (before after : list node) : Prop :=
  forall e, In e (flat_map elements after) ->
            In e (flat_map elements before) \/ next_id d <= label_id e.

(** Both patch functions keep or make. *)
Definition keeps (j : jsonml) : Prop :=
  (forall n d, kept_or_new d [n] (fst (Render.patchElement j n d)))
  /\ (forall id w d,
        kept_or_new d (siblings w) (siblings (fst (Render.patchDocumentFragment j id w d)))).

End Survivors.
Import Survivors.
(** ** Facts on names and case *)
Section CaseFacts.

Lemma in_all_ascii (c : ascii) : In c Matcher.all_ascii.
Proof.
  unfold Matcher.all_ascii. rewrite <- (ascii_nat_embedding c).
  apply in_map, in_seq. pose proof (nat_ascii_bounded c). lia.
Qed.

Lemma lower_same_letter_table :
  forallb (fun a => forallb (fun b =>
    Bool.eqb (Ascii.eqb (lower_ascii a) (lower_ascii b)) (Matcher.same_letter a b))
    Matcher.all_ascii) Matcher.all_ascii = true.
Proof. vm_compute. reflexivity. Qed.

Lemma lower_same_letter (a b : ascii) :
  Ascii.eqb (lower_ascii a) (lower_ascii b) = Matcher.same_letter a b.
Proof.
  pose proof lower_same_letter_table as T.
  rewrite forallb_forall in T. specialize (T a (in_all_ascii a)).
  rewrite forallb_forall in T. specialize (T b (in_all_ascii b)).
  now apply Bool.eqb_prop in T.
Qed.

Lemma toLowerCase_eqb (s t : string) :
  String.eqb (toLowerCase s) (toLowerCase t) = Matcher.equal_ignoring_case s t.
Proof.
  revert t. induction s as [|a s IH]; intros [|b t]; simpl; try reflexivity.
  rewrite lower_same_letter, IH. reflexivity.
Qed.

Lemma lower_upper_ascii (c : ascii) : lower_ascii (upper_ascii c) = lower_ascii c.
Proof. destruct c as [[] [] [] [] [] [] [] []]; reflexivity. Qed.

Lemma toLowerCase_toUpperCase (s : string) : toLowerCase (toUpperCase s) = toLowerCase s.
Proof. induction s as [|c s IH]; simpl; [reflexivity|]. now rewrite lower_upper_ascii, IH. Qed.

Lemma lower_hash (c : ascii) : Ascii.eqb (lower_ascii c) "#" = Ascii.eqb c "#".
Proof. destruct c as [[] [] [] [] [] [] [] []]; reflexivity. Qed.

Lemma upper_hash (c : ascii) : Ascii.eqb (upper_ascii c) "#" = Ascii.eqb c "#".
Proof. destruct c as [[] [] [] [] [] [] [] []]; reflexivity. Qed.

Lemma starts_with_hash_lower (s : string) :
  starts_with_hash (toLowerCase s) = starts_with_hash s.
Proof. destruct s; simpl; [reflexivity | apply lower_hash]. Qed.

Lemma starts_with_hash_upper (s : string) :
  starts_with_hash (toUpperCase s) = starts_with_hash s.
Proof. destruct s; simpl; [reflexivity | apply upper_hash]. Qed.

(** A live element never has the name of a text or comment node. *)
Lemma starts_with_hash_nodeName id ns q a p kids :
  starts_with_hash (nodeName (Element id ns q a p kids)) = starts_with_hash q.
Proof.
  simpl. destruct ns as [u|]; [|reflexivity].
  destruct (String.eqb u htmlns); [apply starts_with_hash_upper | reflexivity].
Qed.

Lemma eqb_hash_false (s t : string) :
  starts_with_hash s = false -> starts_with_hash t = true -> String.eqb s t = false.
Proof.
  intros Hs Ht. apply String.eqb_neq. intros ->. congruence.
Qed.

End CaseFacts.

(** ** Facts on sibling lists *)
Section Siblings.

Lemma nodupb_NoDup (l : list nat) : nodupb l = true -> NoDup l.
Proof.
  induction l as [|x l IH]; simpl; intros H; constructor;
    apply andb_prop in H as [Hx Hl].
  - intros Hin. apply negb_true_iff in Hx.
    assert (E : existsb (Nat.eqb x) l = true).
    { apply existsb_exists. exists x. split; [assumption | apply Nat.eqb_refl]. }
    congruence.
  - now apply IH.
Qed.

Lemma find_node_app (done rest : list node) (n : node) :
  ~ In (node_id n) (ids done) ->
  find_node (node_id n) (done ++ n :: rest) = Some n.
Proof.
  induction done as [|m done IH]; simpl; intros Hn.
  - now rewrite Nat.eqb_refl.
  - destruct (Nat.eqb_spec (node_id m) (node_id n)) as [E|_].
    + exfalso. apply Hn. now left.
    + apply IH. intros Hin. apply Hn. now right.
Qed.

Lemma nextSiblingOf_app (done rest : list node) (n : node) :
  ~ In (node_id n) (ids done) ->
  nextSiblingOf (node_id n) (done ++ n :: rest) = head_id rest.
Proof.
  induction done as [|m done IH]; simpl; intros Hn.
  - rewrite Nat.eqb_refl. now destruct rest.
  - destruct (Nat.eqb_spec (node_id m) (node_id n)) as [E|_].
    + exfalso. apply Hn. now left.
    + apply IH. intros Hin. apply Hn. now right.
Qed.

Lemma replace_node_app (done rest new : list node) (n : node) :
  ~ In (node_id n) (ids done) ->
  replace_node (node_id n) new (done ++ n :: rest) = done ++ new ++ rest.
Proof.
  induction done as [|m done IH]; simpl; intros Hn.
  - now rewrite Nat.eqb_refl.
  - destruct (Nat.eqb_spec (node_id m) (node_id n)) as [E|_].
    + exfalso. apply Hn. now left.
    + f_equal. apply IH. intros Hin. apply Hn. now right.
Qed.

Lemma remove_node_app (done rest : list node) (n : node) :
  ~ In (node_id n) (ids done) ->
  remove_node (node_id n) (done ++ n :: rest) = done ++ rest.
Proof.
  induction done as [|m done IH]; simpl; intros Hn.
  - now rewrite Nat.eqb_refl.
  - destruct (Nat.eqb_spec (node_id m) (node_id n)) as [E|_].
    + exfalso. apply Hn. now left.
    + f_equal. apply IH. intros Hin. apply Hn. now right.
Qed.

Lemma NoDup_ids_middle (done rest : list node) (n : node) :
  NoDup (ids (done ++ n :: rest)) -> ~ In (node_id n) (ids done).
Proof.
  unfold ids. rewrite map_app. simpl. intros H Hin.
  apply NoDup_remove_2 in H. apply H. apply in_or_app. now left.
Qed.

(** The trailing [while] loop removes the current node and everything
    after it, in order, when it is given turns enough. *)
Lemma removeSiblings_rest (rest done : list node) :
  forall turns w d,
    siblings w = done ++ rest ->
    NoDup (ids (done ++ rest)) ->
    length rest <= turns ->
    Render.removeSiblings turns (head_id rest) w d
    = (set_siblings done w,
       mkDom (next_id d) (journal d ++ map (Removed (root_id w)) (ids rest))).
Proof.
  induction rest as [|n rest IH]; intros turns w d Hw Hnd Hlen.
  - simpl. rewrite app_nil_r in Hw. rewrite app_nil_r.
    destruct turns; simpl; destruct w, d; simpl in *; now subst.
  - destruct turns as [|turns]; [simpl in Hlen; lia|].
    simpl. rewrite Hw.
    pose proof (NoDup_ids_middle _ _ _ Hnd) as Hn.
    rewrite nextSiblingOf_app, remove_node_app by assumption.
    rewrite IH.
    + unfold record. simpl. rewrite <- app_assoc. reflexivity.
    + reflexivity.
    + unfold ids in *. rewrite map_app in *. simpl in Hnd.
      now apply NoDup_remove_1 in Hnd.
    + simpl in Hlen. lia.
Qed.

End Siblings.

#[global] Arguments String.eqb : simpl never.
#[global] Arguments Render.patchElement : simpl never.
#[global] Arguments Render.patchDocumentFragment : simpl never.

(** ** Facts on the factory *)
Section Factory.

Lemma setEntry_element id ns q a p kids kv :
  exists a' p', Index.setEntry (Element id ns q a p kids) kv = Element id ns q a' p' kids.
Proof.
  destruct kv as [[k|[desc|]] [[s|n|n|b| |]|h]]; simpl; eauto.
  destruct b; simpl; [destruct (has_assoc _ a)|]; eauto.
Qed.

Lemma setEntries_element attrs id ns q a p kids :
  exists a' p', Index.setEntries attrs (Element id ns q a p kids) = Element id ns q a' p' kids.
Proof.
  destruct attrs as [m|]; simpl; [|eauto].
  revert a p. induction m as [|kv m IH]; intros a p; simpl; [eauto|].
  destruct (setEntry_element id ns q a p kids kv) as (a1 & p1 & ->). apply IH.
Qed.

(** [createElement] gives an element with a fresh identity, in the
    namespace it was handed unless the attribute map overrides it. *)
Lemma createElement_body_element create head attrs items xmlns d :
  exists a p kids d',
    Index.createElement_body create head attrs items xmlns d
    = (Element (next_id d)
         (element_ns (Index.override_xmlns attrs
            (match xmlns with Undefined => Uri htmlns | _ => xmlns end)))
         head a p kids, d').
Proof.
  unfold Index.createElement_body. simpl.
  destruct (setEntries_element attrs (next_id d)
              (element_ns (Index.override_xmlns attrs
                 (match xmlns with Undefined => Uri htmlns | _ => xmlns end)))
              head [] [] []) as (a & p & ->).
  destruct (Index.createEach _ items _) as [kids d']. simpl. eauto.
Qed.

(** [isNamedNodeMap(jsonml[1])] holds exactly when the array has an
    attribute map. *)
Lemma isNamedNodeMap_at1 attrs items :
  Index.isNamedNodeMap (at1 attrs items) = match attrs with Some _ => true | None => false end.
Proof. destruct attrs as [m|]; [reflexivity|]. now destruct items as [|[v|h a i] items]. Qed.

End Factory.

(** ** Facts on the matcher *)
Section MatcherFacts.

Lemma patchElement_eq head attrs items root d :
  Render.patchElement (JArray head attrs items) root d
  = if Render.sameNodeName (JArray head attrs items) root then
      let w := mkWalker (node_id root) (namespaceURI root) (childNodes root) (node_id root) in
      match childNodes root with
      | first :: _ =>
          let w0 := mkWalker (root_id w) (root_ns w) (siblings w) (node_id first) in
          let '(cur, w1, d1) :=
            Render.patchElementChildren Render.patchElement Render.patchDocumentFragment
              items (Some (node_id first)) w0 d in
          let '(w2, d2) := Render.removeSiblings (length (siblings w1)) cur w1 d1 in
          ([set_childNodes (siblings w2) root], d2)
      | [] =>
          let '(l, d1) := Index1.createDocumentFragment attrs items (namespaceURI root) d in
          let '(w1, d2) := appendChild (Fragment l) w d1 in
          ([set_childNodes (siblings w1) root], d2)
      end
    else
      let '(e, d1) := Index1.createElement head attrs items Undefined d in
      ([e], record (Replaced (node_id root) [node_id e]) d1).
Proof. reflexivity. Qed.

Lemma sameNodeName_names_compare_equal (j : jsonml) (n : node) :
  Render.sameNodeName j n = Matcher.names_compare_equal Matcher.equal_ignoring_case j n.
Proof.
  assert (N : Index1.nodeNameOf j = Matcher.description_name j) by now destruct j.
  unfold Render.sameNodeName, Render.sameNodeNameWith, Matcher.names_compare_equal. rewrite N.
  destruct (namespaceURI n) as [| |u]; simpl; try apply toLowerCase_eqb.
  change "http://www.w3.org/2000/svg" with svgns.
  destruct (String.eqb u svgns); [reflexivity | apply toLowerCase_eqb].
Qed.

(** [sameNodeName] looks at the name and the namespace of the live node only. *)
Lemma sameNodeName_set_childNodes j kids n :
  Render.sameNodeName j (set_childNodes kids n) = Render.sameNodeName j n.
Proof. destruct n; reflexivity. Qed.

Lemma sameNodeName_true_lower j n :
  Render.sameNodeName j n = true ->
  toLowerCase (nodeName n) = toLowerCase (Index1.nodeNameOf j).
Proof.
  unfold Render.sameNodeName, Render.sameNodeNameWith. destruct (nsval_eqb _ _); intros H;
    apply String.eqb_eq in H; congruence.
Qed.

Lemma eqb_hash_false' (s t : string) :
  starts_with_hash s = true -> starts_with_hash t = false -> String.eqb s t = false.
Proof. intros Hs Ht. apply String.eqb_neq. intros ->. congruence. Qed.

(** A description with the name of a text or comment node matches no
    live element. *)
Lemma sameNodeName_hash_element j id ns q a p kids :
  starts_with_hash (Index1.nodeNameOf j) = true ->
  starts_with_hash q = false ->
  Render.sameNodeName j (Element id ns q a p kids) = false.
Proof.
  intros Hj Hq. unfold Render.sameNodeName, Render.sameNodeNameWith. destruct (nsval_eqb _ _).
  - apply eqb_hash_false; [|assumption]. now rewrite starts_with_hash_nodeName.
  - apply eqb_hash_false.
    + now rewrite starts_with_hash_lower, starts_with_hash_nodeName.
    + now rewrite starts_with_hash_lower.
Qed.

(** An element description matches no live text and no live comment. *)
Lemma sameNodeName_element_leaf j n :
  starts_with_hash (Index1.nodeNameOf j) = false ->
  nodeValue n <> None ->
  Render.sameNodeName j n = false.
Proof.
  intros Hj Hv. destruct n as [id ns q a p kids|id s|id s m]; [now elim Hv| |];
    unfold Render.sameNodeName, Render.sameNodeNameWith; simpl;
    (apply eqb_hash_false'; [reflexivity | now rewrite starts_with_hash_lower]).
Qed.

End MatcherFacts.

(** C4. [sameNodeName] answers true exactly when the names compare equal
    under the rule of the specification, where the name of a description
    is its first entry when it is an array and [#text] when it is not:
    exact comparison for a live node of the SVG namespace, comparison up
    to case otherwise. For all names, and whatever the platform's
    [toLowerCase] is, two names are equal up to case when they are equal
    once lower-cased by it. For names written in ASCII this is the
    comparison character by character in which a letter equals its
    upper-case form. A text description matches every live text node, no
    comment and no element with an element name; a comment description
    matches every live comment, no text and no element with an element
    name; the values play no part. *)
Theorem sameNodeName_rule :
  (forall lower j n,
     Render.sameNodeNameWith lower j n
     = Matcher.names_compare_equal (fun s t => String.eqb (lower s) (lower t)) j n)
  /\ (forall j n,
        Matcher.exact_or_ascii j n = true ->
        (Render.sameNodeName j n = true
         <-> Matcher.names_compare_equal Matcher.equal_ignoring_case j n = true))
  /\ (forall v id s, Render.sameNodeName (JPrim v) (Text id s) = true)
  /\ (forall v id s m, Render.sameNodeName (JPrim v) (Comment id s m) = false)
  /\ (forall v id ns q a p kids,
        Render.sameNodeName (JPrim v) (Element id ns q a p kids)
        && negb (starts_with_hash q) = false)
  /\ (forall a i id s m,
        Render.sameNodeName (JArray "#comment" a i) (Comment id s m) = true)
  /\ (forall a i id s,
        Render.sameNodeName (JArray "#comment" a i) (Text id s) = false)
  /\ (forall a i id ns q a' p kids,
        Render.sameNodeName (JArray "#comment" a i) (Element id ns q a' p kids)
        && negb (starts_with_hash q) = false).
Proof.
  assert (E : forall j id ns q a p kids,
            starts_with_hash (Index1.nodeNameOf j) = true ->
            Render.sameNodeName j (Element id ns q a p kids)
            && negb (starts_with_hash q) = false).
  { intros j0 id ns q a p kids Hj. destruct (starts_with_hash q) eqn:Hq.
    - apply andb_false_r.
    - now rewrite sameNodeName_hash_element. }
  split.
  { intros lower j n.
    assert (N : Index1.nodeNameOf j = Matcher.description_name j) by now destruct j.
    unfold Render.sameNodeNameWith, Matcher.names_compare_equal. rewrite N.
    destruct (namespaceURI n) as [| |u]; reflexivity. }
  split; [intros j n _; now rewrite sameNodeName_names_compare_equal|].
  repeat split; intros; try reflexivity; now apply E.
Qed.

Lemma sameNodeName_rule_witness :
  Matcher.exact_or_ascii (JArray "tExtArea" None [])
    (Element 1 (Some htmlns) "textarea" [] [] []) = true
  /\ (Render.sameNodeName (JArray "tExtArea" None [])
        (Element 1 (Some htmlns) "textarea" [] [] []) = true
      <-> Matcher.names_compare_equal Matcher.equal_ignoring_case (JArray "tExtArea" None [])
            (Element 1 (Some htmlns) "textarea" [] [] []) = true).
Proof.
  split; [reflexivity|].
  apply (proj1 (proj2 sameNodeName_rule) (JArray "tExtArea" None [])
           (Element 1 (Some htmlns) "textarea" [] [] [])).
  reflexivity.
Defined.

(** C5. When the identity of the live node does not match an element
    description, [patchElement] puts in its place the element that
    [createElement] builds from the description, a node with a fresh
    identity, and the children of the old node play no part. *)
Theorem patchElement_mismatch_replaces head attrs items node d :
  Render.sameNodeName (JArray head attrs items) node = false ->
  exists e d1,
    Index1.createElement head attrs items Undefined d = (e, d1)
    /\ Render.patchElement (JArray head attrs items) node d
       = ([e], record (Replaced (node_id node) [node_id e]) d1)
    /\ node_id e = next_id d
    /\ forall kids,
         Render.patchElement (JArray head attrs items) (set_childNodes kids node) d
         = ([e], record (Replaced (node_id node) [node_id e]) d1).
Proof.
  intros Hm.
  destruct (createElement_body_element Index1.createNode head attrs items Undefined d)
    as (a & p & kids & d1 & E).
  eexists _, d1. split; [exact E|].
  assert (P : forall n, node_id n = node_id node ->
              Render.sameNodeName (JArray head attrs items) n = false ->
              Render.patchElement (JArray head attrs items) n d
              = ([Element (next_id d)
                    (element_ns (Index.override_xmlns attrs (Uri htmlns))) head a p kids],
                 record (Replaced (node_id node) [next_id d]) d1)).
  { intros n Hid Hn. rewrite patchElement_eq, Hn.
    unfold Index1.createElement, Index1.createElement_body. rewrite E. simpl.
    now rewrite Hid. }
  split; [now apply P|]. split; [reflexivity|].
  intros kids'. apply P.
  - now destruct node.
  - now rewrite sameNodeName_set_childNodes.
Qed.

Lemma patchElement_mismatch_replaces_witness :
  exists e d1,
    Index1.createElement "div" None [JPrim (PString "x")] Undefined (mkDom 3 []) = (e, d1)
    /\ Render.patchElement (JArray "div" None [JPrim (PString "x")])
         (Element 1 (Some htmlns) "span" [] [] [Text 2 "x"]) (mkDom 3 [])
       = ([e], record (Replaced 1 [node_id e]) d1)
    /\ node_id e = 3
    /\ forall kids,
         Render.patchElement (JArray "div" None [JPrim (PString "x")])
           (set_childNodes kids (Element 1 (Some htmlns) "span" [] [] [Text 2 "x"])) (mkDom 3 [])
         = ([e], record (Replaced 1 [node_id e]) d1).
Proof.
  apply (patchElement_mismatch_replaces "div" None [JPrim (PString "x")]
           (Element 1 (Some htmlns) "span" [] [] [Text 2 "x"]) (mkDom 3 [])).
  reflexivity.
Defined.

(** ** Facts on one step of the child loop *)
Section Step.


(** For a description that is not a fragment the step patches the
    current child where it stands and hands on its next sibling. *)
Lemma patchChild_at cj (done rest : list node) n w d :
  Index1.isDocumentFragment cj = false ->
  siblings w = done ++ n :: rest ->
  currentNode w = node_id n ->
  ~ In (node_id n) (ids done) ->
  Render.patchChild Render.patchElement Render.patchDocumentFragment cj (node_id n) w d
  = let '(r, d1) := patchOne cj n d in
    (head_id rest,
     mkWalker (root_id w) (root_ns w) (done ++ r ++ rest)
       (match rest with m :: _ => node_id m | [] => node_id n end),
     d1).
Proof.
  intros Hf Hw Hc Hn. destruct w as [ri rn sib cn]. simpl in *. subst sib cn.
  unfold Render.patchChild, walker_nextSibling. simpl.
  rewrite nextSiblingOf_app by assumption.
  assert (A : forall f cn,
    (let '(w2, d2) := Render.patchAt f (node_id n)
         (mkWalker ri rn (done ++ n :: rest) cn) d in
     (head_id rest, w2, d2))
    = (let '(r, d1) := f n d in
       (head_id rest, mkWalker ri rn (done ++ r ++ rest) cn, d1))).
  { intros f cn. unfold Render.patchAt. simpl.
    rewrite find_node_app by assumption. destruct (f n d) as [r d1].
    unfold set_siblings. simpl. now rewrite replace_node_app. }
  destruct cj as [v|head attrs items]; simpl in Hf |- *.
  - destruct rest as [|m rest']; simpl; apply A.
  - heads. rewrite Hf.
    destruct (String.eqb head "#comment");
      (destruct rest as [|m rest']; simpl; apply A).
Qed.

(** What stands where the child stood is one node: the child itself or
    a node made at this moment. *)
Lemma patchOne_single cj n d :
  Index1.isDocumentFragment cj = false ->
  exists n' d', patchOne cj n d = ([n'], d')
                /\ (node_id n' = node_id n \/ node_id n' = next_id d).
Proof.
  intros Hf.
  assert (N : exists n' d', Render.patchNode cj n d = ([n'], d')
                /\ (node_id n' = node_id n \/ node_id n' = next_id d)).
  { unfold Render.patchNode. destruct (Render.sameNodeName cj n).
    - destruct (nodeValue n) as [s|];
        [destruct (String.eqb s _)|]; eexists _, _; split; try reflexivity;
        left; destruct n; reflexivity.
    - destruct cj as [v|head attrs items]; simpl in Hf |- *.
      + eexists _, _; split; [reflexivity | now right].
      + heads. rewrite Hf. simpl. heads.
        destruct (String.eqb head "#comment").
        * eexists _, _; split; [reflexivity | now right].
        * destruct (createElement_body_element Index1.createNode head attrs items
                      (namespaceURI n) d) as (a & p & kids & d' & E).
          unfold Index1.createElement_body. rewrite E.
          eexists _, _; split; [reflexivity | now right]. }
  destruct cj as [v|head attrs items]; unfold patchOne; [exact N|].
  heads. destruct (String.eqb head "#comment"); [exact N|].
  rewrite patchElement_eq. destruct (Render.sameNodeName _ n).
  - simpl. destruct (childNodes n) as [|first others].
    + destruct (Index1.createDocumentFragment _ _ _ _) as [l d1]. simpl.
      eexists _, _; split; [reflexivity | left; destruct n; reflexivity].
    + destruct (Render.patchElementChildren _ _ _ _ _ _) as [[cur w1] d1].
      destruct (Render.removeSiblings _ _ _ _) as [w2 d2].
      eexists _, _; split; [reflexivity | left; destruct n; reflexivity].
  - destruct (createElement_body_element Index1.createNode head attrs items Undefined d)
      as (a & p & kids & d' & E).
    unfold Index1.createElement, Index1.createElement_body. rewrite E.
    eexists _, _; split; [reflexivity | now right].
Qed.

(** The wrapper [[root.nodeName, jsonml]] always matches [root]. *)
Lemma sameNodeName_self root attrs items :
  Render.sameNodeName (JArray (nodeName root) attrs items) root = true.
Proof.
  unfold Render.sameNodeName, Render.sameNodeNameWith. simpl.
  destruct (nsval_eqb _ _); apply String.eqb_refl.
Qed.

End Step.

(** C3 as stated fails: [render] reconciles the children of the live root
    against the description itself, taken as one child. With ['p', 'a']
    and an empty root the root receives the element [p]; reconciling
    against the children of the description would leave the text [a]. *)
Lemma render_takes_description_as_child :
  let root := Element 0 (Some htmlns) "div" [] [] [] in
  let description := JArray "p" None [JPrim (PString "a")] in
  childNodes (fst (Render.render description root (mkDom 1 [])))
  = [Element 1 (Some htmlns) "p" [] [] [Text 2 "a"]]
  /\ childNodes (hd root (fst (Render.patchElement
                   (JArray (nodeName root) None [JPrim (PString "a")]) root (mkDom 1 []))))
     = [Text 1 "a"]
  /\ childNodes (fst (Render.render description root (mkDom 1 [])))
     <> childNodes (hd root (fst (Render.patchElement
                   (JArray (nodeName root) None [JPrim (PString "a")]) root (mkDom 1 [])))).
Proof.
  split; [reflexivity | split; [reflexivity |]].
  intros H. vm_compute in H. discriminate H.
Qed.

(** C3, amended. [render] leaves the live root in place with its name,
    namespace, attributes and properties, and reconciles its children
    against the one-element sequence made of the description: an empty
    root receives the nodes built from the description, and otherwise a
    description that is not a fragment is patched onto the first child and
    every other child is removed. *)
Theorem render_keeps_root_and_patches_first_child j id ns q a p kids d :
  nodupb (ids kids) = true ->
  forallb (fun n => node_id n <? next_id d)%nat kids = true ->
  let root := Element id ns q a p kids in
  (exists kids' d', Render.render j root d = (Element id ns q a p kids', d'))
  /\ (kids = [] ->
      Render.render j root d
      = let '(c, d1) := Index1.createNode j (namespaceURI root) d in
        (Element id ns q a p (nodes_of c),
         match nodes_of c with
         | [] => d1
         | _ :: _ => record (Appended id (ids (nodes_of c))) d1
         end))
  /\ (forall first others,
        kids = first :: others ->
        Index1.isDocumentFragment j = false ->
        Render.render j root d
        = let '(r, d1) := patchOne j first d in
          (Element id ns q a p r,
           mkDom (next_id d1) (journal d1 ++ map (Removed id) (ids others)))).
Proof.
  intros Hnd Hlt root.
  apply nodupb_NoDup in Hnd.
  assert (Hlt' : Forall (fun n => node_id n < next_id d) kids).
  { apply Forall_forall. intros n Hin. rewrite forallb_forall in Hlt.
    now apply Nat.ltb_lt, Hlt. }
  clear Hlt. rename Hlt' into Hlt.
  assert (E : forall kids0, Render.render j (Element id ns q a p kids0) d
              = let '(r, d1) := Render.patchElement
                    (JArray (nodeName (Element id ns q a p kids0)) None [j])
                    (Element id ns q a p kids0) d in
                (hd (Element id ns q a p kids0) r, d1)) by reflexivity.
  split; [|split].
  - unfold root. rewrite E, patchElement_eq, sameNodeName_self.
    cbv zeta. change (childNodes (Element id ns q a p kids)) with kids.
    destruct kids as [|first others].
    + destruct (Index1.createDocumentFragment _ _ _ _) as [l d1]. simpl. eauto.
    + destruct (Render.patchElementChildren _ _ _ _ _ _) as [[cur w1] d1].
      destruct (Render.removeSiblings _ _ _ _) as [w2 d2]. simpl. eauto.
  - intros ->. unfold root. rewrite E, patchElement_eq, sameNodeName_self.
    cbv zeta. change (childNodes (Element id ns q a p [])) with (@nil node).
    unfold Index1.createDocumentFragment, Index1.createDocumentFragment_body,
      Index1.createEach, Index.createEach.
    destruct (Index1.createNode j _ d) as [c d1]. simpl.
    rewrite app_nil_r. now destruct (nodes_of c).
  - intros first others -> Hf. unfold root. rewrite E, patchElement_eq, sameNodeName_self.
    cbv zeta. change (childNodes (Element id ns q a p (first :: others)))
      with (first :: others).
    unfold Render.patchElementChildren.
    rewrite (patchChild_at j [] others first) by (auto; reflexivity).
    destruct (patchOne_single j first d Hf) as (n' & d1 & -> & Hid).
    cbn [app siblings root_id root_ns].
    rewrite (removeSiblings_rest others [n']).
    + reflexivity.
    + reflexivity.
    + unfold ids in *. simpl in *.
      inversion Hnd as [|? ? Hfirst Hothers]; subst.
      inversion Hlt as [|? ? _ Hbelow]; subst.
      constructor; [|assumption].
      destruct Hid as [-> | ->]; [assumption|].
      intros Hin. apply in_map_iff in Hin as (m & Hm & Hin).
      rewrite Forall_forall in Hbelow. specialize (Hbelow m Hin). lia.
    + simpl. lia.
Qed.

Lemma render_keeps_root_and_patches_first_child_witness :
  let root := Element 0 (Some htmlns) "div" [] [] [Text 1 "x"; Text 2 "y"] in
  (exists kids' d', Render.render (JPrim (PString "a")) root (mkDom 3 [])
                    = (Element 0 (Some htmlns) "div" [] [] kids', d'))
  /\ ([Text 1 "x"; Text 2 "y"] = [] ->
      Render.render (JPrim (PString "a")) root (mkDom 3 [])
      = let '(c, d1) := Index1.createNode (JPrim (PString "a")) (namespaceURI root) (mkDom 3 []) in
        (Element 0 (Some htmlns) "div" [] [] (nodes_of c),
         match nodes_of c with
         | [] => d1
         | _ :: _ => record (Appended 0 (ids (nodes_of c))) d1
         end))
  /\ (forall first others,
        [Text 1 "x"; Text 2 "y"] = first :: others ->
        Index1.isDocumentFragment (JPrim (PString "a")) = false ->
        Render.render (JPrim (PString "a")) root (mkDom 3 [])
        = let '(r, d1) := patchOne (JPrim (PString "a")) first (mkDom 3 []) in
          (Element 0 (Some htmlns) "div" [] [] r,
           mkDom (next_id d1) (journal d1 ++ map (Removed 0) (ids others)))).
Proof.
  apply (render_keeps_root_and_patches_first_child (JPrim (PString "a")) 0 (Some htmlns)
           "div" [] [] [Text 1 "x"; Text 2 "y"] (mkDom 3 [])).
  - reflexivity.
  - reflexivity.
Defined.

(** C10. The element [patchElement] puts in place of a mismatched live
    node is the one [createElement] builds from the description when it
    is handed no namespace, which is the one it builds when handed the
    HTML namespace: the namespace of the replaced node plays no part, and
    the element is in the HTML namespace unless the description's own
    attribute map gives another. The replacement path of [patchNode]
    hands the namespace of the old node to the factory: what it puts in
    place of the node is what [createDelimitedNode] builds with that
    namespace, an element of that namespace unless the attribute map
    gives another. *)
Theorem patchElement_replacement_namespace head attrs items node d :
  Render.sameNodeName (JArray head attrs items) node = false ->
  (exists e d1,
     Index1.createElement head attrs items (Uri htmlns) d = (e, d1)
     /\ Render.patchElement (JArray head attrs items) node d
        = ([e], record (Replaced (node_id node) [node_id e]) d1)
     /\ namespace_of e = element_ns (Index.override_xmlns attrs (Uri htmlns)))
  /\ (exists c d1,
        Render.createDelimitedNode (JArray head attrs items) (namespaceURI node) d = (c, d1)
        /\ Render.patchNode (JArray head attrs items) node d
           = (nodes_of c, record (Replaced (node_id node) (map node_id (nodes_of c))) d1)
        /\ (String.eqb head "#document-fragment" = false ->
            String.eqb head "#comment" = false ->
            exists e,
              c = Single e
              /\ namespace_of e
                 = element_ns (Index.override_xmlns attrs (given (namespaceURI node))))).
Proof.
  intros Hm. split.
  - destruct (createElement_body_element Index1.createNode head attrs items (Uri htmlns) d)
      as (a & p & kids & d' & E).
    unfold Index1.createElement, Index1.createElement_body. rewrite E.
    eexists _, _. split; [reflexivity|]. split; [|reflexivity].
    rewrite patchElement_eq, Hm.
    change (Index1.createElement head attrs items Undefined d)
      with (Index.createElement_body Index1.createNode head attrs items (Uri htmlns) d).
    now rewrite E.
  - unfold Render.patchNode. rewrite Hm.
    destruct (Render.createDelimitedNode (JArray head attrs items) (namespaceURI node) d)
      as [c d1] eqn:E.
    exists c, d1. split; [reflexivity|]. split; [reflexivity|].
    intros Hf Hc. revert E. unfold Render.createDelimitedNode. heads. rewrite Hf.
    simpl. heads. rewrite Hf, Hc.
    destruct (createElement_body_element Index1.createNode head attrs items
                (namespaceURI node) d) as (a & p & kids & d' & E).
    unfold Index1.createElement_body. rewrite E. intros [= <- <-].
    eexists. split; [reflexivity|]. reflexivity.
Qed.

Lemma patchElement_replacement_namespace_witness :
  let rect := Element 1 (Some svgns) "rect" [] [] [] in
  (exists e d1,
     Index1.createElement "circle" None [] (Uri htmlns) (mkDom 2 []) = (e, d1)
     /\ Render.patchElement (JArray "circle" None []) rect (mkDom 2 [])
        = ([e], record (Replaced (node_id rect) [node_id e]) d1)
     /\ namespace_of e = element_ns (Index.override_xmlns None (Uri htmlns)))
  /\ (exists c d1,
        Render.createDelimitedNode (JArray "circle" None []) (namespaceURI rect) (mkDom 2 [])
        = (c, d1)
        /\ Render.patchNode (JArray "circle" None []) rect (mkDom 2 [])
           = (nodes_of c, record (Replaced (node_id rect) (map node_id (nodes_of c))) d1)
        /\ (String.eqb "circle" "#document-fragment" = false ->
            String.eqb "circle" "#comment" = false ->
            exists e,
              c = Single e
              /\ namespace_of e
                 = element_ns (Index.override_xmlns None (given (namespaceURI rect))))).
Proof.
  apply (patchElement_replacement_namespace "circle" None []
           (Element 1 (Some svgns) "rect" [] [] []) (mkDom 2 [])).
  reflexivity.
Defined.

(** Value-write minimality for text. On a live text node [patchNode]
    leaves node and document as they are when the stringified value of the
    description is the node's value, and otherwise writes it, once, to
    that node. *)
Theorem patchNode_text_minimal :
  (forall v id s d,
     s = Index1.nodeValueOf (SlotNode (JPrim v)) ->
     Render.patchNode (JPrim v) (Text id s) d = ([Text id s], d))
  /\ (forall v id s d,
        s <> Index1.nodeValueOf (SlotNode (JPrim v)) ->
        Render.patchNode (JPrim v) (Text id s) d
        = ([Text id (Index1.nodeValueOf (SlotNode (JPrim v)))],
           mkDom (next_id d)
             (journal d ++ [ValueWritten id (Index1.nodeValueOf (SlotNode (JPrim v)))]))).
Proof.
  split; intros v id s d H; unfold Render.patchNode;
    change (Render.sameNodeName (JPrim v) (Text id s)) with true; cbv iota;
    cbn [nodeValue].
  - subst s. now rewrite String.eqb_refl.
  - apply String.eqb_neq in H. now rewrite H.
Qed.

(** C8 at a comment. The description [[$comment, 'hello']] stands for a
    comment with the data [hello], as [createComment] builds it; patched
    onto a live comment that already reads [hello], [patchNode] compares
    with [nodeValueOf] of the array, the empty string, and writes it. *)
Theorem patchNode_comment_writes_unchanged_value :
  let description := JArray "#comment" None [JPrim (PString "hello")] in
  fst (Index1.createComment None [JPrim (PString "hello")] (mkDom 2 []))
  = Comment 2 "hello" false
  /\ Render.sameNodeName description (Comment 1 "hello" false) = true
  /\ Render.patchNode description (Comment 1 "hello" false) (mkDom 2 [])
     = ([Comment 1 "" false], mkDom 2 [ValueWritten 1 ""]).
Proof. repeat split. Qed.

(** C2 at a fragment and at a comment. Rendering [[$fragment, 'a', 'b']]
    into an empty root and rendering it again: the second pass creates
    three nodes and replaces the first text. Rendering [[$comment, 'hi']]
    twice: the second pass writes the empty string over [hi]. *)
Theorem render_twice_mutates :
  let root := Element 0 (Some htmlns) "div" [] [] [] in
  let fragment := JArray "#document-fragment" None [JPrim (PString "a"); JPrim (PString "b")] in
  let comment := JArray "#comment" None [JPrim (PString "hi")] in
  (let '(root1, d1) := Render.render fragment root (mkDom 1 []) in
   let '(root2, d2) := Render.render fragment root1 d1 in
   childNodes root1 = [Text 1 "a"; Text 2 "b"]
   /\ childNodes root2 = [Comment 3 "" true; Text 4 "a"; Text 5 "b"; Text 2 "b"]
   /\ journal d2 = journal d1 ++ [Created 3; Created 4; Created 5; Replaced 1 [3; 4; 5]])
  /\ (let '(root1, d1) := Render.render comment root (mkDom 1 []) in
      let '(root2, d2) := Render.render comment root1 d1 in
      childNodes root1 = [Comment 1 "hi" false]
      /\ childNodes root2 = [Comment 1 "" false]
      /\ journal d2 = journal d1 ++ [ValueWritten 1 ""]).
Proof. repeat split. Qed.

(** C6 at an empty fragment. The live element has two children, the
    description one, a fragment without children. The first live child
    is replaced by a delimiter; the surplus second child stays, and nothing
    is removed. *)
Theorem surplus_child_after_fragment_stays :
  let live := Element 0 (Some htmlns) "div" [] [] [Text 1 "x"; Text 2 "y"] in
  let description := JArray "div" None [JArray "#document-fragment" None []] in
  Render.patchElement description live (mkDom 3 [])
  = ([Element 0 (Some htmlns) "div" [] [] [Comment 3 "" true; Text 2 "y"]],
     mkDom 4 [Created 3; Replaced 1 [3]]).
Proof. reflexivity. Qed.

(** C7 at an empty parent. A fragment rendered into a root without
    children is mounted by [createDocumentFragment], without a delimiter;
    the same fragment reached once the live children are exhausted is
    mounted by [createDelimitedNode], with one. *)
Theorem fragment_into_empty_parent_has_no_delimiter :
  let fragment := JArray "#document-fragment" None [JPrim (PString "a"); JPrim (PString "b")] in
  childNodes (fst (Render.render fragment (Element 0 (Some htmlns) "div" [] [] []) (mkDom 1 [])))
  = [Text 1 "a"; Text 2 "b"]
  /\ map childNodes (fst (Render.patchElement
       (JArray "div" None [JPrim (PString "x"); fragment])
       (Element 0 (Some htmlns) "div" [] [] [Text 1 "x"]) (mkDom 2 [])))
     = [[Text 1 "x"; Comment 2 "" true; Text 3 "a"; Text 4 "b"]].
Proof. repeat split. Qed.

(** C9 at a fragment, in src/index.js. [createNode] of that file calls
    [createDocumentFragment(jsonml)] without the namespace, so the
    [circle] below a fragment inside an SVG element is an HTML element;
    the other revision of index.js hands the namespace on. *)
Theorem fragment_drops_namespace :
  let description :=
    JArray "g" None [JArray "#document-fragment" None [JArray "circle" None []]] in
  fst (Index.createNode description (Uri svgns) (mkDom 0 []))
  = Single (Element 0 (Some svgns) "g" [] [] [Element 1 (Some htmlns) "circle" [] [] []])
  /\ fst (Index1.createNode description (Uri svgns) (mkDom 0 []))
     = Single (Element 0 (Some svgns) "g" [] [] [Element 1 (Some svgns) "circle" [] [] []]).
Proof. repeat split. Qed.

(** ** Well-formed live trees *)
Section WellFormed.

Lemma jsonml_induction (P : jsonml -> Prop) :
  (forall v, P (JPrim v)) ->
  (forall head attrs items, Forall P items -> P (JArray head attrs items)) ->
  forall j, P j.
Proof.
  intros Hp Ha. fix IH 1. intros [v|head attrs items]; [apply Hp | apply Ha].
  induction items as [|c items IHitems]; constructor; [apply IH | exact IHitems].
Qed.

Lemma node_induction (P : node -> Prop) :
  (forall id ns q a p kids, Forall P kids -> P (Element id ns q a p kids)) ->
  (forall id s, P (Text id s)) ->
  (forall id s m, P (Comment id s m)) ->
  forall n, P n.
Proof.
  intros He Ht Hc. fix IH 1. intros [id ns q a p kids|id s|id s m];
    [apply He | apply Ht | apply Hc].
  induction kids as [|k kids IHkids]; constructor; [apply IH | exact IHkids].
Qed.

Lemma NoDup_nodupb (l : list nat) : NoDup l -> nodupb l = true.
Proof.
  induction 1 as [|x l Hx _ IH]; simpl; [reflexivity|].
  rewrite IH, andb_true_r. apply negb_true_iff.
  destruct (existsb (Nat.eqb x) l) eqn:E; [|reflexivity].
  apply existsb_exists in E as (y & Hy & Exy). apply Nat.eqb_eq in Exy. now subst y.
Qed.

Lemma well_formed_id b n : well_formed b n = true -> node_id n < b.
Proof.
  destruct n; simpl; intros H; apply andb_prop in H as [H _];
    now apply Nat.ltb_lt in H.
Qed.

Lemma well_formed_element b id ns q a p kids :
  well_formed b (Element id ns q a p kids) = true <->
  id < b
  /\ starts_with_hash q = false
  /\ NoDup (ids kids)
  /\ Forall (fun k => well_formed b k = true) kids.
Proof.
  simpl. rewrite !andb_true_iff, Nat.ltb_lt, negb_true_iff, forallb_forall, Forall_forall.
  split.
  - intros (Hid & (Hq & Hnd) & Hk). repeat split; auto. now apply nodupb_NoDup.
  - intros (Hid & Hq & Hnd & Hk). repeat split; auto. now apply NoDup_nodupb.
Qed.

(** A tree of a document stays well formed as the document grows. *)
Lemma well_formed_mono b b' n :
  b <= b' -> well_formed b n = true -> well_formed b' n = true.
Proof.
  intros Hb. induction n as [id ns q a p kids IH|id s|id s m] using node_induction.
  - rewrite !well_formed_element. intros (Hid & Hq & Hnd & Hk).
    repeat split; auto; [lia|].
    rewrite Forall_forall in *. intros k Hin. apply IH; auto.
  - simpl. rewrite !andb_true_r, !Nat.ltb_lt. lia.
  - simpl. rewrite !andb_true_r, !Nat.ltb_lt. lia.
Qed.

Lemma Forall_well_formed_mono b b' (l : list node) :
  b <= b' ->
  Forall (fun n => well_formed b n = true) l ->
  Forall (fun n => well_formed b' n = true) l.
Proof.
  intros Hb H. eapply Forall_impl; [|exact H]. intros n. now apply well_formed_mono.
Qed.

End WellFormed.

(** ** Plain descriptions: what the factory builds *)
Section PlainFactory.

Lemma lower_nodeName_element id ns q a p kids :
  toLowerCase (nodeName (Element id ns q a p kids)) = toLowerCase q.
Proof.
  simpl. destruct ns as [u|]; [|reflexivity].
  destruct (String.eqb u htmlns); [apply toLowerCase_toUpperCase | reflexivity].
Qed.

(** An element matches the description it was created from, in whatever
    namespace it was created. *)
Lemma sameNodeName_created head attrs items id ns a p kids :
  Render.sameNodeName (JArray head attrs items) (Element id ns head a p kids) = true.
Proof.
  unfold Render.sameNodeName, Render.sameNodeNameWith.
  destruct (nsval_eqb _ _) eqn:E.
  - destruct ns as [u|]; [|discriminate]. simpl in E. apply String.eqb_eq in E. subst u.
    apply String.eqb_refl.
  - rewrite lower_nodeName_element. apply String.eqb_refl.
Qed.

Lemma plain_element head attrs items :
  String.eqb head "#document-fragment" = false ->
  String.eqb head "#comment" = false ->
  plain (JArray head attrs items) = true ->
  starts_with_hash head = false /\ attrs = None /\ forallb plain items = true.
Proof.
  intros Hf Hc. simpl. heads. rewrite Hf, Hc. intros H.
  apply andb_prop in H as [H Hi]. apply andb_prop in H as [Hh Ha].
  apply negb_true_iff in Hh. destruct attrs; [discriminate|]. auto.
Qed.

(** The nodes made for a list of plain descriptions: settled one for one,
    well formed, each with an identity of its own taken from now on. *)
Lemma createEach_plain items :
  Forall built items ->
  forall x d, exists l d',
    Index.createEach (fun c => Index1.createNode c x) items d = (l, d')
    /\ next_id d <= next_id d'
    /\ all2 settled items l = true
    /\ Forall (fun n => well_formed (next_id d') n = true) l
    /\ Forall (fun n => next_id d <= node_id n) l
    /\ NoDup (ids l).
Proof.
  induction 1 as [|c items Hc _ IH]; intros x d; simpl.
  - exists [], d. repeat split; auto; constructor.
  - destruct (Hc x d) as (n & d1 & -> & Hid & Hlt & Hs & Hwf).
    destruct (IH x d1) as (l & d2 & -> & Hle & Hl & Hwl & Hge & Hnd).
    exists (n :: l), d2. simpl. rewrite Hs, Hl. repeat split; auto.
    + lia.
    + constructor; [|assumption]. now apply (well_formed_mono (next_id d1)).
    + constructor; [lia|]. eapply Forall_impl; [|exact Hge]. simpl. intros. lia.
    + constructor; [|assumption]. intros Hin.
      apply in_map_iff in Hin as (m & E & Hin).
      rewrite Forall_forall in Hge. specialize (Hge m Hin). lia.
Qed.

Lemma createElement_without_attributes head items x d :
  Index1.createElement head None items x d
  = let x' := match x with Undefined => Uri htmlns | _ => x end in
    let '(kids, d') :=
      Index.createEach (fun c => Index1.createNode c x') items
        (mkDom (S (next_id d)) (journal d ++ [Created (next_id d)])) in
    (Element (next_id d) (element_ns x') head [] [] kids, d').
Proof.
  unfold Index1.createElement, Index1.createElement_body, Index.createElement_body.
  simpl. now destruct (Index.createEach _ items _).
Qed.

Lemma createElement_plain head items x d :
  starts_with_hash head = false ->
  Forall built items ->
  exists ns kids d',
    Index1.createElement head None items x d
    = (Element (next_id d) ns head [] [] kids, d')
    /\ next_id d < next_id d'
    /\ all2 settled items kids = true
    /\ well_formed (next_id d') (Element (next_id d) ns head [] [] kids) = true.
Proof.
  intros Hh Hb. rewrite createElement_without_attributes. cbv zeta.
  destruct (createEach_plain items Hb
              (match x with Undefined => Uri htmlns | _ => x end)
              (mkDom (S (next_id d)) (journal d ++ [Created (next_id d)])))
    as (l & d' & -> & Hle & Hl & Hwl & Hge & Hnd).
  cbn [next_id] in Hle. eexists _, l, d'.
  split; [reflexivity|]. split; [lia|]. split; [exact Hl|].
  apply well_formed_element. repeat split; auto; lia.
Qed.

Lemma createNode_plain j : plain j = true -> built j.
Proof.
  induction j as [v|head attrs items IH] using jsonml_induction; intros Hp x d.
  - eexists _, _. simpl. repeat split.
    + simpl. lia.
    + apply String.eqb_refl.
    + simpl. rewrite andb_true_r. apply Nat.ltb_lt. lia.
  - destruct (String.eqb head "#document-fragment") eqn:Hf;
      [simpl in Hp; heads; rewrite Hf in Hp; discriminate|].
    destruct (String.eqb head "#comment") eqn:Hc.
    + simpl in Hp. heads. rewrite Hf, Hc in Hp.
      simpl. heads. rewrite Hf, Hc. simpl.
      eexists _, _. repeat split.
      * simpl. lia.
      * exact Hp.
      * simpl. rewrite andb_true_r. apply Nat.ltb_lt. lia.
    + destruct (plain_element head attrs items Hf Hc Hp) as (Hh & -> & Hi).
      assert (Hb : Forall built items).
      { rewrite forallb_forall in Hi. rewrite Forall_forall in IH |- *.
        intros c Hin. apply IH; auto. }
      destruct (createElement_plain head items x d Hh Hb)
        as (ns & kids & d' & E & Hlt & Hk & Hwf).
      simpl. heads. rewrite Hf, Hc.
      unfold Index1.createElement in E. rewrite E.
      eexists _, _. split; [reflexivity|]. repeat split; [exact Hlt | | exact Hwf].
      rewrite sameNodeName_created. exact Hk.
Qed.

Lemma plain_items_built items : forallb plain items = true -> Forall built items.
Proof.
  intros H. apply Forall_forall. intros c Hin. apply createNode_plain.
  rewrite forallb_forall in H. now apply H.
Qed.

End PlainFactory.

(** ** Plain descriptions: what the patch leaves *)
Section PlainPatch.

Lemma plain_not_fragment j : plain j = true -> Index1.isDocumentFragment j = false.
Proof.
  destruct j as [v|head attrs items]; [reflexivity|]. simpl. heads.
  destruct (String.eqb head "#document-fragment"); [discriminate | reflexivity].
Qed.

Lemma createDelimitedNode_not_fragment j x d :
  Index1.isDocumentFragment j = false ->
  Render.createDelimitedNode j x d = Index1.createNode j x d.
Proof.
  destruct j as [v|head attrs items]; [reflexivity|].
  unfold Render.createDelimitedNode. now intros ->.
Qed.

(** Putting a node with the same or with an unused identity in the
    place of a sibling keeps the identities distinct. *)
Lemma NoDup_ids_replace (done rest : list node) n n' :
  NoDup (ids (done ++ n :: rest)) ->
  node_id n' = node_id n \/ ~ In (node_id n') (ids (done ++ n :: rest)) ->
  NoDup (ids ((done ++ [n']) ++ rest)).
Proof.
  unfold ids. rewrite <- app_assoc. simpl. rewrite !map_app. simpl.
  intros Hnd [E | Hn].
  - now rewrite E.
  - pose proof (NoDup_remove_1 _ _ _ Hnd) as H1.
    apply NoDup_Add with (a := node_id n') (l := map node_id done ++ map node_id rest).
    + apply Add_app.
    + split; [assumption|]. intros Hin. apply Hn.
      apply in_app_or in Hin as [Hin | Hin]; apply in_or_app; [now left | right; now right].
Qed.

Lemma NoDup_ids_snoc (l : list node) n bound :
  NoDup (ids l) ->
  Forall (fun m => node_id m < bound) l ->
  bound <= node_id n ->
  NoDup (ids (l ++ [n])).
Proof.
  unfold ids. rewrite map_app. simpl. intros Hnd Hlt Hn.
  apply NoDup_Add with (a := node_id n) (l := map node_id l ++ []).
  - apply Add_app.
  - rewrite app_nil_r. split; [assumption|].
    intros Hin. apply in_map_iff in Hin as (m & E & Hin).
    rewrite Forall_forall in Hlt. specialize (Hlt m Hin). lia.
Qed.

Lemma Forall_lt_mono (l : list node) a b :
  Forall (fun m => node_id m < a) l -> a <= b -> Forall (fun m => node_id m < b) l.
Proof. intros H Hab. eapply Forall_impl; [|exact H]. simpl. intros. lia. Qed.

Lemma patchElementChildren_cons c items cur w d :
  Render.patchElementChildren Render.patchElement Render.patchDocumentFragment
    (c :: items) cur w d
  = match cur with
    | Some n =>
        let '(next, w1, d1) :=
          Render.patchChild Render.patchElement Render.patchDocumentFragment c n w d in
        Render.patchElementChildren Render.patchElement Render.patchDocumentFragment
          items next w1 d1
    | None =>
        let '(n, d1) := Render.createDelimitedNode c (root_ns w) d in
        let '(w1, d2) := appendChild n w d1 in
        Render.patchElementChildren Render.patchElement Render.patchDocumentFragment
          items None w1 d2
    end.
Proof. reflexivity. Qed.

(** The [for] loop of [patchElement] over plain descriptions: it works
    position by position on the live children that are left, appends
    what the live side lacks, and stops at the first live child beyond
    the description. *)
Lemma patchElementChildren_plain items :
  Forall patched items ->
  forallb plain items = true ->
  forall rest done w d b,
    siblings w = done ++ rest ->
    (forall n rest', rest = n :: rest' -> currentNode w = node_id n) ->
    NoDup (ids (done ++ rest)) ->
    Forall (fun n => node_id n < next_id d) (done ++ rest) ->
    Forall (fun n => well_formed b n = true) rest ->
    b <= next_id d ->
    exists new w' d',
      Render.patchElementChildren Render.patchElement Render.patchDocumentFragment
        items (head_id rest) w d
      = (head_id (skipn (length items) rest), w', d')
      /\ siblings w' = done ++ new ++ skipn (length items) rest
      /\ root_id w' = root_id w
      /\ all2 settled items new = true
      /\ Forall (fun n => well_formed (next_id d') n = true) new
      /\ NoDup (ids (siblings w'))
      /\ next_id d <= next_id d'.
Proof.
  induction 1 as [|c items Hc _ IH]; intros Hpl rest done w d b Hw Hcur Hnd Hlt Hwf Hb.
  - exists [], w, d. simpl. rewrite Hw. repeat split; auto.
  - simpl in Hpl. apply andb_prop in Hpl as [Hpc Hpi].
    pose proof (plain_not_fragment c Hpc) as Hnf.
    rewrite patchElementChildren_cons.
    destruct rest as [|n rest'].
    + cbn [head_id].
      rewrite createDelimitedNode_not_fragment by assumption.
      destruct (createNode_plain c Hpc (root_ns w) d) as (m & d1 & -> & Hm & Hlt1 & Hs & Hwm).
      cbn [appendChild nodes_of map].
      rewrite app_nil_r in *.
      destruct (IH Hpi [] (done ++ [m])
                  (set_siblings (siblings w ++ [m]) w)
                  (record (Appended (root_id w) [node_id m]) d1) b)
        as (new & w' & d' & E & Hs' & Hr & Hsh & Hwn & Hnd' & Hle).
      * simpl. now rewrite Hw, app_nil_r.
      * intros ? ? [=].
      * rewrite app_nil_r. apply (NoDup_ids_snoc done m (next_id d)); auto. lia.
      * rewrite app_nil_r. apply Forall_app. split.
        -- apply (Forall_lt_mono done (next_id d)); auto. simpl. lia.
        -- constructor; [simpl; lia | constructor].
      * constructor.
      * simpl. lia.
      * change (head_id []) with (@None nat) in E.
        rewrite E. exists (m :: new), w', d'.
        rewrite skipn_nil in *. simpl in Hle.
        repeat split; auto.
        -- rewrite Hs', <- app_assoc. reflexivity.
        -- simpl. now rewrite Hs, Hsh.
        -- constructor; [|assumption]. now apply (well_formed_mono (next_id d1)).
        -- lia.
    + cbn [head_id].
      pose proof (NoDup_ids_middle _ _ _ Hnd) as Hn.
      rewrite (patchChild_at c done rest' n w d Hnf Hw (Hcur _ _ eq_refl) Hn).
      inversion Hwf as [|? ? Hwn Hwr]; subst.
      destruct (Hc b n d Hwn Hb) as (n' & d1 & -> & Hid & Hle1 & Hs & Hwn').
      pose proof (well_formed_id _ _ Hwn') as Hlt'.
      destruct (IH Hpi rest' (done ++ [n'])
                  (mkWalker (root_id w) (root_ns w) (done ++ [n'] ++ rest')
                     (match rest' with m :: _ => node_id m | [] => node_id n end))
                  d1 b)
        as (new & w' & d' & E & Hs' & Hr & Hsh & Hwnew & Hnd' & Hle).
      * simpl. now rewrite <- app_assoc.
      * intros ? ? ->. reflexivity.
      * apply NoDup_ids_replace with (n := n); [assumption|].
        destruct Hid as [Hid | Hid]; [now left | right].
        intros Hin. apply in_map_iff in Hin as (m & E & Hin).
        rewrite Forall_forall in Hlt. specialize (Hlt m Hin). lia.
      * rewrite <- app_assoc. simpl.
        apply Forall_app in Hlt as [Hd Hr]. inversion Hr; subst.
        apply Forall_app. split; [apply (Forall_lt_mono done (next_id d)); auto|].
        constructor; [assumption|]. apply (Forall_lt_mono rest' (next_id d)); auto.
      * assumption.
      * lia.
      * rewrite E. exists (n' :: new), w', d'. simpl in Hr |- *.
        repeat split; auto.
        -- rewrite Hs', <- app_assoc. reflexivity.
        -- now rewrite Hs, Hsh.
        -- constructor; [|assumption]. now apply (well_formed_mono (next_id d1)).
        -- lia.
Qed.

(** The children of a matching live element after the patch. *)
Lemma patchElement_matched_plain items head :
  Forall patched items ->
  forallb plain items = true ->
  forall b id ns q a p kids d,
    well_formed b (Element id ns q a p kids) = true ->
    b <= next_id d ->
    Render.sameNodeName (JArray head None items) (Element id ns q a p kids) = true ->
    exists kids' d',
      Render.patchElement (JArray head None items) (Element id ns q a p kids) d
      = ([Element id ns q a p kids'], d')
      /\ all2 settled items kids' = true
      /\ well_formed (next_id d') (Element id ns q a p kids') = true
      /\ next_id d <= next_id d'.
Proof.
  intros Hpa Hpl b id ns q a p kids d Hwf Hb Hm.
  apply well_formed_element in Hwf as (Hid & Hq & Hnd & Hk).
  rewrite patchElement_eq, Hm. cbv zeta.
  change (childNodes (Element id ns q a p kids)) with kids.
  destruct kids as [|first others].
  - unfold Index1.createDocumentFragment, Index1.createDocumentFragment_body.
    destruct (createEach_plain items (plain_items_built items Hpl)
                (namespaceURI (Element id ns q a p [])) d)
      as (l & d' & E & Hle & Hs & Hwl & Hge & Hndl).
    unfold Index1.createEach. rewrite E.
    assert (W : well_formed (next_id d') (Element id ns q a p l) = true)
      by (apply well_formed_element; repeat split; auto; lia).
    unfold appendChild. cbn [nodes_of siblings set_siblings set_childNodes app].
    destruct l as [|m l'].
    + eexists _, _. split; [reflexivity|]. repeat split; auto.
    + eexists _, _. split; [reflexivity|]. repeat split; auto.
  - destruct (patchElementChildren_plain items Hpa Hpl (first :: others) []
                (mkWalker id (namespaceURI (Element id ns q a p (first :: others)))
                   (first :: others) (node_id first)) d b)
      as (new & w' & d' & E & Hs' & Hr & Hsh & Hwn & Hnd' & Hle).
    + reflexivity.
    + intros ? ? [= <- _]. reflexivity.
    + exact Hnd.
    + eapply Forall_impl; [|exact Hk]. intros k Hwk. simpl.
      apply well_formed_id in Hwk. lia.
    + exact Hk.
    + exact Hb.
    + cbn [root_id root_ns siblings node_id childNodes]. cbn [head_id] in E. rewrite E.
      cbn [app] in Hs'.
      rewrite (removeSiblings_rest (skipn (length items) (first :: others)) new).
      * cbn [set_siblings siblings set_childNodes].
        eexists _, _. split; [reflexivity|]. cbn [next_id].
        split; [exact Hsh|]. split; [|exact Hle].
        apply well_formed_element. repeat split; auto; [lia|].
        rewrite Hs' in Hnd'. unfold ids in *. rewrite map_app in Hnd'.
        now apply NoDup_app_remove_r in Hnd'.
      * exact Hs'.
      * now rewrite <- Hs'.
      * rewrite Hs', length_app. lia.
Qed.

End PlainPatch.

(** ** Plain descriptions: convergence *)
Section PlainConvergence.

Lemma well_formed_text b id s : well_formed b (Text id s) = true <-> id < b.
Proof. simpl. now rewrite andb_true_r, Nat.ltb_lt. Qed.

Lemma well_formed_comment b id s m : well_formed b (Comment id s m) = true <-> id < b.
Proof. simpl. now rewrite andb_true_r, Nat.ltb_lt. Qed.

(** Every plain description is patched onto any well-formed live node
    with a settled, well-formed result. *)
Lemma patchOne_plain j : plain j = true -> patched j.
Proof.
  induction j as [v|head attrs items IH] using jsonml_induction; intros Hp b n d Hwf Hb.
  - (* text *)
    pose proof (well_formed_id b n Hwf) as Hid.
    unfold patchOne, Render.patchNode.
    destruct n as [id ns q a p kids|id s|id s m].
    + apply well_formed_element in Hwf as (_ & Hq & _ & _).
      rewrite sameNodeName_hash_element by (auto; reflexivity).
      eexists _, _. split; [reflexivity|]. cbn [node_id next_id fresh record fst snd].
      repeat split; auto; [apply String.eqb_refl | apply well_formed_text; lia].
    + change (Render.sameNodeName (JPrim v) (Text id s)) with true. cbv iota.
      cbn [nodeValue]. cbn [node_id] in Hid.
      destruct (String.eqb s (Index1.nodeValueOf (SlotNode (JPrim v)))) eqn:E;
        eexists _, _; (split; [reflexivity|]); cbn [node_id next_id record set_nodeValue];
        repeat split; auto; try (apply well_formed_text; lia).
      apply String.eqb_refl.
    + change (Render.sameNodeName (JPrim v) (Comment id s m)) with false. cbv iota.
      eexists _, _. split; [reflexivity|]. cbn [node_id next_id fresh record fst snd].
      repeat split; auto; [apply String.eqb_refl | apply well_formed_text; lia].
  - destruct (String.eqb head "#document-fragment") eqn:Hf;
      [simpl in Hp; heads; rewrite Hf in Hp; discriminate|].
    destruct (String.eqb head "#comment") eqn:Hc.
    + (* comment *)
      apply String.eqb_eq in Hc. subst head.
      assert (Hv : Index1.nodeValueOf (at1 attrs items) = "")
        by (apply String.eqb_eq; exact Hp).
      pose proof (well_formed_id b n Hwf) as Hid.
      change (patchOne (JArray "#comment" attrs items))
        with (Render.patchNode (JArray "#comment" attrs items)).
      unfold Render.patchNode.
      assert (S0 : forall id s m,
                settled (JArray "#comment" attrs items) (Comment id s m) = String.eqb s "")
        by reflexivity.
      assert (C0 : forall x,
                Render.createDelimitedNode (JArray "#comment" attrs items) x d
                = (Single (Comment (next_id d) "" false),
                   mkDom (S (next_id d)) (journal d ++ [Created (next_id d)]))).
      { intros x. change (Render.createDelimitedNode (JArray "#comment" attrs items) x d)
          with (Single (Comment (next_id d) (Index1.nodeValueOf (at1 attrs items)) false),
                mkDom (S (next_id d)) (journal d ++ [Created (next_id d)])).
        now rewrite Hv. }
      destruct n as [id ns q a p kids|id s|id s m].
      * apply well_formed_element in Hwf as (_ & Hq & _ & _).
        rewrite sameNodeName_hash_element by (auto; reflexivity).
        rewrite C0. eexists _, _. split; [reflexivity|].
        cbn [node_id next_id record nodes_of map]. rewrite S0.
        repeat split; auto; apply well_formed_comment; lia.
      * change (Render.sameNodeName (JArray "#comment" attrs items) (Text id s)) with false.
        cbv iota. rewrite C0. eexists _, _. split; [reflexivity|].
        cbn [node_id next_id record nodes_of map]. rewrite S0.
        repeat split; auto; apply well_formed_comment; lia.
      * change (Render.sameNodeName (JArray "#comment" attrs items) (Comment id s m))
          with true. cbv iota. cbn [nodeValue]. cbn [node_id] in Hid.
        change (Index1.nodeValueOf (SlotNode (JArray "#comment" attrs items))) with "".
        destruct (String.eqb s "") eqn:E;
          eexists _, _; (split; [reflexivity|]); cbn [node_id next_id record set_nodeValue];
          rewrite S0; repeat split; auto; try (apply well_formed_comment; lia).
    + (* element *)
      destruct (plain_element head attrs items Hf Hc Hp) as (Hh & -> & Hi).
      assert (Hpa : Forall patched items).
      { rewrite forallb_forall in Hi. rewrite Forall_forall in IH |- *.
        intros c Hin. apply IH; auto. }
      assert (S0 : forall id ns q a p kids,
                settled (JArray head None items) (Element id ns q a p kids)
                = Render.sameNodeName (JArray head None items) (Element id ns q a p kids)
                  && all2 settled items kids).
      { intros. simpl. heads. now rewrite Hc. }
      unfold patchOne. heads. rewrite Hc.
      destruct (Render.sameNodeName (JArray head None items) n) eqn:Hm.
      * destruct n as [id ns q a p kids|id s|id s m].
        -- destruct (patchElement_matched_plain items head Hpa Hi b id ns q a p kids d
                       Hwf Hb Hm) as (kids' & d' & -> & Hs & Hw' & Hle).
           eexists _, _. split; [reflexivity|]. cbn [node_id].
           repeat split; auto.
           rewrite S0, Hs, andb_true_r.
           now rewrite <- (sameNodeName_set_childNodes _ kids') in Hm.
        -- rewrite sameNodeName_element_leaf in Hm; [discriminate|exact Hh|discriminate].
        -- rewrite sameNodeName_element_leaf in Hm; [discriminate|exact Hh|discriminate].
      * rewrite patchElement_eq, Hm.
        destruct (createElement_plain head items Undefined d Hh (plain_items_built items Hi))
          as (ns' & kids' & d' & -> & Hlt & Hk & Hw').
        eexists _, _. split; [reflexivity|]. cbn [node_id next_id record].
        repeat split; auto; try lia.
        rewrite S0, Hk, andb_true_r. apply sameNodeName_created.
Qed.

(** The shape of a settled node is the shape of the description. *)
Lemma settled_shape j :
  plain j = true -> forall n, settled j n = true -> shape_of n = shape_of_description j.
Proof.
  induction j as [v|head attrs items IH] using jsonml_induction; intros Hp n Hs.
  - destruct n as [id ns q a p kids|id s|id s m]; try discriminate.
    simpl in Hs. apply String.eqb_eq in Hs. now subst s.
  - destruct (String.eqb head "#document-fragment") eqn:Hf;
      [simpl in Hp; heads; rewrite Hf in Hp; discriminate|].
    simpl in Hp, Hs |- *. heads. rewrite Hf in Hp.
    destruct (String.eqb head "#comment") eqn:Hc.
    + destruct n as [id ns q a p kids|id s|id s m]; try discriminate.
      apply String.eqb_eq in Hs, Hp. subst s. simpl. now rewrite Hp.
    + destruct n as [id ns q a p kids|id s|id s m]; try discriminate.
      apply andb_prop in Hs as [Hm Hk].
      apply andb_prop in Hp as [_ Hi].
      cbn [shape_of]. rewrite (sameNodeName_true_lower _ _ Hm). cbn [Index1.nodeNameOf Index.nodeNameOf].
      f_equal. clear Hm. revert kids Hk.
      induction items as [|c items IHi]; intros [|k kids] Hk; try discriminate; [reflexivity|].
      simpl in Hk, Hi |- *. apply andb_prop in Hk as [Hck Hk]. apply andb_prop in Hi as [Hpc Hi].
      inversion IH; subst. f_equal; auto.
Qed.

Lemma all2_settled_shape items kids :
  forallb plain items = true ->
  all2 settled items kids = true ->
  map shape_of kids = map shape_of_description items.
Proof.
  revert kids. induction items as [|c items IH]; intros [|k kids] Hp Hs; try discriminate;
    [reflexivity|].
  simpl in *. apply andb_prop in Hp as [Hpc Hp]. apply andb_prop in Hs as [Hsc Hs].
  f_equal; [now apply settled_shape | now apply IH].
Qed.

End PlainConvergence.

(** ** Plain descriptions: a settled tree is left alone *)
Section PlainRest.

Lemma removeSiblings_none turns w d : Render.removeSiblings turns None w d = (w, d).
Proof. now destruct turns. Qed.

(** Over settled children the loop patches nothing and ends with no
    live child left over. *)
Lemma patchElementChildren_at_rest items :
  Forall at_rest items ->
  forallb plain items = true ->
  forall rest done w d b,
    all2 settled items rest = true ->
    siblings w = done ++ rest ->
    (forall n rest', rest = n :: rest' -> currentNode w = node_id n) ->
    NoDup (ids (done ++ rest)) ->
    Forall (fun n => well_formed b n = true) rest ->
    exists w',
      Render.patchElementChildren Render.patchElement Render.patchDocumentFragment
        items (head_id rest) w d
      = (None, w', d)
      /\ siblings w' = siblings w
      /\ root_id w' = root_id w.
Proof.
  induction 1 as [|c items Hc _ IH]; intros Hpl rest done w d b Hs Hw Hcur Hnd Hwf.
  - destruct rest; [|discriminate]. exists w. auto.
  - destruct rest as [|n rest']; [discriminate|].
    simpl in Hpl, Hs. apply andb_prop in Hpl as [Hpc Hpi]. apply andb_prop in Hs as [Hsn Hs].
    inversion Hwf as [|? ? Hwn Hwr]; subst.
    rewrite patchElementChildren_cons. cbn [head_id].
    rewrite (patchChild_at c done rest' n w d (plain_not_fragment c Hpc) Hw
               (Hcur _ _ eq_refl) (NoDup_ids_middle _ _ _ Hnd)).
    rewrite (Hc b n d Hsn Hwn).
    destruct (IH Hpi rest' (done ++ [n])
                (mkWalker (root_id w) (root_ns w) (done ++ [n] ++ rest')
                   (match rest' with m :: _ => node_id m | [] => node_id n end))
                d b Hs) as (w' & E & Hs' & Hr).
    + simpl. now rewrite <- app_assoc.
    + intros ? ? ->. reflexivity.
    + now rewrite <- app_assoc.
    + assumption.
    + exists w'. rewrite E. simpl in Hs', Hr. rewrite Hs', Hw. auto.
Qed.

Lemma patchElement_at_rest items head :
  Forall at_rest items ->
  forallb plain items = true ->
  forall b id ns q a p kids d,
    well_formed b (Element id ns q a p kids) = true ->
    Render.sameNodeName (JArray head None items) (Element id ns q a p kids) = true ->
    all2 settled items kids = true ->
    Render.patchElement (JArray head None items) (Element id ns q a p kids) d
    = ([Element id ns q a p kids], d).
Proof.
  intros Har Hpl b id ns q a p kids d Hwf Hm Hs.
  apply well_formed_element in Hwf as (Hid & Hq & Hnd & Hk).
  rewrite patchElement_eq, Hm. cbv zeta.
  change (childNodes (Element id ns q a p kids)) with kids.
  destruct kids as [|first others].
  - destruct items; [reflexivity | discriminate].
  - destruct (patchElementChildren_at_rest items Har Hpl (first :: others) []
                (mkWalker id (namespaceURI (Element id ns q a p (first :: others)))
                   (first :: others) (node_id first)) d b Hs)
      as (w' & E & Hs' & Hr); auto.
    + intros ? ? [= <- _]. reflexivity.
    + cbn [root_id root_ns siblings node_id childNodes]. cbn [head_id] in E. rewrite E.
      rewrite removeSiblings_none. cbn [siblings] in Hs'. now rewrite Hs'.
Qed.

Lemma patchOne_at_rest j : plain j = true -> at_rest j.
Proof.
  induction j as [v|head attrs items IH] using jsonml_induction; intros Hp b n d Hs Hwf.
  - destruct n as [id ns q a p kids|id s|id s m]; try discriminate.
    change (settled (JPrim v) (Text id s))
      with (String.eqb s (Index1.nodeValueOf (SlotNode (JPrim v)))) in Hs.
    unfold patchOne, Render.patchNode.
    change (Render.sameNodeName (JPrim v) (Text id s)) with true. cbv iota.
    cbn [nodeValue]. now rewrite Hs.
  - destruct (String.eqb head "#document-fragment") eqn:Hf;
      [simpl in Hp; heads; rewrite Hf in Hp; discriminate|].
    destruct (String.eqb head "#comment") eqn:Hc.
    + apply String.eqb_eq in Hc. subst head.
      destruct n as [id ns q a p kids|id s|id s m]; try discriminate.
      change (settled (JArray "#comment" attrs items) (Comment id s m))
        with (String.eqb s "") in Hs.
      change (patchOne (JArray "#comment" attrs items))
        with (Render.patchNode (JArray "#comment" attrs items)).
      unfold Render.patchNode.
      change (Render.sameNodeName (JArray "#comment" attrs items) (Comment id s m)) with true.
      cbv iota. cbn [nodeValue].
      change (Index1.nodeValueOf (SlotNode (JArray "#comment" attrs items))) with "".
      now rewrite Hs.
    + destruct (plain_element head attrs items Hf Hc Hp) as (Hh & -> & Hi).
      assert (Har : Forall at_rest items).
      { rewrite forallb_forall in Hi. rewrite Forall_forall in IH |- *.
        intros c Hin. apply IH; auto. }
      destruct n as [id ns q a p kids|id s|id s m];
        try (simpl in Hs; heads; rewrite Hc in Hs; discriminate).
      simpl in Hs. heads. rewrite Hc in Hs. apply andb_prop in Hs as [Hm Hk].
      unfold patchOne. heads. rewrite Hc.
      now apply (patchElement_at_rest items head Har Hi b).
Qed.

End PlainRest.

(** ** The two revisions of the factory on plain descriptions *)
Section Revisions.

Lemma createEach_ext (f g : jsonml -> dom -> created * dom) items :
  Forall (fun c => forall d, f c d = g c d) items ->
  forall d, Index.createEach f items d = Index.createEach g items d.
Proof.
  induction 1 as [|c items Hc _ IH]; intros d; simpl; [reflexivity|].
  rewrite Hc. destruct (g c d) as [r d1]. now rewrite IH.
Qed.

(** Without fragments the revisions build the same nodes. *)
Lemma createNode_revisions_agree j :
  plain j = true ->
  forall x d, Index.createNode j x d = Index1.createNode j x d.
Proof.
  induction j as [v|head attrs items IH] using jsonml_induction; intros Hp x d;
    [reflexivity|].
  destruct (String.eqb head "#document-fragment") eqn:Hf;
    [simpl in Hp; heads; rewrite Hf in Hp; discriminate|].
  destruct (String.eqb head "#comment") eqn:Hc.
  - simpl. heads. now rewrite Hf, Hc.
  - destruct (plain_element head attrs items Hf Hc Hp) as (Hh & -> & Hi).
    simpl. heads. rewrite Hf, Hc.
    unfold Index1.createElement_body, Index.createElement_body. simpl.
    rewrite (createEach_ext
               (fun c => Index.createNode c (match x with Undefined => Uri htmlns | _ => x end))
               (fun c => Index1.createNode c (match x with Undefined => Uri htmlns | _ => x end))).
    + reflexivity.
    + rewrite forallb_forall in Hi. rewrite Forall_forall in IH |- *.
      intros c Hin d0. apply IH; auto.
Qed.

End Revisions.

(** C1 as stated fails, on four counts. (1) A fragment patched onto live
    children leaves a delimiter and a stale text behind. (2) A comment
    description patched onto a live comment empties it. (3) An element
    with an attribute map patched onto a matching empty element gets a
    text node made of the map. (4) A live SVG element [a] matches the
    description [['a']] and stays, while [createNode] of the description
    builds the HTML element [A]. *)
Lemma render_does_not_converge :
  let text s := JPrim (PString s) in
  let div kids := Element 0 (Some htmlns) "div" [] [] kids in
  let rendered j root d := childNodes (fst (Render.render j root d)) in
  let made j := nodes_of (fst (Index1.createNode j Undefined (mkDom 0 []))) in
  (let j := JArray "#document-fragment" None [text "a"; text "b"] in
   map shape_of (rendered j (div [Text 1 "x"; Text 2 "y"]) (mkDom 3 []))
   = [SComment ""; SText "a"; SText "b"; SText "y"]
   /\ map shape_of (made j) = [SText "a"; SText "b"])
  /\ (let j := JArray "#comment" None [text "hi"] in
      map shape_of (rendered j (div [Comment 1 "x" false]) (mkDom 2 [])) = [SComment ""]
      /\ map shape_of (made j) = [SComment "hi"])
  /\ (let j := JArray "div" (Some [(KString "class", VPrim (PString "k"))]) [text "hello"] in
      map shape_of (rendered j (div [Element 1 (Some htmlns) "div" [] [] []]) (mkDom 2 []))
      = [SElement "div" [SText ""; SText "hello"]]
      /\ map shape_of (made j) = [SElement "div" [SText "hello"]])
  /\ (let j := JArray "a" None [] in
      map nodeName (rendered j (div [Element 1 (Some svgns) "a" [] [] []]) (mkDom 2 []))
      = ["a"]
      /\ map nodeName (made j) = ["A"]).
Proof. repeat split. Qed.

(** What [render] leaves for a plain description: the root with settled,
    well-formed children, one per description. *)
Lemma render_plain j id ns q a p kids d :
  plain j = true ->
  well_formed (next_id d) (Element id ns q a p kids) = true ->
  exists kids' d',
    Render.render j (Element id ns q a p kids) d = (Element id ns q a p kids', d')
    /\ all2 settled [j] kids' = true
    /\ well_formed (next_id d') (Element id ns q a p kids') = true.
Proof.
  intros Hp Hwf.
  assert (Hpa : Forall patched [j]) by (constructor; [now apply patchOne_plain | constructor]).
  assert (Hpl : forallb plain [j] = true) by (simpl; now rewrite Hp).
  destruct (patchElement_matched_plain [j] (nodeName (Element id ns q a p kids)) Hpa Hpl
              (next_id d) id ns q a p kids d Hwf (Nat.le_refl _)
              (sameNodeName_self _ None [j])) as (kids' & d' & E & Hs & Hw' & _).
  exists kids', d'. unfold Render.render. rewrite E. auto.
Qed.

(** C1, amended. For a plain description (texts, comments without data,
    elements without an attribute map, no fragment) and a well-formed
    live root element, [render] keeps the root and leaves it with children
    of the shape of the nodes [createNode] builds from the description, in
    either revision of the factory: the same kinds of nodes, the same
    names up to case, the same values and the same child structure. *)
Theorem render_converges_on_plain j id ns q a p kids d :
  plain j = true ->
  well_formed (next_id d) (Element id ns q a p kids) = true ->
  exists kids' d',
    Render.render j (Element id ns q a p kids) d = (Element id ns q a p kids', d')
    /\ (forall x d0,
          map shape_of kids' = map shape_of (nodes_of (fst (Index1.createNode j x d0))))
    /\ (forall x d0,
          map shape_of kids' = map shape_of (nodes_of (fst (Index.createNode j x d0)))).
Proof.
  intros Hp Hwf.
  destruct (render_plain j id ns q a p kids d Hp Hwf) as (kids' & d' & E & Hs & _).
  exists kids', d'. split; [exact E|].
  assert (Hpl : forallb plain [j] = true) by (simpl; now rewrite Hp).
  assert (S1 : forall x d0,
            map shape_of kids' = map shape_of (nodes_of (fst (Index1.createNode j x d0)))).
  { intros x d0. destruct (createNode_plain j Hp x d0) as (n & d1 & -> & _ & _ & Hn & _).
    rewrite (all2_settled_shape [j] kids' Hpl Hs). simpl.
    now rewrite (settled_shape j Hp n Hn). }
  split; [exact S1|].
  intros x d0. rewrite createNode_revisions_agree by assumption. apply S1.
Qed.

Lemma render_converges_on_plain_witness :
  let j := JArray "ul" None
             [JArray "li" None [JPrim (PString "one")]; JArray "#comment" None [];
              JPrim (PNumber 2)] in
  let kids := [Element 1 (Some htmlns) "ul" [("class", "k")] []
                 [Text 2 "stale"; Element 3 (Some htmlns) "li" [] [] []];
               Text 4 "surplus"] in
  exists kids' d',
    Render.render j (Element 0 (Some htmlns) "div" [] [] kids) (mkDom 5 [])
    = (Element 0 (Some htmlns) "div" [] [] kids', d')
    /\ (forall x d0,
          map shape_of kids' = map shape_of (nodes_of (fst (Index1.createNode j x d0))))
    /\ (forall x d0,
          map shape_of kids' = map shape_of (nodes_of (fst (Index.createNode j x d0)))).
Proof.
  apply (render_converges_on_plain
           (JArray "ul" None
              [JArray "li" None [JPrim (PString "one")]; JArray "#comment" None [];
               JPrim (PNumber 2)])
           0 (Some htmlns) "div" [] []
           [Element 1 (Some htmlns) "ul" [("class", "k")] []
              [Text 2 "stale"; Element 3 (Some htmlns) "li" [] [] []];
            Text 4 "surplus"]
           (mkDom 5 [])).
  - reflexivity.
  - reflexivity.
Defined.

(** On plain descriptions [render] is idempotent: a second call with the
    same description returns the root and the document of the first, so
    it creates, removes and replaces no node and writes no value. *)
Theorem render_idempotent_on_plain j id ns q a p kids d :
  plain j = true ->
  well_formed (next_id d) (Element id ns q a p kids) = true ->
  let '(root1, d1) := Render.render j (Element id ns q a p kids) d in
  Render.render j root1 d1 = (root1, d1).
Proof.
  intros Hp Hwf.
  destruct (render_plain j id ns q a p kids d Hp Hwf) as (kids' & d' & -> & Hs & Hw').
  assert (Har : Forall at_rest [j]) by (constructor; [now apply patchOne_at_rest | constructor]).
  assert (Hpl : forallb plain [j] = true) by (simpl; now rewrite Hp).
  unfold Render.render.
  rewrite (patchElement_at_rest [j] (nodeName (Element id ns q a p kids')) Har Hpl
             (next_id d') id ns q a p kids' d' Hw' (sameNodeName_self _ None [j]) Hs).
  reflexivity.
Qed.

Lemma render_idempotent_on_plain_witness :
  let j := JArray "ul" None
             [JArray "li" None [JPrim (PString "one")]; JArray "#comment" None [];
              JPrim (PNumber 2)] in
  let kids := [Element 1 (Some htmlns) "ul" [("class", "k")] []
                 [Text 2 "stale"; Element 3 (Some htmlns) "li" [] [] []];
               Text 4 "surplus"] in
  let '(root1, d1) :=
    Render.render j (Element 0 (Some htmlns) "div" [] [] kids) (mkDom 5 []) in
  Render.render j root1 d1 = (root1, d1).
Proof.
  apply (render_idempotent_on_plain
           (JArray "ul" None
              [JArray "li" None [JPrim (PString "one")]; JArray "#comment" None [];
               JPrim (PNumber 2)])
           0 (Some htmlns) "div" [] []
           [Element 1 (Some htmlns) "ul" [("class", "k")] []
              [Text 2 "stale"; Element 3 (Some htmlns) "li" [] [] []];
            Text 4 "surplus"]
           (mkDom 5 [])).
  - reflexivity.
  - reflexivity.
Defined.

(** ** Namespaces in the revision of the factory that hands [xmlns] on *)
Section NamespaceFacts.

Lemma createElement_body_children create head attrs items x d :
  exists a p,
    Index.createElement_body create head attrs items x d
    = let x' := Index.override_xmlns attrs (given x) in
      let '(kids, d') :=
        Index.createEach (fun c => create c x') items
          (mkDom (S (next_id d)) (journal d ++ [Created (next_id d)])) in
      (Element (next_id d) (element_ns x') head a p kids, d').
Proof.
  unfold Index.createElement_body, given. simpl.
  destruct (setEntries_element attrs (next_id d)
              (element_ns (Index.override_xmlns attrs
                 (match x with Undefined => Uri htmlns | _ => x end)))
              head [] [] []) as (a & p & ->).
  exists a, p. now destruct (Index.createEach _ items _).
Qed.

Lemma given_given x : given (given x) = given x.
Proof. now destruct x. Qed.

Lemma inherits_override attrs items head x :
  inherits (JArray head attrs items) = true -> Index.override_xmlns attrs x = x.
Proof.
  simpl. intros H. apply andb_prop in H as [H _]. destruct attrs as [m|]; [|reflexivity].
  simpl. destruct (Index.get_xmlns m) as [[[s|n|n|b| |]|h]|]; try reflexivity; discriminate.
Qed.



End NamespaceFacts.



(** ** The document only grows *)
Section Grows.

Lemma createEach_grows (create : jsonml -> dom -> created * dom) items :
  Forall (fun c => forall d, next_id d <= next_id (snd (create c d))) items ->
  forall d, next_id d <= next_id (snd (Index.createEach create items d)).
Proof.
  induction 1 as [|c items Hc _ IH]; intros d; simpl; [lia|].
  specialize (Hc d). destruct (create c d) as [r d1]. specialize (IH d1).
  destruct (Index.createEach create items d1) as [rs d2]. simpl in *. lia.
Qed.

Lemma createElement_body_grows create head attrs items x d :
  (forall y, Forall (fun c => forall d0, next_id d0 <= next_id (snd (create c y d0))) items) ->
  next_id d < next_id (snd (Index.createElement_body create head attrs items x d)).
Proof.
  intros H. destruct (createElement_body_children create head attrs items x d) as (a & p & ->).
  cbv zeta.
  pose proof (createEach_grows (fun c => create c (Index.override_xmlns attrs (given x)))
                items (H _) (mkDom (S (next_id d)) (journal d ++ [Created (next_id d)]))) as G.
  destruct (Index.createEach _ items _) as [kids d']. simpl in *. lia.
Qed.

Lemma createNode_grows j : forall x d, next_id d < next_id (snd (Index1.createNode j x d)) \/
                                       Index1.isDocumentFragment j = true
                                       /\ next_id d <= next_id (snd (Index1.createNode j x d)).
Proof.
  induction j as [v|head attrs items IH] using jsonml_induction; intros x d.
  - left. simpl. lia.
  - assert (Hk : forall y, Forall (fun c => forall d0,
                   next_id d0 <= next_id (snd (Index1.createNode c y d0))) items).
    { intros y. eapply Forall_impl; [|exact IH]. intros c Hc d0.
      destruct (Hc y d0) as [H | [_ H]]; lia. }
    simpl. heads. destruct (String.eqb head "#document-fragment").
    + right. split; [reflexivity|].
      unfold Index1.createDocumentFragment_body, Index1.createEach. destruct attrs as [m|].
      * pose proof (createEach_grows (fun c => Index1.createNode c x) items (Hk x)
                      (snd (Index1.createTextNode (SlotMap m) d))) as G.
        simpl in G |- *. destruct (Index.createEach _ items _) as [kids d2]. simpl in *. lia.
      * pose proof (createEach_grows (fun c => Index1.createNode c x) items (Hk x) d) as G.
        destruct (Index.createEach _ items d) as [kids d2]. simpl in *. exact G.
    + left. destruct (String.eqb head "#comment"); [simpl; lia|].
      pose proof (createElement_body_grows Index1.createNode head attrs items x d Hk) as G.
      unfold Index1.createElement_body.
      destruct (Index.createElement_body _ head attrs items x d) as [e d1]. exact G.
Qed.

Lemma createNode_le j x d : next_id d <= next_id (snd (Index1.createNode j x d)).
Proof. destruct (createNode_grows j x d) as [H | [_ H]]; lia. Qed.

Lemma createElement_lt head attrs items x d :
  next_id d < next_id (snd (Index1.createElement head attrs items x d)).
Proof.
  apply createElement_body_grows. intros y. apply Forall_forall. intros c _ d0.
  apply createNode_le.
Qed.

Lemma createDelimitedNode_le j x d :
  next_id d <= next_id (snd (Render.createDelimitedNode j x d)).
Proof.
  destruct j as [v|head attrs items]; [apply createNode_le|].
  unfold Render.createDelimitedNode.
  destruct (Index1.isDocumentFragment (JArray head attrs items)); [|apply createNode_le].
  unfold Render.createDelimitedDocumentFragment, Render.newDelimiter, Index1.createEach.
  assert (Hk : Forall (fun c => forall d0,
                 next_id d0 <= next_id (snd (Index1.createNode c x d0))) items)
    by (apply Forall_forall; intros c _ d0; apply createNode_le).
  simpl. destruct attrs as [m|].
  - pose proof (createEach_grows (fun c => Index1.createNode c x) items Hk
                  (snd (Index1.createTextNode (SlotMap m)
                     (mkDom (S (next_id d)) (journal d ++ [Created (next_id d)]))))) as G.
    simpl in G |- *. destruct (Index.createEach _ items _) as [kids d2]. simpl in *. lia.
  - pose proof (createEach_grows (fun c => Index1.createNode c x) items Hk
                  (mkDom (S (next_id d)) (journal d ++ [Created (next_id d)]))) as G.
    destruct (Index.createEach _ items _) as [kids d2]. simpl in *. lia.
Qed.

Lemma patchNode_le j n d : next_id d <= next_id (snd (Render.patchNode j n d)).
Proof.
  unfold Render.patchNode. destruct (Render.sameNodeName j n).
  - destruct (nodeValue n) as [s|]; [destruct (String.eqb s _)|]; simpl; lia.
  - pose proof (createDelimitedNode_le j (namespaceURI n) d) as G.
    destruct (Render.createDelimitedNode j (namespaceURI n) d) as [c d1]. simpl in *. lia.
Qed.

Lemma removeSiblings_next_id turns : forall cur w d,
  next_id (snd (Render.removeSiblings turns cur w d)) = next_id d.
Proof.
  induction turns as [|turns IH]; intros [c|] w d; try reflexivity.
  simpl. now rewrite IH.
Qed.

Lemma patchAt_le (patch : node -> dom -> list node * dom) id w d :
  (forall n d0, next_id d0 <= next_id (snd (patch n d0))) ->
  next_id d <= next_id (snd (Render.patchAt patch id w d)).
Proof.
  intros H. unfold Render.patchAt. destruct (find_node id (siblings w)) as [n|]; [|simpl; lia].
  specialize (H n d). destruct (patch n d) as [r d1]. simpl in *. exact H.
Qed.

Lemma appendChild_next_id c w d : next_id (snd (appendChild c w d)) = next_id d.
Proof. unfold appendChild. simpl. now destruct (nodes_of c). Qed.

Lemma patchChild_le c cur w d :
  grows c ->
  next_id d <= next_id (snd (Render.patchChild Render.patchElement
                               Render.patchDocumentFragment c cur w d)).
Proof.
  intros [He Hf]. unfold Render.patchChild.
  destruct (walker_nextSibling w) as [next w1].
  destruct c as [v|head attrs items].
  - pose proof (patchAt_le (Render.patchNode (JPrim v)) cur w1 d (patchNode_le _)) as G.
    destruct (Render.patchAt _ cur w1 d) as [w2 d2]. exact G.
  - destruct (String.eqb head Index1.dollar_fragment).
    + specialize (Hf cur w1 d).
      destruct (Render.patchDocumentFragment _ cur w1 d) as [w2 d2].
      now destruct (nextSiblingOf _ _).
    + destruct (String.eqb head Index1.dollar_comment).
      * pose proof (patchAt_le (Render.patchNode (JArray head attrs items)) cur w1 d
                      (patchNode_le _)) as G.
        destruct (Render.patchAt _ cur w1 d) as [w2 d2]. exact G.
      * pose proof (patchAt_le (Render.patchElement (JArray head attrs items)) cur w1 d He) as G.
        destruct (Render.patchAt _ cur w1 d) as [w2 d2]. exact G.
Qed.

Lemma patchElementChildren_le items :
  Forall grows items ->
  forall cur w d,
    next_id d <= next_id (snd (Render.patchElementChildren Render.patchElement
                                 Render.patchDocumentFragment items cur w d)).
Proof.
  induction 1 as [|c items Hc _ IH]; intros cur w d; [simpl; lia|].
  rewrite patchElementChildren_cons. destruct cur as [n|].
  - pose proof (patchChild_le c n w d Hc) as G.
    destruct (Render.patchChild _ _ c n w d) as [[next w1] d1].
    specialize (IH next w1 d1). simpl in *. lia.
  - pose proof (createDelimitedNode_le c (root_ns w) d) as G.
    destruct (Render.createDelimitedNode c (root_ns w) d) as [m d1].
    pose proof (appendChild_next_id m w d1) as A.
    destruct (appendChild m w d1) as [w1 d2].
    specialize (IH None w1 d2). simpl in *. lia.
Qed.

Lemma patchFragmentChildren_cons c items cur w d :
  Render.patchFragmentChildren Render.patchElement Render.patchDocumentFragment
    (c :: items) cur w d
  = match cur with
    | Some n =>
        let '(next, w1, d1) :=
          Render.patchChild Render.patchElement Render.patchDocumentFragment c n w d in
        Render.patchFragmentChildren Render.patchElement Render.patchDocumentFragment
          items next w1 d1
    | None =>
        let '(n, d1) := Render.createDelimitedNode c Undefined d in
        let '(w1, d2) := appendChild n w d1 in
        let '(_, w2) := walker_nextSibling w1 in
        Render.patchFragmentChildren Render.patchElement Render.patchDocumentFragment
          items None w2 d2
    end.
Proof. reflexivity. Qed.

Lemma patchFragmentChildren_le items :
  Forall grows items ->
  forall cur w d,
    next_id d <= next_id (snd (Render.patchFragmentChildren Render.patchElement
                                 Render.patchDocumentFragment items cur w d)).
Proof.
  induction 1 as [|c items Hc _ IH]; intros cur w d; [simpl; lia|].
  rewrite patchFragmentChildren_cons. destruct cur as [n|].
  - pose proof (patchChild_le c n w d Hc) as G.
    destruct (Render.patchChild _ _ c n w d) as [[next w1] d1].
    specialize (IH next w1 d1). simpl in *. lia.
  - pose proof (createDelimitedNode_le c Undefined d) as G.
    destruct (Render.createDelimitedNode c Undefined d) as [m d1].
    pose proof (appendChild_next_id m w d1) as A.
    destruct (appendChild m w d1) as [w1 d2].
    destruct (walker_nextSibling w1) as [o w2].
    specialize (IH None w2 d2). simpl in *. lia.
Qed.

Lemma patchDocumentFragment_eq head attrs items delimiter w d :
  Render.patchDocumentFragment (JArray head attrs items) delimiter w d
  = match find_node delimiter (siblings w) with
    | Some n =>
        if isDelimiter n then
          let '(_, w1, d1) :=
            Render.patchFragmentChildren Render.patchElement Render.patchDocumentFragment
              items (Some (currentNode w)) w d in
          (w1, d1)
        else
          let '(l, d1) := Render.createDelimitedDocumentFragment attrs items Undefined d in
          (set_siblings (replace_node delimiter l (siblings w)) w,
           record (Replaced delimiter (map node_id l)) d1)
    | None => (w, d)
    end.
Proof. reflexivity. Qed.

(** No patch ever takes an identity back. *)
Lemma patch_grows j : grows j.
Proof.
  induction j as [v|head attrs items IH] using jsonml_induction.
  - split; intros; simpl; lia.
  - split.
    + intros n d. rewrite patchElement_eq. destruct (Render.sameNodeName _ n).
      * cbv zeta. destruct (childNodes n) as [|first others].
        -- unfold Index1.createDocumentFragment.
           pose proof (createNode_le (JArray "#document-fragment" attrs items)
                         (namespaceURI n) d) as L.
           change (Index1.createNode (JArray "#document-fragment" attrs items)
                     (namespaceURI n) d)
             with (let '(l, d1) := Index1.createDocumentFragment_body Index1.createNode
                                     attrs items (namespaceURI n) d in (Fragment l, d1)) in L.
           destruct (Index1.createDocumentFragment_body _ attrs items _ d) as [l d1].
           pose proof (appendChild_next_id (Fragment l)
                         (mkWalker (node_id n) (namespaceURI n) [] (node_id n)) d1) as A.
           destruct (appendChild (Fragment l) _ d1) as [w1 d2]. simpl in *. lia.
        -- pose proof (patchElementChildren_le items IH (Some (node_id first))
                         (mkWalker (node_id n) (namespaceURI n) (first :: others)
                            (node_id first)) d) as G.
           cbn [root_id root_ns siblings].
           destruct (Render.patchElementChildren _ _ items _ _ d) as [[cur w1] d1].
           pose proof (removeSiblings_next_id (length (siblings w1)) cur w1 d1) as R.
           destruct (Render.removeSiblings _ cur w1 d1) as [w2 d2]. simpl in *. lia.
      * pose proof (createElement_lt head attrs items Undefined d) as G.
        destruct (Index1.createElement head attrs items Undefined d) as [e d1].
        simpl in *. lia.
    + intros id w d. rewrite patchDocumentFragment_eq.
      destruct (find_node id (siblings w)) as [n|]; [|simpl; lia].
      destruct (isDelimiter n).
      * pose proof (patchFragmentChildren_le items IH (Some (currentNode w)) w d) as G.
        destruct (Render.patchFragmentChildren _ _ items _ w d) as [[o w1] d1]. exact G.
      * pose proof (createDelimitedNode_le (JArray "#document-fragment" attrs items)
                      Undefined d) as G.
        change (Render.createDelimitedNode (JArray "#document-fragment" attrs items)
                  Undefined d)
          with (let '(l, d1) := Render.createDelimitedDocumentFragment attrs items
                                  Undefined d in (Fragment l, d1)) in G.
        destruct (Render.createDelimitedDocumentFragment attrs items Undefined d) as [l d1].
        simpl in *. lia.
Qed.

End Grows.

(** ** Trailing trim without fragments *)
Section Trim.

Lemma patchOne_le c n d : next_id d <= next_id (snd (patchOne c n d)).
Proof.
  destruct c as [v|head attrs items]; unfold patchOne; [apply patchNode_le|].
  destruct (String.eqb head Index1.dollar_comment); [apply patchNode_le|].
  apply (patch_grows (JArray head attrs items)).
Qed.

(** A node made by the patch has its identity below the document's next one. *)
Lemma patchOne_single_lt cj n d :
  Index1.isDocumentFragment cj = false ->
  node_id n < next_id d ->
  exists n' d', patchOne cj n d = ([n'], d')
                /\ same_or_new d n n'
                /\ node_id n' < next_id d'
                /\ next_id d <= next_id d'.
Proof.
  intros Hf Hn. pose proof (patchOne_le cj n d) as Hle.
  assert (N : exists n' d', Render.patchNode cj n d = ([n'], d')
                /\ same_or_new d n n' /\ node_id n' < next_id d').
  { pose proof (patchNode_le cj n d) as G. revert G.
    unfold Render.patchNode, same_or_new. destruct (Render.sameNodeName cj n).
    - destruct (nodeValue n) as [s|];
        [destruct (String.eqb s _)|]; intros G; eexists _, _; (split; [reflexivity|]);
        (split; [left; destruct n; reflexivity | destruct n; simpl in *; lia]).
    - rewrite createDelimitedNode_not_fragment by assumption.
      destruct cj as [v|head attrs items]; simpl in Hf |- *.
      + intros _. eexists _, _; split; [reflexivity|]. simpl. split; [right|]; lia.
      + heads. rewrite Hf. destruct (String.eqb head "#comment").
        * intros _. eexists _, _; split; [reflexivity|]. simpl. split; [right|]; lia.
        * pose proof (createElement_lt head attrs items (namespaceURI n) d) as L.
          unfold Index1.createElement in L.
          destruct (createElement_body_element Index1.createNode head attrs items
                      (namespaceURI n) d) as (a & p & kids & d' & E).
          unfold Index1.createElement_body in *. rewrite E in *.
          intros _. eexists _, _; split; [reflexivity|]. simpl in *. split; [right|]; lia. }
  destruct cj as [v|head attrs items]; unfold patchOne in *;
    [destruct N as (n' & d' & E & H1 & H2); rewrite E in *; eauto 6|].
  heads. destruct (String.eqb head "#comment");
    [destruct N as (n' & d' & E & H1 & H2); rewrite E in *; eauto 6|].
  clear N. revert Hle. rewrite patchElement_eq. unfold same_or_new.
  destruct (Render.sameNodeName _ n).
  - cbv zeta. destruct (childNodes n) as [|first others].
    + destruct (Index1.createDocumentFragment _ _ _ _) as [l d1].
      destruct (appendChild _ _ d1) as [w1 d2]. intros Hle.
      eexists _, _; split; [reflexivity|].
      split; [left; destruct n; reflexivity|]. simpl in *. split; [destruct n; simpl in *|]; lia.
    + destruct (Render.patchElementChildren _ _ _ _ _ _) as [[cur w1] d1].
      destruct (Render.removeSiblings _ _ _ _) as [w2 d2]. intros Hle.
      eexists _, _; split; [reflexivity|].
      split; [left; destruct n; reflexivity|]. simpl in *. split; [destruct n; simpl in *|]; lia.
  - pose proof (createElement_lt head attrs items Undefined d) as L.
    destruct (createElement_body_element Index1.createNode head attrs items Undefined d)
      as (a & p & kids & d' & E).
    unfold Index1.createElement, Index1.createElement_body in *. rewrite E in *.
    intros _. eexists _, _; split; [reflexivity|]. simpl in *. split; [right|]; lia.
Qed.

(** The loop over descriptions none of which is a fragment, while live
    children are left: one live child per description, patched where it
    stands. *)
Lemma patchElementChildren_positional items :
  forallb (fun c => negb (Index1.isDocumentFragment c)) items = true ->
  forall rest done w d,
    length items <= length rest ->
    siblings w = done ++ rest ->
    (forall n rest', rest = n :: rest' -> currentNode w = node_id n) ->
    NoDup (ids (done ++ rest)) ->
    Forall (fun n => node_id n < next_id d) (done ++ rest) ->
    exists new w' d',
      Render.patchElementChildren Render.patchElement Render.patchDocumentFragment
        items (head_id rest) w d
      = (head_id (skipn (length items) rest), w', d')
      /\ siblings w' = done ++ new ++ skipn (length items) rest
      /\ root_id w' = root_id w
      /\ Forall2 (same_or_new d) (firstn (length items) rest) new
      /\ NoDup (ids (siblings w'))
      /\ next_id d <= next_id d'.
Proof.
  induction items as [|c items IH]; intros Hnf rest done w d Hlen Hw Hcur Hnd Hlt.
  - exists [], w, d. simpl. rewrite Hw. repeat split; auto.
  - simpl in Hnf. apply andb_prop in Hnf as [Hc Hi]. apply negb_true_iff in Hc.
    destruct rest as [|n rest']; [simpl in Hlen; lia|].
    rewrite patchElementChildren_cons. cbn [head_id].
    pose proof (NoDup_ids_middle _ _ _ Hnd) as Hn.
    rewrite (patchChild_at c done rest' n w d Hc Hw (Hcur _ _ eq_refl) Hn).
    assert (Hnlt : node_id n < next_id d).
    { rewrite Forall_forall in Hlt. apply Hlt. apply in_or_app. right. now left. }
    destruct (patchOne_single_lt c n d Hc Hnlt) as (n' & d1 & -> & Hid & Hlt' & Hle1).
    destruct (IH Hi rest' (done ++ [n'])
                (mkWalker (root_id w) (root_ns w) (done ++ [n'] ++ rest')
                   (match rest' with m :: _ => node_id m | [] => node_id n end))
                d1)
      as (new & w' & d' & E & Hs' & Hr & Hsn & Hnd' & Hle).
    + simpl in Hlen. lia.
    + simpl. now rewrite <- app_assoc.
    + intros ? ? ->. reflexivity.
    + apply NoDup_ids_replace with (n := n); [assumption|].
      destruct Hid as [Hid | Hid]; [now left | right].
      intros Hin. apply in_map_iff in Hin as (m & E & Hin).
      rewrite Forall_forall in Hlt. specialize (Hlt m Hin). lia.
    + rewrite <- app_assoc. simpl.
      apply Forall_app in Hlt as [Hd Hr]. inversion Hr; subst.
      apply Forall_app. split; [apply (Forall_lt_mono done (next_id d)); auto|].
      constructor; [assumption|]. apply (Forall_lt_mono rest' (next_id d)); auto.
    + rewrite E. exists (n' :: new), w', d'. simpl in Hr |- *.
      repeat split; auto.
      * rewrite Hs', <- app_assoc. reflexivity.
      * constructor; [assumption|].
        eapply Forall2_impl; [|exact Hsn]. unfold same_or_new. intros ? ? [?|?]; [now left|right; lia].
      * lia.
Qed.

End Trim.

(** Trailing trim without fragments. When no child of the description is
    a fragment and the matching live element has more children than the
    description, the retained children are the first live children, each
    patched where it stands (itself or a node made meanwhile), and the
    final loop removes exactly the surplus live children, in order. *)
Theorem patchElement_trims_surplus head attrs items id ns q a p kids d :
  forallb (fun c => negb (Index1.isDocumentFragment c)) items = true ->
  Render.sameNodeName (JArray head attrs items) (Element id ns q a p kids) = true ->
  nodupb (ids kids) = true ->
  forallb (fun n => node_id n <? next_id d)%nat kids = true ->
  length items < length kids ->
  let '(_, _, d1) :=
    Render.patchElementChildren Render.patchElement Render.patchDocumentFragment items
      (head_id kids) (mkWalker id (namespaceURI (Element id ns q a p kids)) kids
                        (match kids with first :: _ => node_id first | [] => id end)) d in
  exists kept,
    Render.patchElement (JArray head attrs items) (Element id ns q a p kids) d
    = ([Element id ns q a p kept],
       mkDom (next_id d1)
         (journal d1 ++ map (Removed id) (ids (skipn (length items) kids))))
    /\ Forall2 (same_or_new d) (firstn (length items) kids) kept.
Proof.
  intros Hnf Hm Hnd Hlt Hlen.
  apply nodupb_NoDup in Hnd.
  assert (Hlt' : Forall (fun n => node_id n < next_id d) kids).
  { apply Forall_forall. intros n Hin. rewrite forallb_forall in Hlt.
    now apply Nat.ltb_lt, Hlt. }
  destruct kids as [|first others]; [simpl in Hlen; lia|].
  destruct (patchElementChildren_positional items Hnf (first :: others) []
              (mkWalker id (namespaceURI (Element id ns q a p (first :: others)))
                 (first :: others) (node_id first)) d)
    as (new & w' & d' & E & Hs' & Hr & Hsn & Hnd' & Hle); auto.
  - lia.
  - intros ? ? [= <- _]. reflexivity.
  - rewrite patchElement_eq, Hm. cbv zeta.
    cbn [root_id root_ns siblings node_id childNodes].
    cbn [head_id] in E |- *. rewrite E.
    exists new. cbn [app] in Hs'.
    rewrite (removeSiblings_rest (skipn (length items) (first :: others)) new);
      [ | exact Hs' | now rewrite <- Hs' | rewrite Hs', length_app; lia ].
    cbn [set_siblings siblings set_childNodes]. rewrite Hr. split; [reflexivity | exact Hsn].
Qed.

Lemma patchElement_trims_surplus_witness :
  let '(_, _, d1) :=
    Render.patchElementChildren Render.patchElement Render.patchDocumentFragment
      [JArray "b" (Some [(KString "id", VPrim (PString "x"))]) []; JPrim (PString "t")]
      (head_id [Element 1 (Some htmlns) "i" [] [] []; Text 2 "t"; Text 3 "u";
                Comment 4 "v" false])
      (mkWalker 0 (namespaceURI (Element 0 (Some htmlns) "p" [] []
                     [Element 1 (Some htmlns) "i" [] [] []; Text 2 "t"; Text 3 "u";
                      Comment 4 "v" false]))
         [Element 1 (Some htmlns) "i" [] [] []; Text 2 "t"; Text 3 "u"; Comment 4 "v" false]
         1)
      (mkDom 5 []) in
  exists kept,
    Render.patchElement
      (JArray "p" None
         [JArray "b" (Some [(KString "id", VPrim (PString "x"))]) []; JPrim (PString "t")])
      (Element 0 (Some htmlns) "p" [] []
         [Element 1 (Some htmlns) "i" [] [] []; Text 2 "t"; Text 3 "u"; Comment 4 "v" false])
      (mkDom 5 [])
    = ([Element 0 (Some htmlns) "p" [] [] kept],
       mkDom (next_id d1)
         (journal d1 ++ map (Removed 0)
            (ids (skipn 2 [Element 1 (Some htmlns) "i" [] [] []; Text 2 "t"; Text 3 "u";
                           Comment 4 "v" false]))))
    /\ Forall2 (same_or_new (mkDom 5 []))
         (firstn 2 [Element 1 (Some htmlns) "i" [] [] []; Text 2 "t"; Text 3 "u";
                    Comment 4 "v" false]) kept.
Proof.
  apply (patchElement_trims_surplus "p" None
           [JArray "b" (Some [(KString "id", VPrim (PString "x"))]) []; JPrim (PString "t")]
           0 (Some htmlns) "p" [] []
           [Element 1 (Some htmlns) "i" [] [] []; Text 2 "t"; Text 3 "u"; Comment 4 "v" false]
           (mkDom 5 [])).
  - reflexivity.
  - reflexivity.
  - reflexivity.
  - reflexivity.
  - simpl. lia.
Defined.

(** A fragment built by [createDelimitedNode], the way taken when the
    live children are exhausted or a node is replaced, begins with a
    fresh delimiter, followed by what the description's entries build. *)
Theorem createDelimitedNode_fragment_begins_with_delimiter attrs items x d :
  exists built_entries d',
    Render.createDelimitedNode (JArray Index1.dollar_fragment attrs items) x d
    = (Fragment (Comment (next_id d) "" true :: built_entries), d')
    /\ isDelimiter (Comment (next_id d) "" true) = true
    /\ Index1.createDocumentFragment attrs items x
         (mkDom (S (next_id d)) (journal d ++ [Created (next_id d)]))
       = (built_entries, d').
Proof.
  unfold Render.createDelimitedNode, Render.createDelimitedDocumentFragment,
    Render.newDelimiter, Index1.createDocumentFragment, Index1.createDocumentFragment_body, fresh.
  change (Index1.isDocumentFragment (JArray Index1.dollar_fragment attrs items)) with true.
  cbv iota beta.
  destruct attrs as [m|].
  - destruct (Index1.createTextNode (SlotMap m) _) as [t d2].
    destruct (Index1.createEach _ items d2) as [kids d3].
    eexists _, _. repeat split.
  - destruct (Index1.createEach _ items _) as [kids d2].
    eexists _, _. repeat split.
Qed.

(** ** The loop over the attribute map *)
Section AttributeFacts.

Lemma lookup_set_assoc_same {A} k (v : A) l : lookup k (set_assoc k v l) = Some v.
Proof.
  induction l as [|[k' v'] l IH]; simpl.
  - now rewrite String.eqb_refl.
  - destruct (String.eqb_spec k' k) as [->|N]; simpl.
    + now rewrite String.eqb_refl.
    + destruct (String.eqb_spec k' k); [contradiction | exact IH].
Qed.

Lemma lookup_set_assoc_other {A} k k' (v : A) l :
  k <> k' -> lookup k' (set_assoc k v l) = lookup k' l.
Proof.
  intros N. induction l as [|[k0 v0] l IH]; simpl.
  - destruct (String.eqb_spec k k'); [contradiction | reflexivity].
  - destruct (String.eqb_spec k0 k) as [->|N0]; simpl.
    + destruct (String.eqb_spec k k'); [contradiction | reflexivity].
    + destruct (String.eqb_spec k0 k'); [reflexivity | exact IH].
Qed.

Lemma lookup_remove_assoc_same {A} k (l : list (string * A)) :
  lookup k (remove_assoc k l) = None.
Proof.
  induction l as [|[k' v'] l IH]; simpl; [reflexivity|].
  destruct (String.eqb_spec k' k) as [->|N]; simpl; [exact IH|].
  destruct (String.eqb_spec k' k); [contradiction | exact IH].
Qed.

Lemma lookup_remove_assoc_other {A} k k' (l : list (string * A)) :
  k <> k' -> lookup k' (remove_assoc k l) = lookup k' l.
Proof.
  intros N. induction l as [|[k0 v0] l IH]; simpl; [reflexivity|].
  destruct (String.eqb_spec k0 k) as [->|N0]; simpl.
  - destruct (String.eqb_spec k k'); [contradiction | exact IH].
  - destruct (String.eqb_spec k0 k'); [reflexivity | exact IH].
Qed.

Lemma has_assoc_lookup {A} k (l : list (string * A)) :
  has_assoc k l = match lookup k l with Some _ => true | None => false end.
Proof.
  induction l as [|[k' v'] l IH]; simpl; [reflexivity|].
  destruct (String.eqb k' k); [reflexivity | exact IH].
Qed.

Lemma lookup_snoc {A} k k0 (v : A) l :
  lookup k (l ++ [(k0, v)])
  = match lookup k l with
    | Some x => Some x
    | None => if String.eqb k0 k then Some v else None
    end.
Proof.
  induction l as [|[k' v'] l IH]; simpl; [reflexivity|].
  destruct (String.eqb k' k); [reflexivity | exact IH].
Qed.

(** One turn of the loop, seen from one attribute. *)
Lemma setEntry_attribute id ns q a p kids kv name :
  lookup name (attributes_of (Index.setEntry (Element id ns q a p kids) kv))
  = turn ns name (lookup name a) kv.
Proof.
  destruct kv as [[k|[desc|]] [[s|n|n|b| |]|h]]; simpl; try reflexivity;
    destruct (String.eqb_spec (attr_name ns k) name) as [E|N]; try reflexivity;
    try (subst name; apply lookup_set_assoc_same);
    try (now apply lookup_set_assoc_other).
  - subst name. destruct b; simpl.
    + rewrite has_assoc_lookup.
      destruct (lookup (attr_name ns k) a) as [v|] eqn:L; simpl; [exact L|].
      now rewrite lookup_snoc, L, String.eqb_refl.
    + apply lookup_remove_assoc_same.
  - destruct b; simpl.
    + rewrite has_assoc_lookup.
      destruct (lookup (attr_name ns k) a) as [v|] eqn:L; simpl; [reflexivity|].
      rewrite lookup_snoc. destruct (lookup name a); [reflexivity|].
      destruct (String.eqb_spec (attr_name ns k) name); [contradiction | reflexivity].
    + now apply lookup_remove_assoc_other.
Qed.

(** The whole loop, seen from one attribute: the other names play no part. *)
Lemma setEntries_attribute m name : forall id ns q a p kids,
  lookup name (attributes_of (fold_left Index.setEntry m (Element id ns q a p kids)))
  = fold_left (turn ns name) m (lookup name a).
Proof.
  induction m as [|kv m IH]; intros id ns q a p kids; simpl; [reflexivity|].
  pose proof (setEntry_attribute id ns q a p kids kv name) as T.
  destruct (setEntry_element id ns q a p kids kv) as (a1 & p1 & E).
  rewrite E in T |- *. simpl in T. now rewrite IH, T.
Qed.

Lemma setEntry_assignment id ns q a p kids kv :
  properties_of (Index.setEntry (Element id ns q a p kids) kv) = p ++ assignments [kv].
Proof.
  destruct kv as [[k|[desc|]] [[s|n|n|b| |]|h]]; simpl; try reflexivity;
    try (now rewrite app_nil_r).
  destruct b; simpl; [destruct (has_assoc _ a)|]; simpl; now rewrite app_nil_r.
Qed.

(** The assignments the loop makes are those the map asks for, after
    the ones made before. *)
Lemma setEntries_assignments m : forall id ns q a p kids,
  properties_of (fold_left Index.setEntry m (Element id ns q a p kids)) = p ++ assignments m.
Proof.
  induction m as [|kv m IH]; intros id ns q a p kids; simpl; [now rewrite app_nil_r|].
  pose proof (setEntry_assignment id ns q a p kids kv) as T.
  destruct (setEntry_element id ns q a p kids kv) as (a1 & p1 & E).
  rewrite E in T |- *. simpl in T. rewrite IH, T.
  destruct kv as [[k|[desc|]] v]; simpl; rewrite <- ?app_assoc; now rewrite ?app_nil_r.
Qed.

(** The element [createElement] returns is the one the loop over the map
    left, with the children appended. *)
Lemma createElement_body_parts create head attrs items x d :
  exists kids d',
    Index.createElement_body create head attrs items x d
    = (set_childNodes kids
         (Index.setEntries attrs
            (Element (next_id d) (element_ns (Index.override_xmlns attrs (given x))) head
               [] [] [])), d').
Proof.
  unfold Index.createElement_body, given. simpl.
  destruct (Index.createEach _ items _) as [kids d']. eauto.
Qed.

Lemma attributes_of_set_childNodes kids n :
  attributes_of (set_childNodes kids n) = attributes_of n.
Proof. now destruct n. Qed.

Lemma properties_of_set_childNodes kids n :
  properties_of (set_childNodes kids n) = properties_of n.
Proof. now destruct n. Qed.

Lemma namespace_of_set_childNodes kids n :
  namespace_of (set_childNodes kids n) = namespace_of n.
Proof. now destruct n. Qed.

Lemma namespace_of_setEntries attrs id ns q a p kids :
  namespace_of (Index.setEntries attrs (Element id ns q a p kids)) = ns.
Proof. now destruct (setEntries_element attrs id ns q a p kids) as (a' & p' & ->). Qed.

(** A name no turn addresses keeps its value. *)
Lemma turns_elsewhere ns name m : forall cur,
  existsb (String.eqb name) (attribute_names ns m) = false ->
  fold_left (turn ns name) m cur = cur.
Proof.
  induction m as [|[[k|desc] v] m IH]; intros cur H; simpl in *; auto.
  apply orb_false_elim in H as [H1 H2]. rewrite IH by assumption.
  rewrite String.eqb_sym in H1. unfold turn. rewrite H1. now destruct v.
Qed.

Lemma existsb_eqb_app x (l k : list string) :
  existsb (String.eqb x) (l ++ k) = existsb (String.eqb x) l || existsb (String.eqb x) k.
Proof. apply existsb_app. Qed.

Lemma attribute_names_app ns m1 m2 :
  attribute_names ns (m1 ++ m2) = attribute_names ns m1 ++ attribute_names ns m2.
Proof.
  induction m1 as [|[[k|desc] v] m1 IH]; simpl; [reflexivity| |exact IH].
  now rewrite IH.
Qed.

(** In a sequence of distinct names, a name is neither before nor after
    its own place. *)
Lemma distinct_middle (l1 l2 : list string) x :
  distinct (l1 ++ x :: l2) = true ->
  existsb (String.eqb x) l1 = false /\ existsb (String.eqb x) l2 = false.
Proof.
  induction l1 as [|y l1 IH]; simpl; intros H; apply andb_prop in H as [H1 H2].
  - split; [reflexivity | now apply negb_true_iff].
  - destruct (IH H2) as [I1 I2]. split; [|exact I2].
    apply negb_true_iff in H1. rewrite existsb_app in H1.
    apply orb_false_elim in H1 as [_ H1]. simpl in H1.
    apply orb_false_elim in H1 as [H1 _].
    rewrite String.eqb_sym, H1. exact I1.
Qed.

(** With distinct names, the attribute under the name of a key is the
    one its value stands for. *)
Lemma turns_distinct ns m1 k v m2 :
  distinct (attribute_names ns (m1 ++ (KString k, v) :: m2)) = true ->
  fold_left (turn ns (attr_name ns k)) (m1 ++ (KString k, v) :: m2) None = attribute_value v.
Proof.
  rewrite attribute_names_app. simpl. intros H.
  apply distinct_middle in H as [H1 H2].
  rewrite fold_left_app. simpl.
  rewrite (turns_elsewhere ns _ m1 None H1).
  rewrite turns_elsewhere by assumption.
  unfold turn. rewrite String.eqb_refl.
  destruct v as [[s|n|n|[|]| |]|h]; reflexivity.
Qed.

Lemma getAttribute_created create head m items x d name :
  getAttribute name (fst (Index.createElement_body create head (Some m) items x d))
  = fold_left
      (turn (element_ns (Index.override_xmlns (Some m) (given x)))
         (attr_name (element_ns (Index.override_xmlns (Some m) (given x))) name))
      m None.
Proof.
  destruct (createElement_body_parts create head (Some m) items x d) as (kids & d' & ->).
  unfold getAttribute. cbn [fst].
  rewrite attributes_of_set_childNodes, namespace_of_set_childNodes, namespace_of_setEntries.
  cbn [Index.setEntries]. now rewrite setEntries_attribute.
Qed.

Lemma properties_created create head attrs items x d :
  properties_of (fst (Index.createElement_body create head attrs items x d))
  = assignments_of attrs.
Proof.
  destruct (createElement_body_parts create head attrs items x d) as (kids & d' & ->).
  cbn [fst]. rewrite properties_of_set_childNodes.
  destruct attrs as [m|]; [|reflexivity].
  cbn [Index.setEntries assignments_of]. now rewrite setEntries_assignments.
Qed.

End AttributeFacts.

(** The attribute map, key by key. When the map asks for no property
    assignment and its string keys address distinct attribute names on
    the element, the element has, under the name of each string key, the
    attribute its value stands for: a string as it is, a number or
    bigint stringified, [true] as the empty string, and no attribute for
    [false], [null], [undefined] and values of other types; under every
    other name it has no attribute. Both revisions of [createElement]. *)
Theorem createElement_attribute_table head m1 k v m2 items x d :
  let m := m1 ++ (KString k, v) :: m2 in
  let ns := element_ns (Index.override_xmlns (Some m) (given x)) in
  assignments m = [] ->
  distinct (attribute_names ns m) = true ->
  (getAttribute k (fst (Index1.createElement head (Some m) items x d)) = attribute_value v
   /\ getAttribute k (fst (Index.createElement head (Some m) items x d)) = attribute_value v)
  /\ forall name,
       existsb (String.eqb (attr_name ns name)) (attribute_names ns m) = false ->
       getAttribute name (fst (Index1.createElement head (Some m) items x d)) = None
       /\ getAttribute name (fst (Index.createElement head (Some m) items x d)) = None.
Proof.
  intros m ns _ H. unfold Index1.createElement, Index1.createElement_body, Index.createElement.
  split.
  - rewrite !getAttribute_created. fold ns. split; now apply turns_distinct.
  - intros name Hn. rewrite !getAttribute_created. fold ns.
    split; now apply turns_elsewhere.
Qed.

Lemma createElement_attribute_table_witness :
  let m := [(KString "id", VPrim (PString "a"))] ++ (KString "tabindex", VPrim (PNumber 0))
           :: [(KString "hidden", VPrim (PBoolean true));
               (KString "open", VPrim (PBoolean false));
               (KString "title", VPrim PNull);
               (KSymbol None, VOther 7)] in
  let ns := element_ns (Index.override_xmlns (Some m) (given Undefined)) in
  (getAttribute "tabindex" (fst (Index1.createElement "div" (Some m) [] Undefined (mkDom 0 [])))
   = attribute_value (VPrim (PNumber 0))
   /\ getAttribute "tabindex" (fst (Index.createElement "div" (Some m) [] Undefined (mkDom 0 [])))
      = attribute_value (VPrim (PNumber 0)))
  /\ forall name,
       existsb (String.eqb (attr_name ns name)) (attribute_names ns m) = false ->
       getAttribute name (fst (Index1.createElement "div" (Some m) [] Undefined (mkDom 0 [])))
       = None
       /\ getAttribute name (fst (Index.createElement "div" (Some m) [] Undefined (mkDom 0 [])))
          = None.
Proof.
  apply (createElement_attribute_table "div" [(KString "id", VPrim (PString "a"))]
           "tabindex" (VPrim (PNumber 0))
           [(KString "hidden", VPrim (PBoolean true));
            (KString "open", VPrim (PBoolean false));
            (KString "title", VPrim PNull);
            (KSymbol None, VOther 7)] [] Undefined (mkDom 0 [])).
  - reflexivity.
  - reflexivity.
Defined.

(** The attribute map, turn by turn. When the map asks for no property
    assignment, whatever its string keys, the attribute the element ends
    with under a name is decided by the entries that address this name
    alone, in key order, from no attribute: a string, number or bigint
    sets the value, [false] removes the attribute, [true] adds it with
    the empty value unless it is there, and entries of other value
    types and entries under other names leave it as it is. Both
    revisions of [createElement]. *)
Theorem createElement_attribute_turns head m items x d name :
  let ns := element_ns (Index.override_xmlns (Some m) (given x)) in
  assignments m = [] ->
  getAttribute name (fst (Index1.createElement head (Some m) items x d))
  = fold_left (turn ns (attr_name ns name)) m None
  /\ getAttribute name (fst (Index.createElement head (Some m) items x d))
     = fold_left (turn ns (attr_name ns name)) m None.
Proof.
  intros ns _. unfold Index1.createElement, Index1.createElement_body, Index.createElement.
  now rewrite !getAttribute_created.
Qed.

Lemma createElement_attribute_turns_witness :
  let m := [(KString "Class", VPrim (PString "a")); (KString "class", VPrim (PBoolean true));
            (KString "DATA-X", VPrim (PString "1")); (KString "data-x", VPrim (PBoolean false))] in
  let ns := element_ns (Index.override_xmlns (Some m) (given Undefined)) in
  getAttribute "class" (fst (Index1.createElement "div" (Some m) [] Undefined (mkDom 0 [])))
  = fold_left (turn ns (attr_name ns "class")) m None
  /\ getAttribute "class" (fst (Index.createElement "div" (Some m) [] Undefined (mkDom 0 [])))
     = fold_left (turn ns (attr_name ns "class")) m None.
Proof.
  apply (createElement_attribute_turns "div"
           [(KString "Class", VPrim (PString "a")); (KString "class", VPrim (PBoolean true));
            (KString "DATA-X", VPrim (PString "1")); (KString "data-x", VPrim (PBoolean false))]
           [] Undefined (mkDom 0 []) "class").
  reflexivity.
Defined.

(** Symbol keys. The property assignments made on the element
    [createElement] builds are those of the keys of the map that are
    symbols with a description, under this description, in key order,
    each with the value of its entry as it is; string keys and symbols
    without a description make none, and neither does a description
    without a map. Both revisions of [createElement]. *)
Theorem createElement_assigns_symbol_keys head attrs items x d :
  properties_of (fst (Index1.createElement head attrs items x d)) = assignments_of attrs
  /\ properties_of (fst (Index.createElement head attrs items x d)) = assignments_of attrs.
Proof.
  unfold Index1.createElement, Index1.createElement_body, Index.createElement.
  now rewrite !properties_created.
Qed.

(** ** The attribute map and the rest of the element *)
Section AttributeMapApart.

Lemma given_override attrs x :
  given (Index.override_xmlns attrs (given x)) = Index.override_xmlns attrs (given x).
Proof.
  destruct attrs as [m|]; simpl; [|apply given_given].
  destruct (Index.get_xmlns m) as [[[s|n|n|b| |]|h]|]; try apply given_given; reflexivity.
Qed.

Lemma createElement_body_without_attributes create head attrs items x d :
  assignments_of attrs = [] ->
  let '(e, d1) := Index.createElement_body create head attrs items x d in
  let '(e0, d0) :=
    Index.createElement_body create head None items (Index.override_xmlns attrs (given x)) d in
  without_attributes e = e0 /\ d1 = d0.
Proof.
  intros Ha.
  unfold Index.createElement_body. cbv zeta. cbn [Index.setEntries Index.override_xmlns fresh].
  change (match x with Undefined => Uri htmlns | _ => x end) with (given x).
  change (match Index.override_xmlns attrs (given x) with
          | Undefined => Uri htmlns
          | _ => Index.override_xmlns attrs (given x)
          end) with (given (Index.override_xmlns attrs (given x))).
  rewrite given_override.
  destruct (Index.createEach _ items _) as [kids d'].
  assert (P : properties_of
                (Index.setEntries attrs
                   (Element (next_id d) (element_ns (Index.override_xmlns attrs (given x)))
                      head [] [] [])) = []).
  { destruct attrs as [m|]; [|reflexivity].
    cbn [Index.setEntries]. rewrite setEntries_assignments. exact Ha. }
  destruct (setEntries_element attrs (next_id d)
              (element_ns (Index.override_xmlns attrs (given x))) head [] [] [])
    as (a & p & E).
  rewrite E in P |- *. simpl in P. subst p. split; reflexivity.
Qed.

End AttributeMapApart.

(** What the attribute map does not reach. When the map asks for no
    property assignment, the element [createElement] builds from a
    description with the map is, attributes apart, the element it builds
    from the same description without the map in the namespace the map
    gives or else the one handed in: the same identity, name and
    children, and the same document after the call. Both revisions of
    [createElement]. *)
Theorem createElement_attribute_map_leaves_the_rest head attrs items x d :
  assignments_of attrs = [] ->
  (let '(e, d1) := Index1.createElement head attrs items x d in
   let '(e0, d0) :=
     Index1.createElement head None items (Index.override_xmlns attrs (given x)) d in
   without_attributes e = e0 /\ d1 = d0)
  /\ (let '(e, d1) := Index.createElement head attrs items x d in
      let '(e0, d0) :=
        Index.createElement head None items (Index.override_xmlns attrs (given x)) d in
      without_attributes e = e0 /\ d1 = d0).
Proof.
  intros Ha. split.
  - now apply (createElement_body_without_attributes Index1.createNode).
  - now apply (createElement_body_without_attributes Index.createNode).
Qed.

Lemma createElement_attribute_map_leaves_the_rest_witness :
  (let '(e, d1) :=
     Index1.createElement "svg"
       (Some [(KString "xmlns", VPrim (PString svgns)); (KString "viewBox", VPrim (PString "0 0 1 1"))])
       [JArray "circle" None []] Undefined (mkDom 0 []) in
   let '(e0, d0) :=
     Index1.createElement "svg" None [JArray "circle" None []]
       (Index.override_xmlns
          (Some [(KString "xmlns", VPrim (PString svgns));
                 (KString "viewBox", VPrim (PString "0 0 1 1"))]) (given Undefined))
       (mkDom 0 []) in
   without_attributes e = e0 /\ d1 = d0)
  /\ (let '(e, d1) :=
        Index.createElement "svg"
          (Some [(KString "xmlns", VPrim (PString svgns));
                 (KString "viewBox", VPrim (PString "0 0 1 1"))])
          [JArray "circle" None []] Undefined (mkDom 0 []) in
      let '(e0, d0) :=
        Index.createElement "svg" None [JArray "circle" None []]
          (Index.override_xmlns
             (Some [(KString "xmlns", VPrim (PString svgns));
                    (KString "viewBox", VPrim (PString "0 0 1 1"))]) (given Undefined))
          (mkDom 0 []) in
      without_attributes e = e0 /\ d1 = d0).
Proof.
  apply (createElement_attribute_map_leaves_the_rest "svg"
           (Some [(KString "xmlns", VPrim (PString svgns));
                  (KString "viewBox", VPrim (PString "0 0 1 1"))])
           [JArray "circle" None []] Undefined (mkDom 0 [])).
  reflexivity.
Defined.

(** ** Delimiters and the factory *)
Section DelimiterFacts.

Lemma createEach_delimiters (create : jsonml -> dom -> created * dom) items :
  Forall (fun c => forall d, flat_map delimiters (nodes_of (fst (create c d))) = []) items ->
  forall d, flat_map delimiters (fst (Index.createEach create items d)) = [].
Proof.
  induction 1 as [|c items Hc _ IH]; intros d; simpl; [reflexivity|].
  specialize (Hc d). destruct (create c d) as [r d1]. specialize (IH d1).
  destruct (Index.createEach create items d1) as [rs d2]. simpl in *.
  now rewrite flat_map_app, Hc, IH.
Qed.

Lemma createElement_body_delimiters create head attrs items x d :
  (forall y, Forall (fun c => forall d0,
               flat_map delimiters (nodes_of (fst (create c y d0))) = []) items) ->
  delimiters (fst (Index.createElement_body create head attrs items x d)) = [].
Proof.
  intros H. destruct (createElement_body_children create head attrs items x d) as (a & p & ->).
  cbv zeta.
  pose proof (createEach_delimiters (fun c => create c (Index.override_xmlns attrs (given x)))
                items (H _) (mkDom (S (next_id d)) (journal d ++ [Created (next_id d)]))) as G.
  destruct (Index.createEach _ items _) as [kids d']. simpl in *. exact G.
Qed.

Lemma createNode1_delimiters j :
  forall x d, flat_map delimiters (nodes_of (fst (Index1.createNode j x d))) = [].
Proof.
  induction j as [v|head attrs items IH] using jsonml_induction; intros x d; [reflexivity|].
  assert (Hk : forall y, Forall (fun c => forall d0,
                 flat_map delimiters (nodes_of (fst (Index1.createNode c y d0))) = []) items).
  { intros y. eapply Forall_impl; [|exact IH]. intros c Hc d0. apply Hc. }
  simpl. heads. destruct (String.eqb head "#document-fragment").
  - unfold Index1.createDocumentFragment_body, Index1.createEach. destruct attrs as [m|].
    + pose proof (createEach_delimiters (fun c => Index1.createNode c x) items (Hk x)
                    (snd (Index1.createTextNode (SlotMap m) d))) as G.
      simpl in G |- *. destruct (Index.createEach _ items _) as [kids d2]. exact G.
    + pose proof (createEach_delimiters (fun c => Index1.createNode c x) items (Hk x) d) as G.
      destruct (Index.createEach _ items d) as [kids d2]. exact G.
  - destruct (String.eqb head "#comment"); [reflexivity|].
    pose proof (createElement_body_delimiters Index1.createNode head attrs items x d Hk) as G.
    unfold Index1.createElement_body.
    destruct (Index.createElement_body _ head attrs items x d) as [e d1]. simpl in *.
    now rewrite G.
Qed.

Lemma createNode0_delimiters j :
  forall x d, flat_map delimiters (nodes_of (fst (Index.createNode j x d))) = [].
Proof.
  induction j as [v|head attrs items IH] using jsonml_induction; intros x d; [reflexivity|].
  assert (Hk : forall y, Forall (fun c => forall d0,
                 flat_map delimiters (nodes_of (fst (Index.createNode c y d0))) = []) items).
  { intros y. eapply Forall_impl; [|exact IH]. intros c Hc d0. apply Hc. }
  simpl. heads. destruct (String.eqb head "#document-fragment").
  - unfold Index.createDocumentFragment_body. destruct attrs as [m|].
    + pose proof (createEach_delimiters (fun c => Index.createNode c Undefined) items
                    (Hk Undefined) (snd (Index.createTextNode (SlotMap m) d))) as G.
      simpl in G |- *. destruct (Index.createEach _ items _) as [kids d2]. exact G.
    + pose proof (createEach_delimiters (fun c => Index.createNode c Undefined) items
                    (Hk Undefined) d) as G.
      destruct (Index.createEach _ items d) as [kids d2]. exact G.
  - destruct (String.eqb head "#comment"); [reflexivity|].
    pose proof (createElement_body_delimiters Index.createNode head attrs items x d Hk) as G.
    destruct (Index.createElement_body _ head attrs items x d) as [e d1]. simpl in *.
    now rewrite G.
Qed.

End DelimiterFacts.

(** Delimiters are made in one place only. Nothing [createNode] builds,
    in either revision, is or contains a [JsonMLDelimiter]: a comment of
    the description never counts as one, whatever its data.
    [createDelimitedNode] makes exactly one, the first node of the
    fragment, for a fragment description, and none otherwise; fragments
    nested in the description get none. *)
Theorem delimiters_only_at_the_head_of_a_delimited_fragment j x d :
  flat_map delimiters (nodes_of (fst (Index1.createNode j x d))) = []
  /\ flat_map delimiters (nodes_of (fst (Index.createNode j x d))) = []
  /\ flat_map delimiters (nodes_of (fst (Render.createDelimitedNode j x d)))
     = (if Index1.isDocumentFragment j then [next_id d] else [])
  /\ (Index1.isDocumentFragment j = true ->
      head_id (nodes_of (fst (Render.createDelimitedNode j x d))) = Some (next_id d)).
Proof.
  split; [apply createNode1_delimiters|]. split; [apply createNode0_delimiters|].
  destruct j as [v|head attrs items]; [split; [reflexivity | discriminate]|].
  unfold Render.createDelimitedNode.
  destruct (Index1.isDocumentFragment (JArray head attrs items)) eqn:Hf.
  - unfold Render.createDelimitedDocumentFragment, Render.newDelimiter, Index1.createEach.
    assert (Hk : Forall (fun c => forall d0,
                   flat_map delimiters (nodes_of (fst (Index1.createNode c x d0))) = []) items)
      by (apply Forall_forall; intros c _ d0; apply createNode1_delimiters).
    cbn [fresh]. destruct attrs as [m|].
    + pose proof (createEach_delimiters (fun c => Index1.createNode c x) items Hk
                    (snd (Index1.createTextNode (SlotMap m)
                       (mkDom (S (next_id d)) (journal d ++ [Created (next_id d)]))))) as G.
      simpl in G |- *. destruct (Index.createEach _ items _) as [kids d2]. simpl in *.
      rewrite G. split; reflexivity.
    + pose proof (createEach_delimiters (fun c => Index1.createNode c x) items Hk
                    (mkDom (S (next_id d)) (journal d ++ [Created (next_id d)]))) as G.
      destruct (Index.createEach _ items _) as [kids d2]. simpl in *.
      rewrite G. split; reflexivity.
  - split; [apply createNode1_delimiters | discriminate].
Qed.

(** ** A node and the description it was built from *)
Section CreatedMatches.

Lemma createNode_single (create : jsonml -> nsval -> dom -> created * dom) head attrs items x d :
  exists n d',
    Index.createElement_body create head attrs items x d = (n, d')
    /\ node_id n = next_id d
    /\ Render.sameNodeName (JArray head attrs items) n = true.
Proof.
  destruct (createElement_body_element create head attrs items x d) as (a & p & kids & d' & ->).
  eexists _, _. split; [reflexivity|]. split; [reflexivity | apply sameNodeName_created].
Qed.

(** A matching node is patched where it stands: it keeps its identity,
    its name and its namespace. *)
Lemma patchOne_keeps_matching j n d :
  Render.sameNodeName j n = true ->
  exists n' d',
    patchOne j n d = ([n'], d')
    /\ node_id n' = node_id n
    /\ nodeName n' = nodeName n
    /\ namespaceURI n' = namespaceURI n.
Proof.
  intros Hm.
  assert (N : exists n' d', Render.patchNode j n d = ([n'], d')
                /\ node_id n' = node_id n /\ nodeName n' = nodeName n
                /\ namespaceURI n' = namespaceURI n).
  { unfold Render.patchNode. rewrite Hm.
    destruct (nodeValue n) as [s|]; [destruct (String.eqb s _)|];
      eexists _, _; (split; [reflexivity|]); destruct n; auto. }
  destruct j as [v|head attrs items]; unfold patchOne; [exact N|].
  destruct (String.eqb head Index1.dollar_comment); [exact N|].
  rewrite patchElement_eq, Hm. cbv zeta.
  destruct (childNodes n) as [|first others].
  - destruct (Index1.createDocumentFragment _ _ _ _) as [l d1].
    destruct (appendChild _ _ d1) as [w1 d2].
    eexists _, _; (split; [reflexivity|]); destruct n; auto.
  - destruct (Render.patchElementChildren _ _ _ _ _ _) as [[cur w1] d1].
    destruct (Render.removeSiblings _ _ _ _) as [w2 d2].
    eexists _, _; (split; [reflexivity|]); destruct n; auto.
Qed.

End CreatedMatches.

(** The factory and the matcher agree. The node either revision of
    [createNode] builds from a description that is not a fragment is one
    node that [sameNodeName] finds to match this description, in every
    namespace: an HTML element through the comparison up to case, an
    element of another namespace through the exact one. So a patch with
    the same description keeps the node (its identity, name and
    namespace) instead of replacing it. *)
Theorem createNode_matches_its_description j x d :
  Index1.isDocumentFragment j = false ->
  (exists n d1,
     Index1.createNode j x d = (Single n, d1)
     /\ Render.sameNodeName j n = true
     /\ exists n' d2,
          patchOne j n d1 = ([n'], d2)
          /\ node_id n' = node_id n /\ nodeName n' = nodeName n
          /\ namespaceURI n' = namespaceURI n)
  /\ (exists n d1,
        Index.createNode j x d = (Single n, d1) /\ Render.sameNodeName j n = true).
Proof.
  intros Hf.
  assert (A : forall create : jsonml -> nsval -> dom -> created * dom,
            (forall head attrs items y d0,
               create (JArray head attrs items) y d0
               = if String.eqb head "#document-fragment" then create (JArray head attrs items) y d0
                 else if String.eqb head "#comment" then
                   let '(c, d1) := Index.createComment attrs items d0 in (Single c, d1)
                 else
                   let '(e, d1) := Index.createElement_body create head attrs items y d0 in
                   (Single e, d1)) ->
            (forall v y d0, create (JPrim v) y d0
               = let '(t, d1) := Index.createTextNode (SlotNode (JPrim v)) d0 in (Single t, d1)) ->
            exists n d1, create j x d = (Single n, d1) /\ Render.sameNodeName j n = true).
  { intros create Ha Hp. destruct j as [v|head attrs items].
    - rewrite Hp. eexists _, _. split; reflexivity.
    - rewrite Ha. simpl in Hf. heads. rewrite Hf.
      destruct (String.eqb head "#comment") eqn:Hc.
      + apply String.eqb_eq in Hc. subst head. eexists _, _. split; reflexivity.
      + destruct (createNode_single create head attrs items x d) as (n & d1 & E & _ & Hm).
        rewrite E. eauto. }
  split.
  - destruct (A Index1.createNode) as (n & d1 & E & Hm).
    + intros head attrs items y d0. simpl. heads.
      now destruct (String.eqb head "#document-fragment").
    + reflexivity.
    + exists n, d1. split; [exact E|]. split; [exact Hm|].
      now apply patchOne_keeps_matching.
  - apply (A Index.createNode).
    + intros head attrs items y d0. simpl. heads.
      now destruct (String.eqb head "#document-fragment").
    + reflexivity.
Qed.

Lemma createNode_matches_its_description_witness :
  (exists n d1,
     Index1.createNode (JArray "circle" (Some [(KString "r", VPrim (PNumber 1))]) [])
       (Uri svgns) (mkDom 0 []) = (Single n, d1)
     /\ Render.sameNodeName (JArray "circle" (Some [(KString "r", VPrim (PNumber 1))]) []) n
        = true
     /\ exists n' d2,
          patchOne (JArray "circle" (Some [(KString "r", VPrim (PNumber 1))]) []) n d1
          = ([n'], d2)
          /\ node_id n' = node_id n /\ nodeName n' = nodeName n
          /\ namespaceURI n' = namespaceURI n)
  /\ (exists n d1,
        Index.createNode (JArray "circle" (Some [(KString "r", VPrim (PNumber 1))]) [])
          (Uri svgns) (mkDom 0 []) = (Single n, d1)
        /\ Render.sameNodeName (JArray "circle" (Some [(KString "r", VPrim (PNumber 1))]) []) n
           = true).
Proof.
  apply (createNode_matches_its_description
           (JArray "circle" (Some [(KString "r", VPrim (PNumber 1))]) [])
           (Uri svgns) (mkDom 0 [])).
  reflexivity.
Defined.

(** ** Fragments in the factory *)
Section FragmentsInline.

Lemma createEach_app (create : jsonml -> dom -> created * dom) l1 l2 :
  forall d,
    Index.createEach create (l1 ++ l2) d
    = let '(r1, d1) := Index.createEach create l1 d in
      let '(r2, d2) := Index.createEach create l2 d1 in
      (r1 ++ r2, d2).
Proof.
  induction l1 as [|c l1 IH]; intros d; simpl.
  - now destruct (Index.createEach create l2 d).
  - destruct (create c d) as [r d1]. rewrite IH.
    destruct (Index.createEach create l1 d1) as [r1 d2].
    destruct (Index.createEach create l2 d2) as [r2 d3].
    now rewrite app_assoc.
Qed.

(** A fragment without an attribute map among the entries stands for its
    own entries. *)
Lemma createEach_inline (create : jsonml -> dom -> created * dom) inner pre post :
  (forall d, create (JArray "#document-fragment" None inner) d
             = let '(l, d1) := Index.createEach create inner d in (Fragment l, d1)) ->
  forall d,
    Index.createEach create (pre ++ JArray "#document-fragment" None inner :: post) d
    = Index.createEach create (pre ++ inner ++ post) d.
Proof.
  intros Hf d. rewrite !createEach_app.
  destruct (Index.createEach create pre d) as [r1 d1].
  rewrite createEach_app. simpl. rewrite Hf.
  destruct (Index.createEach create inner d1) as [r2 d2].
  now destruct (Index.createEach create post d2).
Qed.

End FragmentsInline.

(** Fragments are transparent to the factory. In the revision of
    index.js that hands [xmlns] on, an element or fragment built from
    entries one of which is a fragment (without an attribute map) is the
    element or fragment built from the entries with those of the fragment
    written in its place: the same nodes with the same identities, and
    the same document after the call. In src/index.js this holds for a
    fragment within a fragment. *)
Theorem createNode_fragment_entries_inline head attrs pre inner post x d :
  let nested := pre ++ JArray Index1.dollar_fragment None inner :: post in
  let inline := pre ++ inner ++ post in
  Index1.createElement head attrs nested x d = Index1.createElement head attrs inline x d
  /\ Index1.createDocumentFragment attrs nested x d
     = Index1.createDocumentFragment attrs inline x d
  /\ Index.createDocumentFragment attrs nested d = Index.createDocumentFragment attrs inline d.
Proof.
  intros nested inline. subst nested inline. heads.
  assert (F1 : forall y d0,
            Index.createEach (fun c => Index1.createNode c y)
              (pre ++ JArray "#document-fragment" None inner :: post) d0
            = Index.createEach (fun c => Index1.createNode c y) (pre ++ inner ++ post) d0).
  { intros y d0. apply (createEach_inline (fun c => Index1.createNode c y)). reflexivity. }
  assert (F0 : forall d0,
            Index.createEach (fun c => Index.createNode c Undefined)
              (pre ++ JArray "#document-fragment" None inner :: post) d0
            = Index.createEach (fun c => Index.createNode c Undefined) (pre ++ inner ++ post) d0).
  { intros d0. apply (createEach_inline (fun c => Index.createNode c Undefined)). reflexivity. }
  split; [|split].
  - unfold Index1.createElement, Index1.createElement_body, Index.createElement_body.
    cbv zeta. cbn [fresh]. now rewrite F1.
  - unfold Index1.createDocumentFragment, Index1.createDocumentFragment_body, Index1.createEach.
    destruct attrs as [m|]; [|apply F1].
    destruct (Index1.createTextNode (SlotMap m) d) as [t d1]. now rewrite F1.
  - unfold Index.createDocumentFragment, Index.createDocumentFragment_body.
    destruct attrs as [m|]; [|apply F0].
    destruct (Index.createTextNode (SlotMap m) d) as [t d1]. now rewrite F0.
Qed.

(** ** Where the two revisions of index.js agree *)
Section RevisionsAgree.

Lemma createElement_body_ext (f g : jsonml -> nsval -> dom -> created * dom)
  head attrs items x x' d :
  given x = given x' ->
  Forall (fun c => forall d0,
            f c (Index.override_xmlns attrs (given x)) d0
            = g c (Index.override_xmlns attrs (given x)) d0) items ->
  Index.createElement_body f head attrs items x d
  = Index.createElement_body g head attrs items x' d.
Proof.
  intros Hx H. unfold Index.createElement_body. cbv zeta. cbn [fresh].
  change (match x with Undefined => Uri htmlns | _ => x end) with (given x).
  change (match x' with Undefined => Uri htmlns | _ => x' end) with (given x').
  rewrite <- Hx.
  now rewrite (createEach_ext
                 (fun c => f c (Index.override_xmlns attrs (given x)))
                 (fun c => g c (Index.override_xmlns attrs (given x))) items H).
Qed.

Lemma createNode_agree_fragment_free j :
  fragment_free j = true ->
  forall x d, Index.createNode j x d = Index1.createNode j x d.
Proof.
  induction j as [v|head attrs items IH] using jsonml_induction; intros Hp x d;
    [reflexivity|].
  simpl in Hp. heads. apply andb_prop in Hp as [Hf Hi]. apply negb_true_iff in Hf.
  simpl. heads. rewrite Hf.
  destruct (String.eqb head "#comment"); [reflexivity|].
  unfold Index1.createElement_body.
  rewrite (createElement_body_ext Index.createNode Index1.createNode head attrs items x x d);
    [reflexivity | reflexivity |].
  rewrite forallb_forall in Hi. rewrite Forall_forall in IH |- *.
  intros c Hin d0. apply IH; auto.
Qed.

Lemma createNode_agree_html j :
  inherits j = true ->
  forall x x' d,
    given x = Uri htmlns -> given x' = Uri htmlns ->
    Index.createNode j x d = Index1.createNode j x' d.
Proof.
  induction j as [v|head attrs items IH] using jsonml_induction; intros Hi x x' d Hx Hx';
    [reflexivity|].
  pose proof (inherits_override attrs items head (given x) Hi) as Ho.
  simpl in Hi. apply andb_prop in Hi as [_ Hi].
  assert (Hk : forall y y', given y = Uri htmlns -> given y' = Uri htmlns ->
            Forall (fun c => forall d0, Index.createNode c y d0 = Index1.createNode c y' d0)
              items).
  { intros y y' Hy Hy'. rewrite forallb_forall in Hi. rewrite Forall_forall in IH |- *.
    intros c Hin d0. apply IH; auto. }
  simpl. heads. destruct (String.eqb head "#document-fragment").
  - unfold Index.createDocumentFragment_body, Index1.createDocumentFragment_body,
      Index1.createEach, Index1.createTextNode.
    destruct attrs as [m|].
    + destruct (Index.createTextNode (SlotMap m) d) as [t d1].
      now rewrite (createEach_ext (fun c => Index.createNode c Undefined)
                     (fun c => Index1.createNode c x') items (Hk Undefined x' eq_refl Hx')).
    + now rewrite (createEach_ext (fun c => Index.createNode c Undefined)
                     (fun c => Index1.createNode c x') items (Hk Undefined x' eq_refl Hx')).
  - destruct (String.eqb head "#comment"); [reflexivity|].
    unfold Index1.createElement_body.
    rewrite (createElement_body_ext Index.createNode Index1.createNode head attrs items x x' d);
      [reflexivity | congruence |].
    rewrite Ho, Hx. apply Hk; reflexivity.
Qed.

End RevisionsAgree.

(** The two revisions of index.js build the same nodes, with the same
    identities, and leave the same document, in two cases: the
    description has no fragment anywhere; or no attribute map in it sets
    the namespace and the namespace handed in is absent or the HTML one.
    They part only where a namespace other than the HTML one has to
    cross a fragment. *)
Theorem createNode_revisions_agree_without_fragment_or_in_html j x d :
  fragment_free j || (inherits j && html_default x) = true ->
  Index.createNode j x d = Index1.createNode j x d.
Proof.
  intros H. apply orb_prop in H as [H | H].
  - now apply createNode_agree_fragment_free.
  - apply andb_prop in H as [Hi Hx]. unfold html_default in Hx.
    assert (E : given x = Uri htmlns).
    { destruct (given x) as [| |u]; try discriminate. simpl in Hx.
      apply String.eqb_eq in Hx. now subst u. }
    now apply createNode_agree_html.
Qed.

Lemma createNode_revisions_agree_without_fragment_or_in_html_witness :
  Index.createNode
    (JArray "ul" (Some [(KString "class", VPrim (PString "k"))])
       [JArray "#document-fragment" None [JArray "li" None [JPrim (PNumber 1)]];
        JArray "#comment" None [JPrim (PString "c")]])
    Undefined (mkDom 0 [])
  = Index1.createNode
      (JArray "ul" (Some [(KString "class", VPrim (PString "k"))])
         [JArray "#document-fragment" None [JArray "li" None [JPrim (PNumber 1)]];
          JArray "#comment" None [JPrim (PString "c")]])
      Undefined (mkDom 0 []).
Proof.
  apply (createNode_revisions_agree_without_fragment_or_in_html
           (JArray "ul" (Some [(KString "class", VPrim (PString "k"))])
              [JArray "#document-fragment" None [JArray "li" None [JPrim (PNumber 1)]];
               JArray "#comment" None [JPrim (PString "c")]])
           Undefined (mkDom 0 [])).
  reflexivity.
Defined.

(** ** No patch rewrites an element *)
Section Survive.

Lemma elements_set_nodeValue v n : elements (set_nodeValue v n) = elements n.
Proof. now destruct n. Qed.

Lemma kept_refl d l : kept_or_new d l l.
Proof. intros e H. now left. Qed.

Lemma kept_trans d d1 a b c :
  next_id d <= next_id d1 ->
  kept_or_new d a b -> kept_or_new d1 b c -> kept_or_new d a c.
Proof.
  intros L H1 H2 e He. destruct (H2 e He) as [H | H]; [now apply H1 | right; lia].
Qed.

Lemma kept_made d l r : made_since d r -> kept_or_new d l r.
Proof. intros H e He. right. unfold made_since in H. rewrite Forall_forall in H. auto. Qed.

Lemma kept_append d l added : made_since d added -> kept_or_new d l (l ++ added).
Proof.
  intros H e He. rewrite flat_map_app in He. apply in_app_or in He as [He | He]; [now left|].
  right. unfold made_since in H. rewrite Forall_forall in H. auto.
Qed.

Lemma kept_replace d id r : forall l n,
  find_node id l = Some n -> kept_or_new d [n] r -> kept_or_new d l (replace_node id r l).
Proof.
  induction l as [|m l IH]; simpl; intros n Hf H; [discriminate|].
  destruct (Nat.eqb (node_id m) id).
  - injection Hf as ->. intros e He. rewrite flat_map_app in He.
    apply in_app_or in He as [He | He].
    + destruct (H e He) as [K | K]; [left | now right].
      simpl in K. rewrite app_nil_r in K. apply in_or_app. now left.
    + left. apply in_or_app. now right.
  - intros e He. simpl in He. apply in_app_or in He as [He | He].
    + left. apply in_or_app. now left.
    + destruct (IH n Hf H e He) as [K | K]; [left | now right].
      apply in_or_app. now right.
Qed.

Lemma kept_remove d id : forall l, kept_or_new d l (remove_node id l).
Proof.
  induction l as [|m l IH]; simpl; [apply kept_refl|].
  destruct (Nat.eqb (node_id m) id); intros e He; left.
  - apply in_or_app. now right.
  - simpl in He. apply in_app_or in He as [He | He]; apply in_or_app; [now left | right].
    destruct (IH e He) as [K | K]; [exact K|].
    clear - He. induction l as [|k l IHl]; simpl in *; [contradiction|].
    destruct (Nat.eqb (node_id k) id).
    + apply in_or_app. now right.
    + simpl in He. apply in_app_or in He as [He | He]; apply in_or_app; auto.
Qed.

Lemma createEach_made (create : jsonml -> dom -> created * dom) items :
  Forall (fun c => forall d,
            next_id d <= next_id (snd (create c d))
            /\ made_since d (nodes_of (fst (create c d)))) items ->
  forall d, made_since d (fst (Index.createEach create items d)).
Proof.
  induction 1 as [|c items Hc _ IH]; intros d; simpl; [constructor|].
  destruct (Hc d) as [L F]. destruct (create c d) as [r d1]. specialize (IH d1).
  destruct (Index.createEach create items d1) as [rs d2]. simpl in *.
  unfold made_since in *. rewrite flat_map_app. apply Forall_app. split; [exact F|].
  eapply Forall_impl; [|exact IH]. simpl. intros. lia.
Qed.

(** Whatever the factory builds is made at the call. *)
Lemma createNode_made j :
  forall x d, made_since d (nodes_of (fst (Index1.createNode j x d))).
Proof.
  induction j as [v|head attrs items IH] using jsonml_induction; intros x d; [constructor|].
  assert (Hk : forall y, Forall (fun c => forall d0,
                 next_id d0 <= next_id (snd (Index1.createNode c y d0))
                 /\ made_since d0 (nodes_of (fst (Index1.createNode c y d0)))) items).
  { intros y. eapply Forall_impl; [|exact IH]. intros c Hc d0.
    split; [apply createNode_le | apply Hc]. }
  simpl. heads. destruct (String.eqb head "#document-fragment").
  - unfold Index1.createDocumentFragment_body, Index1.createEach. destruct attrs as [m|].
    + pose proof (createEach_made (fun c => Index1.createNode c x) items (Hk x)
                    (snd (Index1.createTextNode (SlotMap m) d))) as G.
      simpl in G |- *. destruct (Index.createEach _ items _) as [kids d2].
      unfold made_since in *. simpl in *.
      eapply Forall_impl; [|exact G]. simpl. intros. lia.
    + pose proof (createEach_made (fun c => Index1.createNode c x) items (Hk x) d) as G.
      destruct (Index.createEach _ items d) as [kids d2]. exact G.
  - destruct (String.eqb head "#comment"); [constructor|].
    destruct (createElement_body_children Index1.createNode head attrs items x d)
      as (a & p & E).
    unfold Index1.createElement_body. rewrite E. cbv zeta.
    pose proof (createEach_made (fun c => Index1.createNode c
                                   (Index.override_xmlns attrs (given x))) items (Hk _)
                  (mkDom (S (next_id d)) (journal d ++ [Created (next_id d)]))) as G.
    destruct (Index.createEach _ items _) as [kids d2].
    unfold made_since in *. simpl in *. rewrite app_nil_r.
    constructor; [simpl; lia|].
    eapply Forall_impl; [|exact G]. simpl. intros. lia.
Qed.

Lemma createDelimitedNode_made j x d :
  made_since d (nodes_of (fst (Render.createDelimitedNode j x d))).
Proof.
  destruct j as [v|head attrs items]; [constructor|].
  unfold Render.createDelimitedNode.
  destruct (Index1.isDocumentFragment (JArray head attrs items)); [|apply createNode_made].
  unfold Render.createDelimitedDocumentFragment, Render.newDelimiter, Index1.createEach.
  assert (Hk : Forall (fun c => forall d0,
                 next_id d0 <= next_id (snd (Index1.createNode c x d0))
                 /\ made_since d0 (nodes_of (fst (Index1.createNode c x d0)))) items)
    by (apply Forall_forall; intros c _ d0; split; [apply createNode_le | apply createNode_made]).
  cbn [fresh]. destruct attrs as [m|].
  - pose proof (createEach_made (fun c => Index1.createNode c x) items Hk
                  (snd (Index1.createTextNode (SlotMap m)
                     (mkDom (S (next_id d)) (journal d ++ [Created (next_id d)]))))) as G.
    simpl in G |- *. destruct (Index.createEach _ items _) as [kids d2].
    unfold made_since in *. simpl in *.
    eapply Forall_impl; [|exact G]. simpl. intros. lia.
  - pose proof (createEach_made (fun c => Index1.createNode c x) items Hk
                  (mkDom (S (next_id d)) (journal d ++ [Created (next_id d)]))) as G.
    destruct (Index.createEach _ items _) as [kids d2].
    unfold made_since in *. simpl in *.
    eapply Forall_impl; [|exact G]. simpl. intros. lia.
Qed.

Lemma patchNode_keeps j n d : kept_or_new d [n] (fst (Render.patchNode j n d)).
Proof.
  unfold Render.patchNode. destruct (Render.sameNodeName j n).
  - destruct (nodeValue n) as [s|]; [destruct (String.eqb s _)|]; simpl;
      try apply kept_refl; intros e He; left; simpl in *;
      now rewrite elements_set_nodeValue in He.
  - pose proof (createDelimitedNode_made j (namespaceURI n) d) as G.
    destruct (Render.createDelimitedNode j (namespaceURI n) d) as [c d1]. simpl in *.
    now apply kept_made.
Qed.

Lemma patchAt_keeps (patch : node -> dom -> list node * dom) id w d :
  (forall n d0, kept_or_new d0 [n] (fst (patch n d0))) ->
  kept_or_new d (siblings w) (siblings (fst (Render.patchAt patch id w d))).
Proof.
  intros H. unfold Render.patchAt.
  destruct (find_node id (siblings w)) as [n|] eqn:F; [|apply kept_refl].
  specialize (H n d). destruct (patch n d) as [r d1]. simpl in *.
  now apply kept_replace with (n := n).
Qed.

Lemma walker_nextSibling_siblings w : siblings (snd (walker_nextSibling w)) = siblings w.
Proof. unfold walker_nextSibling. now destruct (nextSiblingOf _ _). Qed.

Lemma patchChild_keeps c cur w d :
  keeps c ->
  kept_or_new d (siblings w)
    (siblings (snd (fst (Render.patchChild Render.patchElement
                           Render.patchDocumentFragment c cur w d)))).
Proof.
  intros [He Hf]. unfold Render.patchChild.
  pose proof (walker_nextSibling_siblings w) as S.
  destruct (walker_nextSibling w) as [next w1]. simpl in S. rewrite <- S.
  destruct c as [v|head attrs items].
  - pose proof (patchAt_keeps (Render.patchNode (JPrim v)) cur w1 d (patchNode_keeps _)) as G.
    destruct (Render.patchAt _ cur w1 d) as [w2 d2]. exact G.
  - destruct (String.eqb head Index1.dollar_fragment).
    + specialize (Hf cur w1 d).
      destruct (Render.patchDocumentFragment _ cur w1 d) as [w2 d2].
      now destruct (nextSiblingOf _ _).
    + destruct (String.eqb head Index1.dollar_comment).
      * pose proof (patchAt_keeps (Render.patchNode (JArray head attrs items)) cur w1 d
                      (patchNode_keeps _)) as G.
        destruct (Render.patchAt _ cur w1 d) as [w2 d2]. exact G.
      * pose proof (patchAt_keeps (Render.patchElement (JArray head attrs items)) cur w1 d He)
          as G.
        destruct (Render.patchAt _ cur w1 d) as [w2 d2]. exact G.
Qed.

Lemma patchElementChildren_keeps items :
  Forall keeps items ->
  forall cur w d,
    kept_or_new d (siblings w)
      (siblings (snd (fst (Render.patchElementChildren Render.patchElement
                             Render.patchDocumentFragment items cur w d)))).
Proof.
  induction 1 as [|c items Hc _ IH]; intros cur w d; [apply kept_refl|].
  rewrite patchElementChildren_cons. destruct cur as [n|].
  - pose proof (patchChild_keeps c n w d Hc) as G.
    pose proof (patchChild_le c n w d (patch_grows c)) as L.
    destruct (Render.patchChild _ _ c n w d) as [[next w1] d1].
    specialize (IH next w1 d1). simpl in *. now apply kept_trans with (d1 := d1) (b := siblings w1).
  - pose proof (createDelimitedNode_made c (root_ns w) d) as G.
    pose proof (createDelimitedNode_le c (root_ns w) d) as L.
    destruct (Render.createDelimitedNode c (root_ns w) d) as [m d1].
    pose proof (appendChild_next_id m w d1) as A.
    unfold appendChild in *. cbn [fst snd] in *.
    match goal with |- context [Render.patchElementChildren _ _ items None ?w1 ?d2] =>
      specialize (IH None w1 d2); apply kept_trans with (d1 := d2) (b := siblings w1) end.
    + lia.
    + simpl. now apply kept_append.
    + exact IH.
Qed.

Lemma patchFragmentChildren_keeps items :
  Forall keeps items ->
  forall cur w d,
    kept_or_new d (siblings w)
      (siblings (snd (fst (Render.patchFragmentChildren Render.patchElement
                             Render.patchDocumentFragment items cur w d)))).
Proof.
  induction 1 as [|c items Hc _ IH]; intros cur w d; [apply kept_refl|].
  rewrite patchFragmentChildren_cons. destruct cur as [n|].
  - pose proof (patchChild_keeps c n w d Hc) as G.
    pose proof (patchChild_le c n w d (patch_grows c)) as L.
    destruct (Render.patchChild _ _ c n w d) as [[next w1] d1].
    specialize (IH next w1 d1). simpl in *. now apply kept_trans with (d1 := d1) (b := siblings w1).
  - pose proof (createDelimitedNode_made c Undefined d) as G.
    pose proof (createDelimitedNode_le c Undefined d) as L.
    destruct (Render.createDelimitedNode c Undefined d) as [m d1].
    pose proof (appendChild_next_id m w d1) as A.
    unfold appendChild in *. cbn [fst snd] in *.
    match goal with |- context [walker_nextSibling ?w1] =>
      pose proof (walker_nextSibling_siblings w1) as S;
      destruct (walker_nextSibling w1) as [o w2] end.
    match goal with |- context [Render.patchFragmentChildren _ _ items None ?w1 ?d2] =>
      specialize (IH None w1 d2); apply kept_trans with (d1 := d2) (b := siblings w1) end.
    + lia.
    + simpl in S. rewrite S. simpl. now apply kept_append.
    + exact IH.
Qed.

Lemma removeSiblings_keeps d0 turns : forall cur w d,
  kept_or_new d0 (siblings w) (siblings (fst (Render.removeSiblings turns cur w d))).
Proof.
  induction turns as [|turns IH]; intros [c|] w d; try apply kept_refl.
  simpl. intros e He. destruct (IH (nextSiblingOf c (siblings w))
                                  (set_siblings (remove_node c (siblings w)) w)
                                  (record (Removed (root_id w) c) d) e He) as [K | K];
    [|now right].
  simpl in K. now apply (kept_remove d0 c (siblings w)).
Qed.

Lemma kept_set_childNodes d n kids :
  kept_or_new d (childNodes n) kids -> kept_or_new d [n] [set_childNodes kids n].
Proof.
  destruct n as [id ns q a p old|id s|id s m]; simpl; intros H; try apply kept_refl.
  intros e He. simpl in He. rewrite app_nil_r in He. destruct He as [<- | He].
  - left. now left.
  - destruct (H e He) as [K | K]; [left | now right].
    simpl. right. now rewrite app_nil_r.
Qed.

Lemma createElement_made head attrs items x d :
  made_since d [fst (Index1.createElement head attrs items x d)].
Proof.
  destruct (createElement_body_children Index1.createNode head attrs items x d)
    as (a & p & E).
  unfold Index1.createElement, Index1.createElement_body. rewrite E. cbv zeta.
  assert (Hk : Forall (fun c => forall d0,
                 next_id d0 <= next_id (snd (Index1.createNode c
                                               (Index.override_xmlns attrs (given x)) d0))
                 /\ made_since d0 (nodes_of (fst (Index1.createNode c
                                                   (Index.override_xmlns attrs (given x)) d0))))
               items)
    by (apply Forall_forall; intros c _ d0; split; [apply createNode_le | apply createNode_made]).
  pose proof (createEach_made (fun c => Index1.createNode c
                                 (Index.override_xmlns attrs (given x))) items Hk
                (mkDom (S (next_id d)) (journal d ++ [Created (next_id d)]))) as G.
  destruct (Index.createEach _ items _) as [kids d2].
  unfold made_since in *. simpl in *. rewrite app_nil_r.
  constructor; [simpl; lia|].
  eapply Forall_impl; [|exact G]. simpl. intros. lia.
Qed.

Lemma patch_keeps j : keeps j.
Proof.
  induction j as [v|head attrs items IH] using jsonml_induction.
  - split; intros; apply kept_refl.
  - split.
    + intros n d. rewrite patchElement_eq. destruct (Render.sameNodeName _ n).
      * cbv zeta. destruct (childNodes n) as [|first others] eqn:Hk.
        -- pose proof (createNode_made (JArray "#document-fragment" attrs items)
                         (namespaceURI n) d) as M.
           change (Index1.createNode (JArray "#document-fragment" attrs items)
                     (namespaceURI n) d)
             with (let '(l, d1) := Index1.createDocumentFragment_body Index1.createNode
                                     attrs items (namespaceURI n) d in (Fragment l, d1)) in M.
           unfold Index1.createDocumentFragment.
           destruct (Index1.createDocumentFragment_body _ attrs items _ d) as [l d1].
           unfold appendChild. cbn [fst snd siblings set_siblings nodes_of app] in *.
           apply kept_set_childNodes. rewrite Hk. now apply kept_made.
        -- pose proof (patchElementChildren_keeps items IH (Some (node_id first))
                         (mkWalker (node_id n) (namespaceURI n) (first :: others)
                            (node_id first)) d) as G.
           cbn [root_id root_ns siblings] in *.
           destruct (Render.patchElementChildren _ _ items _ _ d) as [[cur w1] d1].
           pose proof (removeSiblings_keeps d (length (siblings w1)) cur w1 d1) as R.
           destruct (Render.removeSiblings _ cur w1 d1) as [w2 d2]. cbn [fst snd] in *.
           apply kept_set_childNodes. rewrite Hk.
           now apply kept_trans with (d1 := d) (b := siblings w1).
      * pose proof (createElement_made head attrs items Undefined d) as M.
        destruct (Index1.createElement head attrs items Undefined d) as [e d1].
        now apply kept_made.
    + intros id w d. rewrite patchDocumentFragment_eq.
      destruct (find_node id (siblings w)) as [n|] eqn:F; [|apply kept_refl].
      destruct (isDelimiter n).
      * pose proof (patchFragmentChildren_keeps items IH (Some (currentNode w)) w d) as G.
        destruct (Render.patchFragmentChildren _ _ items _ w d) as [[o w1] d1]. exact G.
      * pose proof (createDelimitedNode_made (JArray "#document-fragment" attrs items)
                      Undefined d) as M.
        change (Render.createDelimitedNode (JArray "#document-fragment" attrs items)
                  Undefined d)
          with (let '(l, d1) := Render.createDelimitedDocumentFragment attrs items
                                  Undefined d in (Fragment l, d1)) in M.
        destruct (Render.createDelimitedDocumentFragment attrs items Undefined d) as [l d1].
        cbn [fst snd siblings set_siblings nodes_of] in *.
        apply kept_replace with (n := n); [exact F | now apply kept_made].
Qed.

End Survive.

(** No patch rewrites an element. After [patchElement], [render] or
    [patchDocumentFragment], every element of the tree, at any depth,
    is an element that was in the tree before the call, with the
    namespace, the name, the attributes and the properties it had then,
    or is an element made during the call. So an attribute map in the
    description has an effect only on the elements the call creates: the
    attributes of an element that is kept are never brought up to date. *)
Theorem patch_never_rewrites_an_element j n d :
  kept_or_new d [n] (fst (Render.patchElement j n d))
  /\ kept_or_new d [n] [fst (Render.render j n d)]
  /\ forall id w,
       kept_or_new d (siblings w) (siblings (fst (Render.patchDocumentFragment j id w d))).
Proof.
  split; [apply (patch_keeps j)|]. split; [|intros id w; apply (patch_keeps j)].
  unfold Render.render.
  pose proof (proj1 (patch_keeps (JArray (nodeName n) None [j])) n d) as K. revert K.
  rewrite patchElement_eq, sameNodeName_self. cbv zeta.
  destruct (childNodes n) as [|first others].
  - destruct (Index1.createDocumentFragment _ _ _ _) as [l d1].
    destruct (appendChild _ _ d1) as [w1 d2]. auto.
  - destruct (Render.patchElementChildren _ _ _ _ _ _) as [[cur w1] d1].
    destruct (Render.removeSiblings _ _ _ _) as [w2 d2]. auto.
Qed.

(** ** Mounting a fragment over a node that is no delimiter *)
Section Mount.



End Mount.



(** ** Appending what the live side lacks *)
Section Append.













End Append.



(** ** A fragment patched again, its delimiter in place *)
Section FragmentAgain.

Lemma nextSiblingOf_last c (done : list node) n' :
  ~ In c (ids done) -> nextSiblingOf c (done ++ [n']) = None.
Proof.
  induction done as [|m done IH]; simpl; intros H.
  - now destruct (Nat.eqb _ _).
  - destruct (Nat.eqb_spec (node_id m) c) as [E|_]; [exfalso; apply H; now left|].
    apply IH. intros Hin. apply H. now right.
Qed.

Lemma nextSiblingOf_snoc c l m :
  nextSiblingOf c l = None ->
  c <> node_id m ->
  nextSiblingOf c (l ++ [m]) = None \/ nextSiblingOf c (l ++ [m]) = Some (node_id m).
Proof.
  induction l as [|k l IH]; simpl; intros H N.
  - left. destruct (Nat.eqb_spec (node_id m) c); [congruence | reflexivity].
  - destruct (Nat.eqb (node_id k) c).
    + destruct l; [right; reflexivity | discriminate].
    + now apply IH.
Qed.

(** The walker after [root.appendChild(node); treeWalker.nextSibling()],
    when it stood on the last child or on a node that is no child: it
    stands on the last child or on a node that is no child again. *)
Lemma walker_after_append w m bound :
  nextSiblingOf (currentNode w) (siblings w) = None ->
  currentNode w < bound ->
  Forall (fun k => node_id k < bound) (siblings w) ->
  bound <= node_id m ->
  siblings (snd (walker_nextSibling (set_siblings (siblings w ++ [m]) w))) = siblings w ++ [m]
  /\ root_id (snd (walker_nextSibling (set_siblings (siblings w ++ [m]) w))) = root_id w
  /\ nextSiblingOf
       (currentNode (snd (walker_nextSibling (set_siblings (siblings w ++ [m]) w))))
       (siblings w ++ [m]) = None
  /\ currentNode (snd (walker_nextSibling (set_siblings (siblings w ++ [m]) w))) <= node_id m.
Proof.
  intros H Hc Hl Hm. unfold walker_nextSibling, set_siblings. cbn [siblings currentNode].
  destruct (nextSiblingOf_snoc (currentNode w) (siblings w) m H) as [E | E]; [lia| |];
    rewrite E; cbn [snd siblings root_id currentNode].
  - repeat split; auto. lia.
  - repeat split; auto.
    apply (nextSiblingOf_app (siblings w) [] m).
    intros Hin. apply in_map_iff in Hin as (k & Ek & Hin).
    rewrite Forall_forall in Hl. specialize (Hl k Hin). lia.
Qed.

(** The [for] loop of [patchDocumentFragment] over plain descriptions:
    as the loop of [patchElement], and when it has used up the live
    children the walker is left on the last child or on a node that is
    no child any more. *)
Lemma patchFragmentChildren_plain items :
  Forall patched items ->
  forallb plain items = true ->
  forall rest done w d b,
    siblings w = done ++ rest ->
    match rest with
    | n :: _ => currentNode w = node_id n
    | [] => nextSiblingOf (currentNode w) (siblings w) = None /\ currentNode w < next_id d
    end ->
    NoDup (ids (done ++ rest)) ->
    Forall (fun n => node_id n < next_id d) (done ++ rest) ->
    Forall (fun n => well_formed b n = true) rest ->
    b <= next_id d ->
    exists new w' d',
      Render.patchFragmentChildren Render.patchElement Render.patchDocumentFragment
        items (head_id rest) w d
      = (head_id (skipn (length items) rest), w', d')
      /\ siblings w' = done ++ new ++ skipn (length items) rest
      /\ root_id w' = root_id w
      /\ all2 settled items new = true
      /\ Forall (fun n => well_formed (next_id d') n = true) new
      /\ NoDup (ids (siblings w'))
      /\ next_id d <= next_id d'
      /\ (length rest <= length items ->
          nextSiblingOf (currentNode w') (siblings w') = None)
      /\ (forall r rs, skipn (length items) rest = r :: rs -> currentNode w' = node_id r).
Proof.
  induction 1 as [|c items Hc _ IH]; intros Hpl rest done w d b Hw Hcur Hnd Hlt Hwf Hb.
  - exists [], w, d. simpl. rewrite Hw. repeat split; auto.
    + intros Hl. destruct rest; [|simpl in Hl; lia]. rewrite <- Hw. apply Hcur.
    + intros r rs ->. exact Hcur.
  - simpl in Hpl. apply andb_prop in Hpl as [Hpc Hpi].
    pose proof (plain_not_fragment c Hpc) as Hnf.
    rewrite patchFragmentChildren_cons.
    destruct rest as [|n rest'].
    + cbn [head_id]. destruct Hcur as [Hlast Hclt].
      rewrite createDelimitedNode_not_fragment by assumption.
      destruct (createNode_plain c Hpc Undefined d) as (m & d1 & -> & Hm & Hlt1 & Hs & Hwm).
      cbn [appendChild nodes_of map].
      rewrite app_nil_r in *.
      destruct (walker_after_append w m (next_id d)) as (A1 & A2 & A3 & A4); auto.
      { now rewrite Hw. }
      { lia. }
      destruct (walker_nextSibling (set_siblings (siblings w ++ [m]) w)) as [o w2].
      cbn [snd] in A1, A2, A3, A4.
      destruct (IH Hpi [] (done ++ [m]) w2
                  (record (Appended (root_id w) [node_id m]) d1) b)
        as (new & w' & d' & E & Hs' & Hr & Hsh & Hwn & Hnd' & Hle & Hnx & Hcw).
      * now rewrite A1, Hw, app_nil_r.
      * rewrite A1. split; [exact A3 | simpl; lia].
      * rewrite app_nil_r. apply (NoDup_ids_snoc done m (next_id d)); auto. lia.
      * rewrite app_nil_r. apply Forall_app. split.
        -- apply (Forall_lt_mono done (next_id d)); auto. simpl. lia.
        -- constructor; [simpl; lia | constructor].
      * constructor.
      * simpl. lia.
      * change (head_id []) with (@None nat) in E.
        rewrite E. exists (m :: new), w', d'.
        rewrite skipn_nil in *. simpl in Hle.
        split; [reflexivity|]. split; [rewrite Hs', <- app_assoc; reflexivity|].
        split; [congruence|]. split; [simpl; now rewrite Hs, Hsh|].
        split; [constructor; [now apply (well_formed_mono (next_id d1)) | assumption]|].
        split; [assumption|]. split; [lia|].
        split; [intros _; apply Hnx; simpl; lia | intros r rs; discriminate].
    + cbn [head_id].
      pose proof (NoDup_ids_middle _ _ _ Hnd) as Hn.
      rewrite (patchChild_at c done rest' n w d Hnf Hw Hcur Hn).
      inversion Hwf as [|? ? Hwn Hwr]; subst.
      destruct (Hc b n d Hwn Hb) as (n' & d1 & -> & Hid & Hle1 & Hs & Hwn').
      pose proof (well_formed_id _ _ Hwn') as Hlt'.
      assert (Hnlt : node_id n < next_id d).
      { rewrite Forall_forall in Hlt. apply Hlt. apply in_or_app. right. now left. }
      destruct (IH Hpi rest' (done ++ [n'])
                  (mkWalker (root_id w) (root_ns w) (done ++ [n'] ++ rest')
                     (match rest' with m :: _ => node_id m | [] => node_id n end))
                  d1 b)
        as (new & w' & d' & E & Hs' & Hr & Hsh & Hwnew & Hnd' & Hle & Hnx & Hcw).
      * simpl. now rewrite <- app_assoc.
      * destruct rest' as [|m rest'']; [|reflexivity].
        cbn [siblings currentNode app]. split; [now apply nextSiblingOf_last | lia].
      * apply NoDup_ids_replace with (n := n); [assumption|].
        destruct Hid as [Hid | Hid]; [now left | right].
        intros Hin. apply in_map_iff in Hin as (m & E & Hin).
        rewrite Forall_forall in Hlt. specialize (Hlt m Hin). lia.
      * rewrite <- app_assoc. simpl.
        apply Forall_app in Hlt as [Hd Hr]. inversion Hr; subst.
        apply Forall_app. split; [apply (Forall_lt_mono done (next_id d)); auto|].
        constructor; [assumption|]. apply (Forall_lt_mono rest' (next_id d)); auto.
      * assumption.
      * lia.
      * rewrite E. exists (n' :: new), w', d'. simpl in Hr |- *.
        split; [reflexivity|]. split; [rewrite Hs', <- app_assoc; reflexivity|].
        split; [assumption|]. split; [now rewrite Hs, Hsh|].
        split; [constructor; [now apply (well_formed_mono (next_id d1)) | assumption]|].
        split; [assumption|]. split; [lia|].
        split; [intros Hl; apply Hnx; lia | exact Hcw].
Qed.

(** Over settled children the loop of [patchDocumentFragment] patches
    nothing and leaves the walker on the last child. *)
Lemma patchFragmentChildren_at_rest items :
  Forall at_rest items ->
  forallb plain items = true ->
  forall rest done w d b,
    all2 settled items rest = true ->
    siblings w = done ++ rest ->
    match rest with
    | n :: _ => currentNode w = node_id n
    | [] => nextSiblingOf (currentNode w) (siblings w) = None
    end ->
    NoDup (ids (done ++ rest)) ->
    Forall (fun n => well_formed b n = true) rest ->
    exists w',
      Render.patchFragmentChildren Render.patchElement Render.patchDocumentFragment
        items (head_id rest) w d
      = (None, w', d)
      /\ siblings w' = siblings w
      /\ root_id w' = root_id w
      /\ nextSiblingOf (currentNode w') (siblings w') = None.
Proof.
  induction 1 as [|c items Hc _ IH]; intros Hpl rest done w d b Hs Hw Hcur Hnd Hwf.
  - destruct rest; [|discriminate]. exists w. auto.
  - destruct rest as [|n rest']; [discriminate|].
    simpl in Hpl, Hs. apply andb_prop in Hpl as [Hpc Hpi]. apply andb_prop in Hs as [Hsn Hs].
    inversion Hwf as [|? ? Hwn Hwr]; subst.
    rewrite patchFragmentChildren_cons. cbn [head_id].
    pose proof (NoDup_ids_middle _ _ _ Hnd) as Hn.
    rewrite (patchChild_at c done rest' n w d (plain_not_fragment c Hpc) Hw Hcur Hn).
    rewrite (Hc b n d Hsn Hwn).
    destruct (IH Hpi rest' (done ++ [n])
                (mkWalker (root_id w) (root_ns w) (done ++ [n] ++ rest')
                   (match rest' with m :: _ => node_id m | [] => node_id n end))
                d b Hs) as (w' & E & Hs' & Hr & Hnx).
    + simpl. now rewrite <- app_assoc.
    + destruct rest' as [|m rest'']; [|reflexivity].
      cbn [siblings currentNode app]. now apply nextSiblingOf_last.
    + now rewrite <- app_assoc.
    + assumption.
    + exists w'. rewrite E. simpl in Hs', Hr. rewrite Hs', Hw in *. auto.
Qed.

(** [render] of a fragment onto a root whose first child is the
    delimiter and which has a child after it, for plain entries: the
    children after the delimiter are patched one for one, what the live
    side lacks is appended, and what it has beyond the entries is
    removed, unless it is one node only, which stays. *)
Lemma render_fragment_plain items id ns q a p c s kids d :
  forallb plain items = true ->
  well_formed (next_id d) (Element id ns q a p (Comment c s true :: kids)) = true ->
  1 <= length kids ->
  exists new d',
    Render.render (JArray "#document-fragment" None items)
      (Element id ns q a p (Comment c s true :: kids)) d
    = (Element id ns q a p
         (Comment c s true
          :: new ++ match skipn (length items) kids with [r] => [r] | _ => [] end), d')
    /\ all2 settled items new = true
    /\ well_formed (next_id d')
         (Element id ns q a p
            (Comment c s true
             :: new ++ match skipn (length items) kids with [r] => [r] | _ => [] end)) = true.
Proof.
  intros Hpl Hwf Hl1.
  apply well_formed_element in Hwf as (Hid & Hq & Hnd & Hk).
  destruct kids as [|k1 kids1]; [simpl in Hl1; lia|].
  inversion Hk as [|? ? Hwc Hwk]; subst.
  assert (Hpa : Forall patched items).
  { apply Forall_forall. intros j Hin. apply patchOne_plain.
    rewrite forallb_forall in Hpl. now apply Hpl. }
  unfold Render.render. rewrite patchElement_eq, sameNodeName_self. cbv zeta.
  cbn [childNodes root_id root_ns siblings node_id].
  rewrite patchElementChildren_cons. unfold Render.patchChild, walker_nextSibling.
  cbn [siblings currentNode nextSiblingOf node_id root_id root_ns].
  rewrite Nat.eqb_refl. heads.
  change (String.eqb "#document-fragment" "#document-fragment") with true. cbv iota.
  rewrite patchDocumentFragment_eq. cbn [siblings find_node node_id currentNode].
  rewrite Nat.eqb_refl. cbn [isDelimiter].
  destruct (patchFragmentChildren_plain items Hpa Hpl (k1 :: kids1) [Comment c s true]
              (mkWalker id (namespaceURI (Element id ns q a p (Comment c s true :: k1 :: kids1)))
                 (Comment c s true :: k1 :: kids1) (node_id k1)) d (next_id d))
    as (new & w' & d' & E & Hs' & Hr & Hsh & Hwn & Hnd' & Hle & Hnx & Hcw); auto.
  { apply Forall_forall. intros n Hin. rewrite Forall_forall in Hk.
    now apply well_formed_id, Hk. }
  cbn [head_id] in E. rewrite E. clear E.
  assert (Hwd : well_formed (next_id d') (Comment c s true) = true).
  { apply well_formed_comment. apply well_formed_comment in Hwc. lia. }
  assert (Hwr : Forall (fun n => well_formed (next_id d') n = true)
                  (skipn (length items) (k1 :: kids1))).
  { rewrite <- (firstn_skipn (length items) (k1 :: kids1)) in Hwk.
    apply Forall_app in Hwk as [_ Hwk].
    now apply (Forall_well_formed_mono (next_id d)). }
  destruct (skipn (length items) (k1 :: kids1)) as [|r1 [|r2 rs]] eqn:Sk.
  - assert (Hl2 : length (k1 :: kids1) <= length items).
    { apply (f_equal (@length node)) in Sk. rewrite length_skipn in Sk.
      change (length (@nil node)) with 0 in Sk. lia. }
    rewrite (Hnx Hl2). cbv iota.
    cbn [Render.patchElementChildren]. rewrite removeSiblings_none.
    rewrite app_nil_r in Hs'. cbn [app] in Hs'.
    rewrite Hs'. cbn [set_childNodes hd fst].
    exists new, d'. rewrite app_nil_r. split; [reflexivity|]. split; [exact Hsh|].
    apply well_formed_element. split; [lia|]. split; [exact Hq|].
    split; [now rewrite <- Hs'|]. now constructor.
  - rewrite (Hcw r1 [] eq_refl).
    assert (Hn : ~ In (node_id r1) (ids ([Comment c s true] ++ new))).
    { apply NoDup_ids_middle with (rest := []). now rewrite <- app_assoc, <- Hs'. }
    replace (siblings w') with (([Comment c s true] ++ new) ++ r1 :: [])
      by (now rewrite <- app_assoc).
    rewrite nextSiblingOf_app by assumption. cbn [head_id]. cbv iota.
    cbn [Render.patchElementChildren]. rewrite removeSiblings_none.
    cbn [app] in Hs' |- *. rewrite Hs'. cbn [set_childNodes hd fst].
    exists new, d'. split; [reflexivity|]. split; [exact Hsh|].
    apply well_formed_element. split; [lia|]. split; [exact Hq|].
    split; [now rewrite <- Hs'|].
    constructor; [exact Hwd|]. apply Forall_app. now split.
  - rewrite (Hcw r1 (r2 :: rs) eq_refl).
    assert (Hnd2 : NoDup (ids (([Comment c s true] ++ new) ++ r1 :: r2 :: rs)))
      by (now rewrite <- app_assoc, <- Hs').
    assert (Hs2 : siblings w' = ([Comment c s true] ++ new) ++ r1 :: r2 :: rs)
      by (now rewrite <- app_assoc).
    pose proof (NoDup_ids_middle _ _ _ Hnd2) as Hn.
    replace (nextSiblingOf (node_id r1) (siblings w')) with (Some (node_id r2))
      by (rewrite Hs2; now rewrite nextSiblingOf_app).
    cbv iota.
    cbn [Render.patchElementChildren].
    rewrite (removeSiblings_rest (r1 :: r2 :: rs) ([Comment c s true] ++ new));
      [ | exact Hs2 | exact Hnd2 | rewrite Hs2, length_app; lia ].
    cbn [set_siblings siblings set_childNodes hd fst app].
    eexists new, _. rewrite app_nil_r. split; [reflexivity|]. cbn [next_id].
    split; [exact Hsh|].
    apply well_formed_element. split; [lia|]. split; [exact Hq|].
    split.
    + unfold ids in Hnd2 |- *. rewrite map_app in Hnd2.
      now apply NoDup_app_remove_r in Hnd2.
    + now constructor.
Qed.

(** [render] of a fragment onto a root whose children are the delimiter
    and settled nodes. *)
Lemma render_fragment_at_rest items id ns q a p c s kids d b :
  forallb plain items = true ->
  well_formed b (Element id ns q a p (Comment c s true :: kids)) = true ->
  all2 settled items kids = true ->
  Render.render (JArray "#document-fragment" None items)
    (Element id ns q a p (Comment c s true :: kids)) d
  = (Element id ns q a p (Comment c s true :: kids), d).
Proof.
  intros Hpl Hwf Hs.
  apply well_formed_element in Hwf as (Hid & Hq & Hnd & Hk).
  inversion Hk as [|? ? Hwc Hwk]; subst.
  assert (Har : Forall at_rest items).
  { apply Forall_forall. intros j Hin. apply patchOne_at_rest.
    rewrite forallb_forall in Hpl. now apply Hpl. }
  unfold Render.render. rewrite patchElement_eq, sameNodeName_self. cbv zeta.
  cbn [childNodes root_id root_ns siblings node_id].
  rewrite patchElementChildren_cons. unfold Render.patchChild, walker_nextSibling.
  cbn [siblings currentNode nextSiblingOf node_id root_id root_ns].
  rewrite Nat.eqb_refl. heads.
  change (String.eqb "#document-fragment" "#document-fragment") with true.
  destruct kids as [|k1 kids1].
  - destruct items; [|discriminate]. cbv iota.
    rewrite patchDocumentFragment_eq. cbn [siblings find_node node_id currentNode].
    rewrite Nat.eqb_refl.
    cbn [isDelimiter Render.patchFragmentChildren siblings currentNode nextSiblingOf node_id].
    rewrite Nat.eqb_refl. reflexivity.
  - cbv iota.
    rewrite patchDocumentFragment_eq. cbn [siblings find_node node_id currentNode].
    rewrite Nat.eqb_refl. cbn [isDelimiter].
    destruct (patchFragmentChildren_at_rest items Har Hpl (k1 :: kids1) [Comment c s true]
                (mkWalker id
                   (namespaceURI (Element id ns q a p (Comment c s true :: k1 :: kids1)))
                   (Comment c s true :: k1 :: kids1) (node_id k1)) d b Hs)
      as (w' & E & Hs' & Hr & Hnx); auto.
    cbn [head_id] in E. rewrite E, Hnx.
    cbn [Render.patchElementChildren]. rewrite removeSiblings_none.
    cbn [siblings] in Hs'. rewrite Hs'. reflexivity.
Qed.

End FragmentAgain.

(** A fragment patched again converges. When the first child of the live
    root is the delimiter of an earlier mount and the root has a child
    after it, [render] of a fragment of plain entries keeps the root and
    the delimiter and leaves after the delimiter nodes of the shape of
    the nodes [createNode] builds from the fragment: live children are
    patched where they stand, the nodes the live side lacks are appended
    and the children it has beyond the entries are removed. The one case
    left out is that of exactly one child beyond the entries. *)
Theorem render_fragment_again_converges items id ns q a p c s kids d :
  forallb plain items = true ->
  well_formed (next_id d) (Element id ns q a p (Comment c s true :: kids)) = true ->
  (1 <=? length kids)%nat && negb (Nat.eqb (length kids) (S (length items))) = true ->
  exists kids' d',
    Render.render (JArray Index1.dollar_fragment None items)
      (Element id ns q a p (Comment c s true :: kids)) d
    = (Element id ns q a p (Comment c s true :: kids'), d')
    /\ forall x d0,
         map shape_of kids'
         = map shape_of (nodes_of (fst (Index1.createNode
                                          (JArray Index1.dollar_fragment None items) x d0))).
Proof.
  intros Hpl Hwf Hl. apply andb_prop in Hl as [Hl1 Hl2].
  apply Nat.leb_le in Hl1. apply negb_true_iff, Nat.eqb_neq in Hl2.
  destruct (render_fragment_plain items id ns q a p c s kids d Hpl Hwf Hl1)
    as (kids' & d' & E & Hs & _).
  assert (St : match skipn (length items) kids with [r] => [r] | _ => [] end = []).
  { destruct (skipn (length items) kids) as [|r [|r2 rs]] eqn:Sk; try reflexivity.
    apply (f_equal (@length node)) in Sk. rewrite length_skipn in Sk.
    change (length [r]) with 1 in Sk. lia. }
  rewrite St, app_nil_r in E.
  exists kids', d'. split; [exact E|]. intros x d0.
  rewrite (all2_settled_shape items kids' Hpl Hs).
  destruct (createEach_plain items (plain_items_built items Hpl) x d0)
    as (l & d1 & El & _ & Hsl & _).
  change (Index1.createNode (JArray Index1.dollar_fragment None items) x d0)
    with (let '(l, d1) := Index.createEach (fun c => Index1.createNode c x) items d0 in
          (Fragment l, d1)).
  rewrite El. cbn [fst nodes_of]. symmetry. now apply all2_settled_shape.
Qed.

Lemma render_fragment_again_converges_witness :
  exists kids' d',
    Render.render
      (JArray Index1.dollar_fragment None
         [JPrim (PString "a"); JArray "b" None [JPrim (PNumber 1)]])
      (Element 0 (Some htmlns) "div" [] []
         (Comment 1 "" true :: [Text 2 "a"; Text 3 "b"; Text 4 "c"; Text 5 "d"]))
      (mkDom 6 [])
    = (Element 0 (Some htmlns) "div" [] [] (Comment 1 "" true :: kids'), d')
    /\ forall x d0,
         map shape_of kids'
         = map shape_of (nodes_of (fst (Index1.createNode
             (JArray Index1.dollar_fragment None
                [JPrim (PString "a"); JArray "b" None [JPrim (PNumber 1)]]) x d0))).
Proof.
  apply (render_fragment_again_converges
           [JPrim (PString "a"); JArray "b" None [JPrim (PNumber 1)]]
           0 (Some htmlns) "div" [] [] 1 ""
           [Text 2 "a"; Text 3 "b"; Text 4 "c"; Text 5 "d"] (mkDom 6 [])).
  - reflexivity.
  - reflexivity.
  - reflexivity.
Defined.

(** A fragment patched again is left alone the second time. Under the
    same conditions a second [render] with the same fragment returns the
    root and the document of the first: it creates, removes and replaces
    no node and writes no value. *)
Theorem render_fragment_again_idempotent items id ns q a p c s kids d :
  forallb plain items = true ->
  well_formed (next_id d) (Element id ns q a p (Comment c s true :: kids)) = true ->
  (1 <=? length kids)%nat && negb (Nat.eqb (length kids) (S (length items))) = true ->
  let '(root1, d1) :=
    Render.render (JArray Index1.dollar_fragment None items)
      (Element id ns q a p (Comment c s true :: kids)) d in
  Render.render (JArray Index1.dollar_fragment None items) root1 d1 = (root1, d1).
Proof.
  intros Hpl Hwf Hl. apply andb_prop in Hl as [Hl1 Hl2].
  apply Nat.leb_le in Hl1. apply negb_true_iff, Nat.eqb_neq in Hl2.
  destruct (render_fragment_plain items id ns q a p c s kids d Hpl Hwf Hl1)
    as (kids' & d' & E & Hs & Hw').
  assert (St : match skipn (length items) kids with [r] => [r] | _ => [] end = []).
  { destruct (skipn (length items) kids) as [|r [|r2 rs]] eqn:Sk; try reflexivity.
    apply (f_equal (@length node)) in Sk. rewrite length_skipn in Sk.
    change (length [r]) with 1 in Sk. lia. }
  rewrite St, app_nil_r in E, Hw'.
  heads. rewrite E.
  now apply (render_fragment_at_rest items id ns q a p c s kids' d' (next_id d')).
Qed.

Lemma render_fragment_again_idempotent_witness :
  let '(root1, d1) :=
    Render.render
      (JArray Index1.dollar_fragment None
         [JPrim (PString "a"); JArray "b" None [JPrim (PNumber 1)]; JArray "#comment" None []])
      (Element 0 (Some htmlns) "div" [] [] (Comment 1 "" true :: [Text 2 "a"; Text 3 "b"]))
      (mkDom 4 []) in
  Render.render
    (JArray Index1.dollar_fragment None
       [JPrim (PString "a"); JArray "b" None [JPrim (PNumber 1)]; JArray "#comment" None []])
    root1 d1 = (root1, d1).
Proof.
  apply (render_fragment_again_idempotent
           [JPrim (PString "a"); JArray "b" None [JPrim (PNumber 1)]; JArray "#comment" None []]
           0 (Some htmlns) "div" [] [] 1 "" [Text 2 "a"; Text 3 "b"] (mkDom 4 [])).
  - reflexivity.
  - reflexivity.
  - reflexivity.
Defined.

(** One child beyond a fragment stays. When the live root has, after the
    delimiter, exactly one child more than the fragment has entries,
    [render] patches the children that stand against the entries and
    leaves the last child where it is, unchanged: after
    [patchDocumentFragment] the walker stands on this child, which has
    no next sibling, so the loop that removes what is left over is given
    nothing to remove. *)
Theorem render_fragment_again_leaves_one_child items id ns q a p c s kids last d :
  forallb plain items = true ->
  well_formed (next_id d) (Element id ns q a p (Comment c s true :: kids ++ [last])) = true ->
  Nat.eqb (length kids) (length items) = true ->
  exists kids' d',
    Render.render (JArray Index1.dollar_fragment None items)
      (Element id ns q a p (Comment c s true :: kids ++ [last])) d
    = (Element id ns q a p (Comment c s true :: kids' ++ [last]), d')
    /\ map shape_of kids' = map shape_of_description items.
Proof.
  intros Hpl Hwf Hl. apply Nat.eqb_eq in Hl.
  destruct (render_fragment_plain items id ns q a p c s (kids ++ [last]) d Hpl Hwf)
    as (kids' & d' & E & Hs & _).
  { rewrite length_app. simpl. lia. }
  assert (St : skipn (length items) (kids ++ [last]) = [last]).
  { rewrite <- Hl, skipn_app, skipn_all, Nat.sub_diag. reflexivity. }
  rewrite St in E. heads.
  exists kids', d'. split; [exact E|]. now apply all2_settled_shape.
Qed.

Lemma render_fragment_again_leaves_one_child_witness :
  exists kids' d',
    Render.render (JArray Index1.dollar_fragment None [JPrim (PString "a")])
      (Element 0 (Some htmlns) "div" [] [] (Comment 1 "" true :: [Text 2 "x"] ++ [Text 3 "y"]))
      (mkDom 4 [])
    = (Element 0 (Some htmlns) "div" [] [] (Comment 1 "" true :: kids' ++ [Text 3 "y"]), d')
    /\ map shape_of kids' = map shape_of_description [JPrim (PString "a")].
Proof.
  apply (render_fragment_again_leaves_one_child [JPrim (PString "a")]
           0 (Some htmlns) "div" [] [] 1 "" [Text 2 "x"] (Text 3 "y") (mkDom 4 [])).
  - reflexivity.
  - reflexivity.
  - reflexivity.
Defined.
